(** * Matterbuild: slash-command dispatch, release cut and the Jenkins poller

    A shallow embedding of [server/server.go] (permission check, command
    dispatch, the [cut] handler) and of the Jenkins helper file
    ([CutRelease], [RunJobWaitForResult], [SetCIServerBranch], ...).

    Go strings are [string] (byte strings), [int]/[int64] are [Z] with the
    64-bit wrap-around written out, [map[string]string] is a
    [gmap string string].  Everything the program does to the outside
    (Jenkins, HTTP, sleeping, the response writer, spawning the background
    goroutine) is an [Event] appended to the [World]; what the outside
    answers is read from an [Env] of scripted replies.

    [cutReleaseCommandF] calls [CutRelease] with five arguments, the last
    being the dry-run flag; the Jenkins file has the [CutRelease] of four
    parameters.  Both are here: [CutRelease] from the Jenkins file, and
    [CutRelease5], which the handler calls, with the dry run as the
    specification describes it. *)

From Stdlib Require Import ZArith Ascii String List Bool DecimalString.
From stdpp Require Import base gmap strings list.

Local Open Scope string_scope.
Local Open Scope Z_scope.

(* stdpp freezes [String.append]; the proofs below compute with it. *)
#[local] Arguments String.append !s1 s2 : simpl nomatch.

(** ** Go strings *)

Module GoString.

Definition len (s : string) : Z := Z.of_nat (String.length s).

(** [strings.HasSuffix]. *)
Definition HasSuffix (s suffix : string) : bool :=
  let n := String.length s in
  let m := String.length suffix in
  (m <=? n)%nat && String.eqb (substring (n - m) m s) suffix.

(** [strings.Split(s, sep)] for a one-byte separator: the pieces between
    the occurrences of [sep]; a string without [sep] gives one piece. *)
Fixpoint Split (s : string) (sep : ascii) : list string :=
  match s with
  | EmptyString => [EmptyString]
  | String c s' =>
      if Ascii.eqb c sep then EmptyString :: Split s' sep
      else match Split s' sep with
           | [] => [String c EmptyString]
           | piece :: rest => String c piece :: rest
           end
  end.

(** [strings.Join]. *)
Definition Join (elems : list string) (sep : string) : string :=
  String.concat sep elems.

(** ASCII white space, as [unicode.IsSpace] on one-byte characters. *)
Definition isSpace (c : ascii) : bool :=
  let n := nat_of_ascii c in
  ((9 <=? n) && (n <=? 13) || (n =? 32))%nat.

Fixpoint TrimLeft (s : string) : string :=
  match s with
  | EmptyString => EmptyString
  | String c s' => if isSpace c then TrimLeft s' else s
  end.

Fixpoint TrimRight (s : string) : string :=
  match s with
  | EmptyString => EmptyString
  | String c s' =>
      match TrimRight s' with
      | EmptyString => if isSpace c then EmptyString else String c EmptyString
      | t => String c t
      end
  end.

(** [strings.TrimSpace]. *)
Definition TrimSpace (s : string) : string := TrimRight (TrimLeft s).

Fixpoint fields_from (s word : string) : list string :=
  match s with
  | EmptyString => match word with EmptyString => [] | _ => [word] end
  | String c s' =>
      if isSpace c then
        match word with
        | EmptyString => fields_from s' EmptyString
        | _ => word :: fields_from s' EmptyString
        end
      else fields_from s' (word +:+ String c EmptyString)
  end.

(** [strings.Fields]: the maximal runs of non-space characters. *)
Definition Fields (s : string) : list string := fields_from s EmptyString.

Definition isDigit (c : ascii) : bool :=
  let n := nat_of_ascii c in ((48 <=? n) && (n <=? 57))%nat.

Definition MaxInt64 : Z := 9223372036854775807.
Definition MinInt64 : Z := -9223372036854775808.

(** Two's-complement wrap-around of 64-bit [int] arithmetic. *)
Definition wrap64 (z : Z) : Z := (z + 2 ^ 63) mod 2 ^ 64 - 2 ^ 63.

(** [strconv.Itoa] and [strconv.FormatInt(_, 10)]. *)
Definition Itoa (z : Z) : string := NilZero.string_of_int (Z.to_int z).

Fixpoint parse_digits (s : string) (acc : Z) : option Z :=
  match s with
  | EmptyString => Some acc
  | String c s' =>
      if isDigit c
      then parse_digits s' (10 * acc + (Z.of_nat (nat_of_ascii c) - 48))
      else None
  end.

(** [strconv.Atoi]: an optional sign, then at least one decimal digit, and
    the value must fit an [int]; [None] is Go's non-nil error. *)
Definition Atoi (s : string) : option Z :=
  let '(neg, body) :=
    match s with
    | String "-" b => (true, b)
    | String "+" b => (false, b)
    | _ => (false, s)
    end in
  match body with
  | EmptyString => None
  | _ =>
      match parse_digits body 0 with
      | None => None
      | Some v =>
          let v' := if neg then - v else v in
          if (MinInt64 <=? v') && (v' <=? MaxInt64) then Some v' else None
      end
  end.

End GoString.
Import GoString.

(** ** Regular expressions ([regexp.MustCompile] and [MatchString])

    The two patterns of [server.go] use character classes, literal
    characters, the any-character dot, concatenation and [+]; both are
    anchored with [^] and [$], so [MatchString] is membership of the whole
    string.  Matching is by Brzozowski derivatives, byte by byte: it agrees
    with Go on ASCII input (Go's dot consumes one UTF-8 rune). *)

Module Regexp.

Inductive regex : Type :=
| Void
| Eps
| Chr (p : ascii -> bool)
| Cat (r1 r2 : regex)
| Alt (r1 r2 : regex)
| Star (r : regex).

Definition Plus (r : regex) : regex := Cat r (Star r).

(** [[0-9]] *)
Definition digit : regex := Chr isDigit.
(** [.]: any character but a line feed *)
Definition anychar : regex := Chr (fun c => negb (Ascii.eqb c "010"%char)).
Definition lit (c : ascii) : regex := Chr (Ascii.eqb c).

Fixpoint nullable (r : regex) : bool :=
  match r with
  | Void => false
  | Eps => true
  | Chr _ => false
  | Cat r1 r2 => nullable r1 && nullable r2
  | Alt r1 r2 => nullable r1 || nullable r2
  | Star _ => true
  end.

Fixpoint deriv (c : ascii) (r : regex) : regex :=
  match r with
  | Void => Void
  | Eps => Void
  | Chr p => if p c then Eps else Void
  | Cat r1 r2 =>
      if nullable r1
      then Alt (Cat (deriv c r1) r2) (deriv c r2)
      else Cat (deriv c r1) r2
  | Alt r1 r2 => Alt (deriv c r1) (deriv c r2)
  | Star r1 => Cat (deriv c r1) (Star r1)
  end.

Fixpoint MatchString (r : regex) (s : string) : bool :=
  match s with
  | EmptyString => nullable r
  | String c s' => MatchString (deriv c r) s'
  end.

(** The language of a pattern, to reason about [MatchString]. *)
Inductive lang : regex -> string -> Prop :=
| lang_eps : lang Eps EmptyString
| lang_chr p c : p c = true -> lang (Chr p) (String c EmptyString)
| lang_cat r1 r2 s1 s2 : lang r1 s1 -> lang r2 s2 -> lang (Cat r1 r2) (s1 +:+ s2)
| lang_alt_l r1 r2 s : lang r1 s -> lang (Alt r1 r2) s
| lang_alt_r r1 r2 s : lang r2 s -> lang (Alt r1 r2) s
| lang_star_nil r : lang (Star r) EmptyString
| lang_star_cons r s1 s2 :
    lang r s1 -> lang (Star r) s2 -> lang (Star r) (s1 +:+ s2).

End Regexp.
Import Regexp.

(** ["^[0-9]+.[0-9]+.[0-9]+$"]: the dots are not escaped. *)
Definition finalVersionRxp : regex :=
  Cat (Plus digit) (Cat anychar (Cat (Plus digit) (Cat anychar (Plus digit)))).

(** ["^[0-9]+.[0-9]+.[0-9]+-rc[0-9]+$"] *)
Definition rcRxp : regex :=
  Cat (Plus digit) (Cat anychar (Cat (Plus digit) (Cat anychar (Cat (Plus digit)
    (Cat (lit "-") (Cat (lit "r") (Cat (lit "c") (Plus digit)))))))).

(** ** Errors

    Go's [error] interface holds nothing ([nil_error]), a library error, or
    a [*AppError].  A nil [*AppError] stored in an [error] is a value of its
    own, different from the nil interface: [AppError_nil]. *)

Inductive error : Type :=
| nil_error
| lib_error (msg : string)
| AppError_nil
| AppError_ptr (ErrorDescription : string) (Parent : error).

Record AppError : Type := mkAppError {
  ErrorDescription : string;
  Parent : error
}.

(** The implicit conversion of a [*AppError] to [error]. *)
Definition as_error (err : option AppError) : error :=
  match err with
  | None => AppError_nil
  | Some e => AppError_ptr (ErrorDescription e) (Parent e)
  end.

Definition is_nil (e : error) : bool :=
  match e with nil_error => true | _ => false end.

(** Dynamic dispatch of [Error()] on a non-nil [error]. *)
Fixpoint error_Error (e : error) : string :=
  match e with
  | nil_error => ""
  | lib_error msg => msg
  | AppError_nil => "No Error (nil)"
  | AppError_ptr d p =>
      if is_nil p then d else d +:+ " |:| " +:+ error_Error p
  end.

(** [func (err *AppError) Error() string] *)
Definition AppError_Error (err : option AppError) : string :=
  match err with
  | None => "No Error (nil)"
  | Some e =>
      if negb (is_nil (Parent e))
      then ErrorDescription e +:+ " |:| " +:+ error_Error (Parent e)
      else ErrorDescription e
  end.

Definition NewError (description : string) (parent : error) : option AppError :=
  Some (mkAppError description parent).

(** ** The outside world *)

Inductive result (A : Type) : Type :=
| Ok (a : A)
| Err (msg : string).
Arguments Ok {A} a.
Arguments Err {A} msg.

(** [Cfg]: the fields of the configuration the two files read. *)
Record Config : Type := mkConfig {
  AllowedTokens : list string;
  AllowedUsers : list string;
  ReleaseUsers : list string;
  ReleaseJob : string;
  PreChecksJob : string;
  PreReleaseJob : string;
  CIServerJobs : list string
}.

(** What the goroutine started by [CutRelease] captures. *)
Record ReleaseTask : Type := mkReleaseTask {
  task_release : string;
  task_rcpart : string;
  task_isFirstMinorReleaseStr : string;
  task_backportRelease : bool;
  task_releaseBranch : string;
  task_fullRelease : string
}.

(** The payload written to the [http.ResponseWriter]. *)
Inductive Response : Type :=
| StandardResponse (text style : string)
| EnrichedResponse (title text color style : string)
| CobraOutput (err : error).

Inductive Event : Type :=
| EvInit
| EvGetJob (name : string)
| EvGetConfig (name : string)
| EvUpdateConfig (name config : string)
| EvInvoke (name : string) (parameters : gmap string string)
| EvPoll (base : string)
| EvIsRunning (base : string)
| EvGetResult (base : string)
| EvSleep (seconds : Z)
| EvHttpGet (url : string)
| EvWrite (r : Response)
| EvGo (t : ReleaseTask)
| EvOtherCommand (name : string) (args : list string)
| EvGoDryRun (t : ReleaseTask).

(** The world is the history of effects, newest first. *)
Definition World : Type := list Event.

Module Kind.
Definition init (e : Event) : bool := match e with EvInit => true | _ => false end.
Definition getjob (e : Event) : bool := match e with EvGetJob _ => true | _ => false end.
Definition getconfig (e : Event) : bool := match e with EvGetConfig _ => true | _ => false end.
Definition updateconfig (e : Event) : bool := match e with EvUpdateConfig _ _ => true | _ => false end.
Definition invoke (e : Event) : bool := match e with EvInvoke _ _ => true | _ => false end.
Definition poll (e : Event) : bool := match e with EvPoll _ => true | _ => false end.
Definition isrunning (e : Event) : bool := match e with EvIsRunning _ => true | _ => false end.
Definition getresult (e : Event) : bool := match e with EvGetResult _ => true | _ => false end.
Definition httpget (e : Event) : bool := match e with EvHttpGet _ => true | _ => false end.
End Kind.

(** How many events of one kind the history holds. *)
Fixpoint calls (kind : Event -> bool) (w : World) : nat :=
  match w with
  | [] => 0%nat
  | e :: w' => if kind e then S (calls kind w') else calls kind w'
  end.

(** An XML document as etree exposes it here: the text of the first
    element each path selects from the root.  A text without a root
    element is read without error, and [Root()] is then nil: that is the
    [None] of [etree_ReadFromString]. *)
Abbreviation Document := (gmap string string).

(** The replies of the collaborators: the [n]-th call of an operation
    (counting from 0, over the whole history) is answered by the field
    applied to [n] and the call's arguments. *)
Record Env : Type := mkEnv {
  jenkins_Init : nat -> option string;
  jenkins_GetJob : nat -> string -> result Z;
  job_GetConfig : nat -> string -> result string;
  job_UpdateConfig : nat -> string -> string -> option string;
  job_InvokeSimple : nat -> string -> gmap string string -> option string;
  build_Poll : nat -> string -> result Z;
  build_IsRunning : nat -> string -> bool;
  build_GetResult : nat -> string -> string;
  http_Get : nat -> string -> result Z;
  etree_ReadFromString : string -> result (option Document);
  etree_WriteToString : Document -> result string
}.

(** ** The monad of the embedding: state, panics and fuel *)

Inductive Outcome (A : Type) : Type :=
| Done (a : A) (w : World)
| Panicked (msg : string) (w : World)
| OutOfFuel.
Arguments Done {A} a w.
Arguments Panicked {A} msg w.
Arguments OutOfFuel {A}.

Definition M (A : Type) : Type := World -> Outcome A.

Definition ret {A} (a : A) : M A := fun w => Done a w.

Definition bind {A B} (m : M A) (k : A -> M B) : M B :=
  fun w =>
    match m w with
    | Done a w' => k a w'
    | Panicked msg w' => Panicked msg w'
    | OutOfFuel => OutOfFuel
    end.

Definition panic {A} (msg : string) : M A := fun w => Panicked msg w.
Definition out_of_fuel {A} : M A := fun _ => OutOfFuel.

(** Perform [ev]; its reply is [reply n] where [n] counts the earlier
    events of the same [kind]. *)
Definition call {A} (kind : Event -> bool) (ev : Event) (reply : nat -> A) : M A :=
  fun w => Done (reply (calls kind w)) (ev :: w).

Definition emit (ev : Event) : M unit := fun w => Done tt (ev :: w).

Declare Scope go_scope.
Delimit Scope go_scope with go.
Notation "'let*' x ':=' m 'in' k" := (bind m (fun x => k))
  (at level 10, x pattern, m at level 100, k at level 200) : go_scope.
Notation "m ;;; k" := (bind m (fun _ => k))
  (at level 100, right associativity) : go_scope.
Local Open Scope go_scope.

(** [err != nil] on a [*AppError]. *)
Definition non_nil (err : option AppError) : bool :=
  match err with Some _ => true | None => false end.

(** [gojenkins.STATUS_SUCCESS] *)
Definition STATUS_SUCCESS : string := "SUCCESS".

Definition Sleep (seconds : Z) : M unit := emit (EvSleep seconds).

(** ** The Jenkins helpers *)

Section Jenkins.

Variable Cfg : Config.
Variable env : Env.
(** Bound on the iterations of one loop that has no bound of its own. *)
Variable fuel : nat.

Definition getJenkins : M (option AppError) :=
  let* err := call Kind.init EvInit (jenkins_Init env) in
  match err with
  | Some msg => ret (NewError "Unable to connect to jenkins!" (lib_error msg))
  | None => ret None
  end.

(** A [*gojenkins.Job]: its name and [Raw.NextBuildNumber]. *)
Record Job : Type := mkJob { job_name : string; NextBuildNumber : Z }.

Definition getJob (name : string) : M (Job + AppError) :=
  let* err := getJenkins in
  match err with
  | Some e => ret (inr e)
  | None =>
      let* r := call Kind.getjob (EvGetJob name) (fun n => jenkins_GetJob env n name) in
      match r with
      | Err msg => ret (inr (mkAppError "Unable to get job" (lib_error msg)))
      | Ok next => ret (inl (mkJob name next))
      end
  end.

Definition GetJobConfig (name : string) : M (string * option AppError) :=
  let* j := getJob name in
  match j with
  | inr err => ret ("", Some err)
  | inl job =>
      let* r := call Kind.getconfig (EvGetConfig name) (fun n => job_GetConfig env n name) in
      match r with
      | Err msg => ret ("", NewError "Unable to get job config" (lib_error msg))
      | Ok config => ret (config, None)
      end
  end.

Definition SaveJobConfig (name config : string) : M (option AppError) :=
  let* j := getJob name in
  match j with
  | inr err => ret (Some err)
  | inl job =>
      (* here [err], the *AppError of the lookup, is nil *)
      let err : option AppError := None in
      let* err2 := call Kind.updateconfig (EvUpdateConfig name config)
                (fun n => job_UpdateConfig env n name config) in
      match err2 with
      | Some _ => ret (NewError "Unable to update job config" (as_error err))
      | None => ret None
      end
  end.

Definition default_branch_path : string :=
  "./properties/hudson.model.ParametersDefinitionProperty/parameterDefinitions/hudson.model.StringParameterDefinition/defaultValue".
Definition upstream_projects_path : string :=
  "./triggers/jenkins.triggers.ReverseBuildTrigger/upstreamProjects".

(** The panic of [Root().FindElement(...)] when [Root()] is nil. *)
Definition nil_dereference : string :=
  "runtime error: invalid memory address or nil pointer dereference".

(** [Root().FindElement(path)] and [SetText] on the element found. *)
Definition FindElement (doc : Document) (path : string) : option string := doc !! path.
Definition SetText (path text : string) (doc : Document) : Document := <[path := text]> doc.

(** The body of the loop of [SetCIServerBranch], over the jobs left. *)
Fixpoint SetCIServerBranch_from (jobs : list string) (branch : string) : M (option AppError) :=
  match jobs with
  | [] => ret None
  | serverjob :: jobs' =>
      let* (config, err) := GetJobConfig serverjob in
      match err with
      | Some e => ret (Some e)
      | None =>
          match etree_ReadFromString env config with
          | Err msg =>
              ret (NewError ("Unable to read job configuration for " +:+ serverjob) (lib_error msg))
          | Ok None => panic nil_dereference
          | Ok (Some jConfig) =>
              match FindElement jConfig default_branch_path with
              | None =>
                  ret (NewError ("Unable to correct default branch element for " +:+ serverjob) nil_error)
              | Some _ =>
                  let jConfig := SetText default_branch_path branch jConfig in
                  match FindElement jConfig upstream_projects_path with
                  | None =>
                      ret (NewError ("Unable to correct build trigger element for " +:+ serverjob) nil_error)
                  | Some _ =>
                      let jConfig :=
                        if String.eqb branch "master"
                        then SetText upstream_projects_path "mattermost-enterprise" jConfig
                        else SetText upstream_projects_path ("mattermost-platform/" +:+ branch) jConfig in
                      match etree_WriteToString env jConfig with
                      | Err msg =>
                          ret (NewError ("Unable to write out final job config for " +:+ serverjob)
                                 (lib_error msg))
                      | Ok jConfigStringOut =>
                          let* err := SaveJobConfig serverjob jConfigStringOut in
                          match err with
                          | Some e =>
                              ret (NewError ("Unable to save job for " +:+ serverjob) (as_error (Some e)))
                          | None => SetCIServerBranch_from jobs' branch
                          end
                      end
                  end
              end
          end
      end
  end.

Definition SetCIServerBranch (branch : string) : M (option AppError) :=
  SetCIServerBranch_from (CIServerJobs Cfg) branch.

(** What the [n]-th [build.Poll()] returns: the status code, or 0 and the
    error. *)
Definition poll_reply (n : nat) (base : string) : Z * error :=
  match build_Poll env n base with
  | Ok status => (status, nil_error)
  | Err msg => (0, lib_error msg)
  end.

Definition Build_Poll (base : string) : M (Z * error) :=
  call Kind.poll (EvPoll base) (fun n => poll_reply n base).

(** The [for ; err3 != nil || status != 200; tries += 1] loop: [None] when
    the loop is left by its condition, [Some e] when the body returns. *)
Fixpoint reach_loop (n : nat) (base : string) (newBuildNumber tries status : Z)
    (err3 : error) : M (option AppError) :=
  if negb (is_nil err3) || negb (status =? 200) then
    match n with
    | O => out_of_fuel
    | S n' =>
        let* (status, err3) := Build_Poll base in
        if 5 <=? tries then
          ret (NewError ("Unable to get build for pre-checks job: " +:+ Itoa newBuildNumber) err3)
        else
          Sleep tries ;;;
          reach_loop n' base newBuildNumber (wrap64 (tries + 1)) status err3
    end
  else ret None.

(** [for build.IsRunning() { time.Sleep(time.Second); build.Poll() }] *)
Fixpoint wait_loop (n : nat) (base : string) : M unit :=
  match n with
  | O => out_of_fuel
  | S n' =>
      let* running := call Kind.isrunning (EvIsRunning base) (fun k => build_IsRunning env k base) in
      if running then
        Sleep 1 ;;;
        Build_Poll base ;;;
        wait_loop n' base
      else ret tt
  end.

(** The [Base] of the [gojenkins.Build] that [RunJobWaitForResult] polls. *)
Definition build_base (name : string) (newBuildNumber : Z) : string :=
  "/job/" +:+ name +:+ "/" +:+ Itoa newBuildNumber.

(** The end of [RunJobWaitForResult], from "Wait for the build to finish". *)
Definition wait_for_result (base : string) : M (string * option AppError) :=
  Sleep 5 ;;;
  Build_Poll base ;;;
  wait_loop fuel base ;;;
  let* res := call Kind.getresult (EvGetResult base) (fun n => build_GetResult env n base) in
  ret (res, None).

Definition RunJobWaitForResult (name : string) (parameters : gmap string string)
    : M (string * option AppError) :=
  let* j := getJob name in
  match j with
  | inr err => ret ("", Some err)
  | inl job =>
      (* here [err], the *AppError of the lookup, is nil *)
      let err : option AppError := None in
      let newBuildNumber := NextBuildNumber job in
      let* err2 := call Kind.invoke (EvInvoke name parameters)
                (fun n => job_InvokeSimple env n name parameters) in
      match err2 with
      | Some _ => ret ("", NewError "Unable to envoke job." (as_error err))
      | None =>
          let tries := 1 in
          let base := build_base name newBuildNumber in
          let* (status, err3) := Build_Poll base in
          let* r := reach_loop fuel base newBuildNumber tries status err3 in
          match r with
          | Some e => ret ("", Some e)
          | None => wait_for_result base
          end
      end
  end.

Definition RunJobParameters (name : string) (parameters : gmap string string)
    : M (option AppError) :=
  let* j := getJob name in
  match j with
  | inr err => ret (Some err)
  | inl job =>
      let err : option AppError := None in
      let* err2 := call Kind.invoke (EvInvoke name parameters)
                (fun n => job_InvokeSimple env n name parameters) in
      match err2 with
      | Some _ => ret (NewError "Unable to envoke job." (as_error err))
      | None => ret None
      end
  end.

Definition RunJob (name : string) : M (option AppError) := RunJobParameters name ∅.

Definition SetPreReleaseTarget (target : string) : M (option AppError) :=
  let* (config, err) := GetJobConfig (PreReleaseJob Cfg) in
  match err with
  | Some e => ret (Some e)
  | None =>
      match etree_ReadFromString env config with
      | Err msg => ret (NewError "Unable to read job configuration for pre-release" (lib_error msg))
      | Ok None => panic nil_dereference
      | Ok (Some jConfig) =>
          match FindElement jConfig default_branch_path with
          | None => ret (NewError "Unable to find element for pre-release target" nil_error)
          | Some _ =>
              let jConfig := SetText default_branch_path target jConfig in
              match etree_WriteToString env jConfig with
              | Err msg =>
                  ret (NewError "Unable to write out final job config for pre-release job" (lib_error msg))
              | Ok jConfigStringOut =>
                  let* err := SaveJobConfig (PreReleaseJob Cfg) jConfigStringOut in
                  match err with
                  | Some e => ret (NewError "Unable to save job for pre-release" (as_error (Some e)))
                  | None => ret None
                  end
              end
          end
      end
  end.

Definition RunReleasePrechecks : M (option AppError) :=
  let* (result, err) := RunJobWaitForResult (PreChecksJob Cfg) ∅ in
  if non_nil err || negb (String.eqb result STATUS_SUCCESS) then
    ret (NewError ("Pre-checks failed! (Did you update the database upgrade code?) Result: " +:+ result)
           (as_error err))
  else ret None.

(** The parameter map the goroutine of [CutRelease] gives the release job. *)
Definition release_parameters (t : ReleaseTask) : gmap string string :=
  <["MM_VERSION" := task_release t]>
    (<["MM_RC" := task_rcpart t]>
      (<["IS_FIRST_MINOR_RELEASE" := task_isFirstMinorReleaseStr t]> ∅)).

(** The body of the goroutine of [CutRelease], run on what it captured. *)
Definition CutRelease_background (t : ReleaseTask) : M unit :=
  let* (result, err) := RunJobWaitForResult (ReleaseJob Cfg) (release_parameters t) in
  if non_nil err || negb (String.eqb result STATUS_SUCCESS) then ret tt
  else
    (* Only update the CI servers and pre-release if this is the latest release *)
    if negb (task_backportRelease t) then
      SetCIServerBranch (task_releaseBranch t) ;;;
      RunJobParameters "build-pushes/job/release-gitlab.mattermost.com"
        (<["MM_VERSION" := task_fullRelease t]> ∅) ;;;
      SetPreReleaseTarget (task_fullRelease t) ;;;
      RunJob (PreReleaseJob Cfg) ;;;
      ret tt
    else ret tt.

Definition CutRelease (release rc : string) (isFirstMinorRelease backportRelease : bool)
    : M (option AppError) :=
  if len release - 2 <? 0 then panic "slice bounds out of range"
  else
    let shortRelease := substring 0 (String.length release - 2) release in
    let releaseBranch := "release-" +:+ shortRelease in
    let fullRelease := if String.eqb rc "" then release else release +:+ "-" +:+ rc in
    let rcpart := if String.eqb rc "" then "" else "-" +:+ rc in
    let isFirstMinorReleaseStr := if isFirstMinorRelease then "true" else "false" in
    let* err := RunReleasePrechecks in
    match err with
    | Some e => ret (Some e)
    | None =>
        (* We want to return so the user knows the build has started. *)
        emit (EvGo (mkReleaseTask release rcpart isFirstMinorReleaseStr backportRelease
                      releaseBranch fullRelease)) ;;;
        ret None
    end.

(** Modelled from the spec: the [CutRelease] with five parameters that
    [cutReleaseCommandF] calls is not among the sources, which hold the
    one with four above.  By section 4.5 of the specification the fifth,
    the dry-run flag, changes one thing: the steps after the release job
    run "if this is not a backport AND not a dry run"; the pre-checks run
    for real and the release job gets the same three parameters.  The
    goroutine of a dry run is recorded as [EvGoDryRun], any other as the
    [EvGo] of the function above, whose body it shares. *)
Definition CutRelease_background5 (t : ReleaseTask) (isDryRun : bool) : M unit :=
  let* (result, err) := RunJobWaitForResult (ReleaseJob Cfg) (release_parameters t) in
  if non_nil err || negb (String.eqb result STATUS_SUCCESS) then ret tt
  else
    if negb (task_backportRelease t) && negb isDryRun then
      SetCIServerBranch (task_releaseBranch t) ;;;
      RunJobParameters "build-pushes/job/release-gitlab.mattermost.com"
        (<["MM_VERSION" := task_fullRelease t]> ∅) ;;;
      SetPreReleaseTarget (task_fullRelease t) ;;;
      RunJob (PreReleaseJob Cfg) ;;;
      ret tt
    else ret tt.

(** Modelled from the spec: [CutRelease] with the dry-run flag, as
    [cutReleaseCommandF] calls it; see [CutRelease_background5]. *)
Definition CutRelease5 (release rc : string)
    (isFirstMinorRelease backportRelease isDryRun : bool) : M (option AppError) :=
  if len release - 2 <? 0 then panic "slice bounds out of range"
  else
    let shortRelease := substring 0 (String.length release - 2) release in
    let releaseBranch := "release-" +:+ shortRelease in
    let fullRelease := if String.eqb rc "" then release else release +:+ "-" +:+ rc in
    let rcpart := if String.eqb rc "" then "" else "-" +:+ rc in
    let isFirstMinorReleaseStr := if isFirstMinorRelease then "true" else "false" in
    let* err := RunReleasePrechecks in
    match err with
    | Some e => ret (Some e)
    | None =>
        let t := mkReleaseTask release rcpart isFirstMinorReleaseStr backportRelease
                   releaseBranch fullRelease in
        emit (if isDryRun then EvGoDryRun t else EvGo t) ;;;
        ret None
    end.

(** ** The slash-command server *)

Definition IN_CHANNEL : string := "in_channel".
Definition EPHEMERAL : string := "ephemeral".

Record MMSlashCommand : Type := mkMMSlashCommand {
  ChannelId : string;
  ChannelName : string;
  Command : string;
  TeamName : string;
  TeamId : string;
  Text : string;
  Token : string;
  UserId : string;
  Username : string
}.

Definition WriteErrorResponse (err : option AppError) : M unit :=
  emit (EvWrite (StandardResponse (AppError_Error err) EPHEMERAL)).

Definition WriteResponse (resp style : string) : M unit :=
  emit (EvWrite (StandardResponse resp style)).

Definition WriteEnrichedResponse (title resp color style : string) : M unit :=
  emit (EvWrite (EnrichedResponse title resp color style)).

(** [for _, allowed := range list { if allowed == x { found = true; break } }] *)
Fixpoint contains (allowed : list string) (x : string) : bool :=
  match allowed with
  | [] => false
  | a :: rest => if String.eqb a x then true else contains rest x
  end.

Definition checkSlashPermissions (command : MMSlashCommand) : option AppError :=
  let hasPremissions := contains (AllowedTokens Cfg) (Token command) in
  if negb hasPremissions then NewError "Token for slash command is incorrect" nil_error
  else
    let hasPremissions := contains (AllowedUsers Cfg) (UserId command) in
    if negb hasPremissions then NewError "You don't have permissions to use this command." nil_error
    else
      if String.eqb (Command command) "cut" then
        let hasPremissions := contains (ReleaseUsers Cfg) (UserId command) in
        if negb hasPremissions then NewError "You don't have permissions to use this command." nil_error
        else None
      else None.

(** The first block of [cutReleaseCommandF]: the version string checked
    against the two patterns and split into release part and rc part. *)
Inductive ParsedVersion : Type :=
| Version (releasePart rcPart : string) (isFirstMinorRelease : bool)
| CannotSplit
| BadVersion.

Definition parseVersion (versionString : string) : ParsedVersion :=
  if MatchString rcRxp versionString then
    match Split versionString "-" with
    | [releasePart; rcPart] =>
        Version releasePart rcPart (String.eqb rcPart "rc1" && HasSuffix releasePart ".0")
    | _ => CannotSplit
    end
  else if MatchString finalVersionRxp versionString then Version versionString "" false
  else BadVersion.

(** What [cutReleaseCommandF] probes when [--backport] is not given. *)
Definition s3URL_of (oneReleaseUp : string) : string :=
  "http://releases.mattermost.com/" +:+ oneReleaseUp +:+ "-rc1/mattermost-" +:+ oneReleaseUp
    +:+ "-rc1-linux-amd64.tar.gz".

(** The end of [cutReleaseCommandF]: the call of [CutRelease] with its five
    arguments, and the answer. *)
Definition cut_and_answer (versionString releasePart rcPart : string)
    (isFirstMinorRelease backport dryrun : bool) : M error :=
  let* err := CutRelease5 releasePart rcPart isFirstMinorRelease backport dryrun in
  match err with
  | Some e => WriteErrorResponse (Some e) ;;; ret nil_error
  | None =>
      let msg := "Release **" +:+ versionString +:+ "** is on the way." in
      WriteEnrichedResponse "Cut Release" msg "#0060aa" IN_CHANNEL ;;;
      ret nil_error
  end.

Definition cutReleaseCommandF (args : list string) (backport dryrun : bool) : M error :=
  match args with
  | [] => ret (as_error (NewError "You need to specifiy a release version." nil_error))
  | versionString :: _ =>
      match parseVersion versionString with
      | CannotSplit =>
          WriteErrorResponse (NewError "Bad version argument. Can't split on -. Typo? If not the regex might be broken. If so be more careful!!" nil_error) ;;;
          ret nil_error
      | BadVersion =>
          WriteErrorResponse (NewError "Bad version argument. Typo? If not the regex might be broken. If so be more careful!!" nil_error) ;;;
          ret nil_error
      | Version releasePart rcPart isFirstMinorRelease =>
          (* Check that the release dev hasn't forgotten to get --backport *)
          if negb backport then
            match Split releasePart "." with
            | [major; minor; _] =>
                match Atoi minor with
                | None => WriteErrorResponse (NewError "Bad version argument." nil_error) ;;; ret nil_error
                | Some intVer =>
                    let splitRelease := [major; Itoa (wrap64 (intVer + 1)); "0"] in
                    let oneReleaseUp := Join splitRelease "." in
                    let s3URL := s3URL_of oneReleaseUp in
                    let* resp := call Kind.httpget (EvHttpGet s3URL) (fun n => http_Get env n s3URL) in
                    match resp with
                    | Ok 200 =>
                        (* http.StatusText(200) is "OK" *)
                        WriteErrorResponse (NewError ("Are you sure this isn't a backport release? I see a future release on s3. (" +:+ oneReleaseUp +:+ ")" +:+ "OK") nil_error) ;;;
                        ret nil_error
                    | _ =>
                        cut_and_answer versionString releasePart rcPart isFirstMinorRelease backport dryrun
                    end
                end
            | _ => WriteErrorResponse (NewError "Bad version argument." nil_error) ;;; ret nil_error
            end
          else cut_and_answer versionString releasePart rcPart isFirstMinorRelease backport dryrun
      end
  end.

Definition configDumpCommandF (args : list string) : M error :=
  match args with
  | [] => ret (as_error (NewError "You need to supply an argument" nil_error))
  | name :: _ =>
      let* (config, err) := GetJobConfig name in
      match err with
      | Some e => ret (as_error (Some e))
      | None => WriteResponse config IN_CHANNEL ;;; ret nil_error
      end
  end.

Definition setCIBranchCmdF (args : list string) : M error :=
  match args with
  | [] => ret (as_error (NewError "You need to specify a branch" nil_error))
  | branch :: _ =>
      let* err := SetCIServerBranch branch in
      match err with
      | Some e => ret (as_error (Some e))
      | None =>
          let msg := "CI servers now pointed at **" +:+ branch +:+ "**" in
          WriteEnrichedResponse "CI Servers" msg "#0060aa" IN_CHANNEL ;;; ret nil_error
      end
  end.

Definition runJobCmdF (args : list string) : M error :=
  match args with
  | [] => ret (as_error (NewError "You need to specify a job" nil_error))
  | name :: _ =>
      let* err := RunJob name in
      match err with
      | Some e => ret (as_error (Some e))
      | None =>
          let msg := "Ran job **" +:+ name +:+ "**" in
          WriteEnrichedResponse "Jenkins Job" msg "#0060aa" IN_CHANNEL ;;; ret nil_error
      end
  end.

Definition setPreReleaseCmdF (args : list string) : M error :=
  match args with
  | [] => ret (as_error (NewError "You need to specify a target" nil_error))
  | target :: _ =>
      let* err := SetPreReleaseTarget target in
      match err with
      | Some e => ret (as_error (Some e))
      | None =>
          let msg := "Set pre-release to **" +:+ target +:+ "**" in
          WriteEnrichedResponse "Pre-Release" msg "#0060aa" IN_CHANNEL ;;; ret nil_error
      end
  end.

(** *** Dispatch

    [rootCmd.Execute()] on [strings.Fields(strings.TrimSpace(command.Text))]:
    the first word names the sub-command, the other words are its flags and
    positional arguments.  Of cobra's flag syntax the plain boolean forms
    [--backport] and [--dryrun] of [cut] are interpreted; any other word
    that starts with a dash is reported as a flag error and the
    [--flag=value], [--help] and [--] forms are not interpreted.  The
    handlers of [cutstatus], [lockpootle], [getpootle], [merge] and
    [loadtest] depend on flags or on code outside the two files: running one
    is recorded as one [EvOtherCommand]. *)

Definition starts_with_dash (s : string) : bool :=
  match s with String "-" _ => true | _ => false end.

Fixpoint cut_flags (words : list string) (args : list string) (backport dryrun : bool)
    : result (list string * bool * bool) :=
  match words with
  | [] => Ok (args, backport, dryrun)
  | word :: rest =>
      if String.eqb word "--backport" then cut_flags rest args true dryrun
      else if String.eqb word "--dryrun" then cut_flags rest args backport true
      else if starts_with_dash word then Err ("unknown flag: " +:+ word)
      else cut_flags rest (args ++ [word])%list backport dryrun
  end.

Definition no_flags (words : list string) : result (list string) :=
  match List.find starts_with_dash words with
  | Some word => Err ("unknown flag: " +:+ word)
  | None => Ok words
  end.

Definition with_args (words : list string) (handler : list string -> M error) : M error :=
  match no_flags words with
  | Err msg => ret (lib_error msg)
  | Ok args => handler args
  end.

Definition Execute (words : list string) : M error :=
  match words with
  | [] => ret nil_error
  | name :: rest =>
      if String.eqb name "cut" then
        match cut_flags rest [] false false with
        | Err msg => ret (lib_error msg)
        | Ok (args, backport, dryrun) => cutReleaseCommandF args backport dryrun
        end
      else if String.eqb name "seeconf" then with_args rest configDumpCommandF
      else if String.eqb name "setci" then with_args rest setCIBranchCmdF
      else if String.eqb name "runjob" then with_args rest runJobCmdF
      else if String.eqb name "setprerelease" then with_args rest setPreReleaseCmdF
      else if existsb (String.eqb name) ["cutstatus"; "lockpootle"; "getpootle"; "merge"; "loadtest"]
      then emit (EvOtherCommand name rest) ;;; ret nil_error
      else ret (lib_error ("unknown command " +:+ name))
  end.

(** [slashCommandHandler] once [ParseSlashCommand] has succeeded.  cobra
    prints its help when no sub-command is given and its error and usage
    when [Execute] fails; both end up in the "Information" response. *)
Definition slashCommandHandler (command : MMSlashCommand) : M unit :=
  match checkSlashPermissions command with
  | Some err => WriteErrorResponse (Some err)
  | None =>
      let words := Fields (TrimSpace (Text command)) in
      let* err := Execute words in
      match words, err with
      | _ :: _, nil_error => ret tt
      | _, _ => emit (EvWrite (CobraOutput err))
      end
  end.

End Jenkins.

(** ** Handlers outside the dispatch above *)

Section OtherHandlers.

Variable Cfg : Config.
Variable env : Env.
Variable fuel : nat.
(** [Cfg.KubeDeployJob] and [Cfg.TranslationServerJob] *)
Variable KubeDeployJob : string.
Variable TranslationServerJob : string.

Definition LoadtestKube (buildTag : string) (length delay : Z) : M (option AppError) :=
  RunJobParameters env KubeDeployJob
    (<["BUILD_TAG" := buildTag]>
      (<["KUBE_BRANCH" := "master"]>
        (<["KUBE_CONFIG_FILE" := "values_loadtest.yaml"]>
          (<["TEST_LENGTH_MINUTES" := Itoa length]>
            (<["PPROF_DELAY" := Itoa delay]> ∅))))) ;;;
  ret None.

Definition loadtestKubeF (args : list string) (testLength pprofDelay : Z) : M error :=
  match args with
  | [] => ret (as_error (NewError "You need to specify a build tag. A branch or pr-0000." nil_error))
  | buildTag :: _ =>
      let* err := LoadtestKube buildTag testLength pprofDelay in
      match err with
      | Some e => ret (as_error (Some e))
      | None => WriteResponse ("Loadtesting: " +:+ buildTag) IN_CHANNEL ;;; ret nil_error
      end
  end.

(** The line feed of the ["\n"] in the messages. *)
Definition LF : string := String "010"%char EmptyString.

(** [if branch != "" { msg += fmt.Sprintf("* <label> Branch: **%v**\n", branch) }] *)
Definition branch_line (label branch : string) : string :=
  if String.eqb branch "" then ""
  else "* " +:+ label +:+ " Branch: **" +:+ branch +:+ "**" +:+ LF.

Definition lockTranslationServerCommandF (plt web mobile : string) : M error :=
  if String.eqb plt "" && String.eqb web "" && String.eqb mobile "" then
    WriteEnrichedResponse "Translation Server Update"
      "You need to set at least one branch to lock. Please check the help." "#ee2116" IN_CHANNEL ;;;
    ret nil_error
  else
    let* (result, err) := RunJobWaitForResult env fuel TranslationServerJob
        (<["PLT_BRANCH" := plt]> (<["WEB_BRANCH" := web]> (<["RN_BRANCH" := mobile]> ∅))) in
    if non_nil err || negb (String.eqb result STATUS_SUCCESS) then
      WriteEnrichedResponse "Translation Server Update"
        ("Translation Job Fail. Please Check the Jenkins Logs. Jenkins Status: " +:+ result)
        "#ee2116" IN_CHANNEL ;;;
      ret nil_error
    else
      let msg := "Translation Server is lock to those Branches:" +:+ LF
                   +:+ branch_line "Server" plt +:+ branch_line "Webapp" web
                   +:+ branch_line "Mobile" mobile in
      WriteEnrichedResponse "Translation Server Update" msg "#0060aa" IN_CHANNEL ;;;
      ret nil_error.

End OtherHandlers.

(** ** Vocabulary of the statements *)

Fixpoint all (p : ascii -> bool) (s : string) : bool :=
  match s with
  | EmptyString => true
  | String c s' => p c && all p s'
  end.

(** A component of a version: one decimal digit or more. *)
Definition number (s : string) : bool :=
  match s with
  | EmptyString => false
  | _ => all isDigit s
  end.

(** [MAJOR.MINOR.PATCH] and [MAJOR.MINOR.PATCH-rcN], with literal dots. *)
Definition final_version (major minor patch : string) : string :=
  major +:+ "." +:+ minor +:+ "." +:+ patch.
Definition rc_version (major minor patch n : string) : string :=
  final_version major minor patch +:+ "-rc" +:+ n.

Fixpoint has (c : ascii) (s : string) : bool :=
  match s with
  | EmptyString => false
  | String c' s' => Ascii.eqb c' c || has c s'
  end.

(** A poll of the reachability loop fails on an error or on a status other
    than 200. *)
Definition poll_failed (r : result Z) : bool :=
  match r with
  | Ok 200 => false
  | _ => true
  end.

(** The history after the first poll and [j] more rounds of the
    reachability loop: round [i] polls and then sleeps [i] seconds. *)
Fixpoint reach_trace (j : nat) (base : string) (w : World) : World :=
  match j with
  | O => EvPoll base :: w
  | S j' => EvSleep (Z.of_nat j) :: EvPoll base :: reach_trace j' base w
  end.

(** [m] rounds of the completion loop: an [IsRunning] test that says yes, a
    one-second sleep and a poll. *)
Fixpoint wait_rounds (m : nat) (base : string) (w : World) : World :=
  match m with
  | O => w
  | S m' => EvPoll base :: EvSleep 1 :: EvIsRunning base :: wait_rounds m' base w
  end.

(** The history of the completion wait when the build is seen running [m]
    times: the five-second grace period, a poll, and [m] rounds. *)
Definition wait_trace (m : nat) (base : string) (w : World) : World :=
  wait_rounds m base (EvPoll base :: EvSleep 5 :: w).

(** [m] always returns, and every event it adds satisfies [P]. *)
Definition emits {A} (P : Event -> Prop) (m : M A) : Prop :=
  forall w, exists a added, m w = Done a (added ++ w)%list /\ Forall P added.

(** Every event [m] adds satisfies [P], if [m] ends at all. *)
Definition only {A} (P : Event -> Prop) (m : M A) : Prop :=
  forall w,
    match m w with
    | Done _ w' | Panicked _ w' => exists added, w' = (added ++ w)%list /\ Forall P added
    | OutOfFuel => True
    end.

(** [m] ends, by returning or by panicking: it has no loop that could go
    on for ever. *)
Definition ends {A} (m : M A) : Prop := forall w, m w <> OutOfFuel.

(** Jenkins can be reached and the XML library writes out every
    document. *)
Definition jenkins_up (env : Env) : Prop :=
  (forall n, jenkins_Init env n = None)
  /\ (forall doc, exists out, etree_WriteToString env doc = Ok out).

(** The job [name] can be reconfigured: Jenkins finds it, returns for it a
    configuration that has a root element and an element at each of
    [paths], and accepts a new configuration. *)
Definition configurable (env : Env) (paths : list string) (name : string) : Prop :=
  (forall n, exists next, jenkins_GetJob env n name = Ok next)
  /\ (forall n, exists config doc,
        job_GetConfig env n name = Ok config
        /\ etree_ReadFromString env config = Ok (Some doc)
        /\ Forall (fun path => doc !! path <> None) paths)
  /\ (forall n config, job_UpdateConfig env n name config = None).

(** What [SetCIServerBranch branch] may send to Jenkins as a new
    configuration: the text of a document whose default-branch parameter is
    [branch] and whose upstream project is the enterprise job for
    [master], the platform job of the branch otherwise. *)
Definition ci_written (env : Env) (branch : string) (e : Event) : Prop :=
  match e with
  | EvUpdateConfig _ config =>
      exists doc : Document,
        etree_WriteToString env doc = Ok config
        /\ doc !! default_branch_path = Some branch
        /\ (branch = "master" -> doc !! upstream_projects_path = Some "mattermost-enterprise")
        /\ (branch <> "master" ->
            doc !! upstream_projects_path = Some ("mattermost-platform/" +:+ branch))
  | _ => True
  end.

Definition updated_job (e : Event) : option string :=
  match e with EvUpdateConfig name _ => Some name | _ => None end.

(** An event that is not the HTTP probe of the cut handler. *)
Definition no_probe (e : Event) : Prop := Kind.httpget e = false.

(** The four steps that follow a successful release job in the goroutine
    of [CutRelease]. *)
Definition post_release_stage (Cfg : Config) (env : Env) (t : ReleaseTask) : M unit :=
  (SetCIServerBranch Cfg env (task_releaseBranch t) ;;;
   RunJobParameters env "build-pushes/job/release-gitlab.mattermost.com"
     (<["MM_VERSION" := task_fullRelease t]> ∅) ;;;
   SetPreReleaseTarget Cfg env (task_fullRelease t) ;;;
   RunJob env (PreReleaseJob Cfg) ;;;
   ret tt)%go.

(** ** Scenarios the statements are run on *)

Module Scenario.

Definition cfg : Config :=
  mkConfig ["tok"] ["alice"; "bob"] ["alice"] "release" "prechecks" "prerelease" ["ci-a"; "ci-b"].

Definition job_xml : Document :=
  <[default_branch_path := "master"]> (<[upstream_projects_path := "mattermost-enterprise"]> ∅).

(** Jenkins works, builds are found at the first poll and have finished
    with SUCCESS, the release probe finds nothing.  A configuration is
    written as the upstream project, a comma and the default value. *)
Definition jenkins_ok : Env :=
  mkEnv (fun _ => None)
        (fun n _ => Ok (Z.of_nat n + 7))
        (fun _ _ => Ok "<project/>")
        (fun _ _ _ => None)
        (fun _ _ _ => None)
        (fun _ _ => Ok 200)
        (fun _ _ => false)
        (fun _ _ => "SUCCESS")
        (fun _ _ => Ok 404)
        (fun _ => Ok (Some job_xml))
        (fun doc => Ok (default "" (doc !! upstream_projects_path) +:+ ","
                          +:+ default "" (doc !! default_branch_path))).

Definition with_Poll (poll : nat -> string -> result Z) (e : Env) : Env :=
  mkEnv (jenkins_Init e) (jenkins_GetJob e) (job_GetConfig e) (job_UpdateConfig e)
        (job_InvokeSimple e) poll (build_IsRunning e) (build_GetResult e) (http_Get e)
        (etree_ReadFromString e) (etree_WriteToString e).

Definition with_IsRunning (running : nat -> string -> bool) (e : Env) : Env :=
  mkEnv (jenkins_Init e) (jenkins_GetJob e) (job_GetConfig e) (job_UpdateConfig e)
        (job_InvokeSimple e) (build_Poll e) running (build_GetResult e) (http_Get e)
        (etree_ReadFromString e) (etree_WriteToString e).

Definition with_InvokeSimple (invoke : nat -> string -> gmap string string -> option string)
    (e : Env) : Env :=
  mkEnv (jenkins_Init e) (jenkins_GetJob e) (job_GetConfig e) (job_UpdateConfig e)
        invoke (build_Poll e) (build_IsRunning e) (build_GetResult e) (http_Get e)
        (etree_ReadFromString e) (etree_WriteToString e).

Definition with_UpdateConfig (update : nat -> string -> string -> option string) (e : Env) : Env :=
  mkEnv (jenkins_Init e) (jenkins_GetJob e) (job_GetConfig e) update
        (job_InvokeSimple e) (build_Poll e) (build_IsRunning e) (build_GetResult e) (http_Get e)
        (etree_ReadFromString e) (etree_WriteToString e).

Definition with_GetResult (res : nat -> string -> string) (e : Env) : Env :=
  mkEnv (jenkins_Init e) (jenkins_GetJob e) (job_GetConfig e) (job_UpdateConfig e)
        (job_InvokeSimple e) (build_Poll e) (build_IsRunning e) res (http_Get e)
        (etree_ReadFromString e) (etree_WriteToString e).

Definition with_http_Get (get : nat -> string -> result Z) (e : Env) : Env :=
  mkEnv (jenkins_Init e) (jenkins_GetJob e) (job_GetConfig e) (job_UpdateConfig e)
        (job_InvokeSimple e) (build_Poll e) (build_IsRunning e) (build_GetResult e) get
        (etree_ReadFromString e) (etree_WriteToString e).

(** The build answers 404 to the first four polls. *)
Definition late_build : Env :=
  with_Poll (fun n _ => if (n <? 4)%nat then Ok 404 else Ok 200) jenkins_ok.

(** The build never answers. *)
Definition lost_build : Env :=
  with_Poll (fun _ _ => Err "connection refused") jenkins_ok.

(** The build is seen running three times. *)
Definition slow_build : Env :=
  with_IsRunning (fun n _ => (n <? 3)%nat) jenkins_ok.

(** Jenkins refuses to start or to reconfigure a job. *)
Definition refusing : Env :=
  with_InvokeSimple (fun _ _ _ => Some "403 Forbidden")
    (with_UpdateConfig (fun _ _ _ => Some "403 Forbidden") jenkins_ok).

(** The next minor version already has a release candidate. *)
Definition newer_release : Env := with_http_Get (fun _ _ => Ok 200) jenkins_ok.

(** The pre-checks build ends in FAILURE. *)
Definition failing_prechecks : Env := with_GetResult (fun _ _ => "FAILURE") jenkins_ok.

(** A user who may run commands but not cut releases asks for a cut. *)
Definition bob_cuts : MMSlashCommand :=
  mkMMSlashCommand "c1" "builds" "/matterbuild" "core" "t1" "cut 5.3.0-rc1 --backport"
    "tok" "bob" "bob".

Definition bob_runs_job : MMSlashCommand :=
  mkMMSlashCommand "c1" "builds" "/matterbuild" "core" "t1" "runjob nightly" "tok" "bob" "bob".

End Scenario.

(** ** Vocabulary of the further statements *)

Definition is_write (e : Event) : bool :=
  match e with EvWrite _ => true | _ => false end.

(** An event of the Jenkins client, or a sleep. *)
Definition jenkins_event (e : Event) : Prop :=
  match e with
  | EvInit | EvGetJob _ | EvGetConfig _ | EvUpdateConfig _ _ | EvInvoke _ _
  | EvPoll _ | EvIsRunning _ | EvGetResult _ | EvSleep _ => True
  | _ => False
  end.

(** An event that is not a write to the response. *)
Definition no_write (e : Event) : Prop := is_write e = false.

(** The seconds slept in a list of events. *)
Fixpoint slept (events : list Event) : Z :=
  match events with
  | [] => 0
  | EvSleep seconds :: rest => seconds + slept rest
  | _ :: rest => slept rest
  end.

(** An event of the waits of [RunJobWaitForResult] on the build at
    [base]: a sleep, or a question about that build. *)
Definition asks_build (base : string) (e : Event) : Prop :=
  match e with
  | EvPoll b | EvIsRunning b | EvGetResult b => b = base
  | EvSleep _ => True
  | _ => False
  end.

(** [m] writes no response and does not panic. *)
Definition quiet {A} (m : M A) : Prop :=
  forall w,
    match m w with
    | Done _ w' => calls is_write w' = calls is_write w
    | Panicked _ _ => False
    | OutOfFuel => True
    end.

(** A handler that answers once: when it ends it has written one response
    and returns nil, or has written none and returns an error. *)
Definition answers_once (handler : M error) : Prop :=
  forall w,
    match handler w with
    | Done err w' =>
        calls is_write w' = (calls is_write w + (if is_nil err then 1 else 0))%nat
    | Panicked _ _ => False
    | OutOfFuel => True
    end.

(** A handler that answers once unless it panics: as [answers_once], but
    it may panic, and has then written no response. *)
Definition answers_unless_panic (handler : M error) : Prop :=
  forall w,
    match handler w with
    | Done err w' =>
        calls is_write w' = (calls is_write w + (if is_nil err then 1 else 0))%nat
    | Panicked _ w' => calls is_write w' = calls is_write w
    | OutOfFuel => True
    end.

(** A text of ASCII characters only. *)
Definition ascii_text (s : string) : bool :=
  forallb (fun c => (nat_of_ascii c <? 128)%nat) (list_ascii_of_string s).

(** Words without flags, other than [--backport] and [--dryrun] after
    "cut": no word starts with a dash otherwise. *)
Definition plain_words (words : list string) : bool :=
  match words with
  | [] => true
  | name :: rest =>
      negb (starts_with_dash name)
      && forallb (fun word =>
                    negb (starts_with_dash word)
                    || (String.eqb name "cut"
                        && (String.eqb word "--backport" || String.eqb word "--dryrun")))
           rest
  end.

(** What [SetCIServerBranch branch] and [SetPreReleaseTarget] send for a
    job: the configuration Jenkins returned for that job, read, with the
    texts at [paths] replaced and every other element as it was. *)
Definition rewritten (env : Env) (paths : list string) (e : Event) : Prop :=
  match e with
  | EvUpdateConfig name config =>
      exists (n : nat) (config0 : string) (doc0 doc : Document),
        job_GetConfig env n name = Ok config0
        /\ etree_ReadFromString env config0 = Ok (Some doc0)
        /\ etree_WriteToString env doc = Ok config
        /\ forall path, ~ In path paths -> doc !! path = doc0 !! path
  | _ => True
  end.

(** What [SetPreReleaseTarget target] may send: a configuration for the
    pre-release job whose default value is [target]. *)
Definition prerelease_written (Cfg : Config) (env : Env) (target : string) (e : Event) : Prop :=
  match e with
  | EvUpdateConfig name config =>
      name = PreReleaseJob Cfg
      /\ exists doc : Document,
           etree_WriteToString env doc = Ok config
           /\ doc !! default_branch_path = Some target
  | _ => True
  end.

(** The five commands that the dispatch records without running. *)
Definition handled_elsewhere (name : string) : bool :=
  existsb (String.eqb name) ["cutstatus"; "lockpootle"; "getpootle"; "merge"; "loadtest"].

Module Scenario2.

(** Jenkins cannot be reached. *)
Definition no_jenkins : Env :=
  mkEnv (fun _ => Some "dial tcp: connection refused")
        (jenkins_GetJob Scenario.jenkins_ok) (job_GetConfig Scenario.jenkins_ok)
        (job_UpdateConfig Scenario.jenkins_ok) (job_InvokeSimple Scenario.jenkins_ok)
        (build_Poll Scenario.jenkins_ok) (build_IsRunning Scenario.jenkins_ok)
        (build_GetResult Scenario.jenkins_ok) (http_Get Scenario.jenkins_ok)
        (etree_ReadFromString Scenario.jenkins_ok) (etree_WriteToString Scenario.jenkins_ok).

(** Jenkins does not know the job. *)
Definition no_job : Env :=
  mkEnv (jenkins_Init Scenario.jenkins_ok) (fun _ _ => Err "404")
        (job_GetConfig Scenario.jenkins_ok)
        (job_UpdateConfig Scenario.jenkins_ok) (job_InvokeSimple Scenario.jenkins_ok)
        (build_Poll Scenario.jenkins_ok) (build_IsRunning Scenario.jenkins_ok)
        (build_GetResult Scenario.jenkins_ok) (http_Get Scenario.jenkins_ok)
        (etree_ReadFromString Scenario.jenkins_ok) (etree_WriteToString Scenario.jenkins_ok).

(** The build never stops running. *)
Definition endless_build : Env :=
  Scenario.with_IsRunning (fun _ _ => true) Scenario.jenkins_ok.

(** The job configurations have no parameter and no trigger. *)
Definition bare_configs : Env :=
  mkEnv (jenkins_Init Scenario.jenkins_ok) (jenkins_GetJob Scenario.jenkins_ok)
        (job_GetConfig Scenario.jenkins_ok)
        (job_UpdateConfig Scenario.jenkins_ok) (job_InvokeSimple Scenario.jenkins_ok)
        (build_Poll Scenario.jenkins_ok) (build_IsRunning Scenario.jenkins_ok)
        (build_GetResult Scenario.jenkins_ok) (http_Get Scenario.jenkins_ok)
        (fun _ => Ok (Some ∅)) (etree_WriteToString Scenario.jenkins_ok).

(** Jenkins returns configurations without a root element. *)
Definition rootless_configs : Env :=
  mkEnv (jenkins_Init Scenario.jenkins_ok) (jenkins_GetJob Scenario.jenkins_ok)
        (job_GetConfig Scenario.jenkins_ok)
        (job_UpdateConfig Scenario.jenkins_ok) (job_InvokeSimple Scenario.jenkins_ok)
        (build_Poll Scenario.jenkins_ok) (build_IsRunning Scenario.jenkins_ok)
        (build_GetResult Scenario.jenkins_ok) (http_Get Scenario.jenkins_ok)
        (fun _ => Ok None) (etree_WriteToString Scenario.jenkins_ok).

(** Alice, a release user, with a text to be chosen. *)
Definition alice_says (text : string) : MMSlashCommand :=
  mkMMSlashCommand "c1" "builds" "/matterbuild" "core" "t1" text "tok" "alice" "alice".

End Scenario2.

(** ** Strings *)

Section StringFacts.

Lemma append_nil_r (s : string) : s +:+ "" = s.
Proof. induction s as [|c s IH]; simpl; [reflexivity | now rewrite IH]. Qed.

Lemma append_assoc (a b c : string) : (a +:+ b) +:+ c = a +:+ (b +:+ c).
Proof. induction a as [|x a IH]; simpl; [reflexivity | now rewrite IH]. Qed.

Lemma append_eq_nil (a b : string) : a +:+ b = "" -> a = "" /\ b = "".
Proof. destruct a; simpl; [auto | discriminate]. Qed.

Lemma append_eq_cons (a b : string) (c : ascii) (s : string) :
  a +:+ b = String c s ->
  (a = "" /\ b = String c s) \/ (exists a', a = String c a' /\ s = a' +:+ b).
Proof.
  destruct a as [|x a]; simpl; intros H.
  - left; auto.
  - right. injection H as -> <-. eauto.
Qed.

Lemma has_append (c : ascii) (a b : string) : has c (a +:+ b) = has c a || has c b.
Proof.
  induction a as [|x a IH]; simpl; [reflexivity|].
  rewrite IH. now rewrite orb_assoc.
Qed.

Lemma all_append (p : ascii -> bool) (a b : string) : all p (a +:+ b) = all p a && all p b.
Proof.
  induction a as [|x a IH]; simpl; [reflexivity|].
  rewrite IH. now rewrite andb_assoc.
Qed.

(** A string of characters that satisfy [p] has no character that does not. *)
Lemma all_has (p : ascii -> bool) (c : ascii) (s : string) :
  p c = false -> all p s = true -> has c s = false.
Proof.
  intros Hc. induction s as [|x s IH]; simpl; [reflexivity|].
  intros [Hx Hs]%andb_true_iff. rewrite (IH Hs), orb_false_r.
  destruct (Ascii.eqb_spec x c) as [->|]; [congruence | reflexivity].
Qed.

Lemma number_all (s : string) : number s = true -> all isDigit s = true.
Proof. destruct s; [discriminate | auto]. Qed.

Lemma number_has (c : ascii) (s : string) :
  isDigit c = false -> number s = true -> has c s = false.
Proof. intros Hc Hs. apply (all_has isDigit); auto using number_all. Qed.

Lemma Split_without (sep : ascii) (s : string) : has sep s = false -> Split s sep = [s].
Proof.
  induction s as [|c s IH]; simpl; [reflexivity|].
  intros [Hc Hs]%orb_false_iff. rewrite Hc, (IH Hs). reflexivity.
Qed.

Lemma Split_append (sep : ascii) (a b : string) :
  has sep a = false -> Split (a +:+ String sep b) sep = a :: Split b sep.
Proof.
  induction a as [|c a IH]; simpl.
  - intros _. now rewrite Ascii.eqb_refl.
  - intros [Hc Ha]%orb_false_iff. rewrite Hc, (IH Ha). reflexivity.
Qed.

End StringFacts.

(** ** Matching by derivatives is membership of the language *)

Section RegexpFacts.

Lemma nullable_lang (r : regex) : nullable r = true <-> lang r "".
Proof.
  split.
  - induction r; simpl; intros H; try discriminate.
    + constructor.
    + apply andb_true_iff in H as [H1 H2].
      change "" with ("" +:+ ""). constructor; auto.
    + apply orb_true_iff in H as [H|H]; [apply lang_alt_l | apply lang_alt_r]; auto.
    + constructor.
  - intros H. remember "" as s eqn:Es. induction H; simpl; try reflexivity; try discriminate.
    + apply append_eq_nil in Es as [-> ->]. rewrite IHlang1, IHlang2; auto.
    + rewrite IHlang; auto.
    + rewrite IHlang; auto using orb_true_r.
Qed.

Lemma deriv_sound (c : ascii) (r : regex) (s : string) :
  lang (deriv c r) s -> lang r (String c s).
Proof.
  revert s. induction r; simpl; intros s H.
  - inversion H.
  - inversion H.
  - destruct (p c) eqn:Hp; inversion H; subst. now constructor.
  - destruct (nullable r1) eqn:Hn.
    + inversion H as [| | | ? ? ? H' | ? ? ? H' | |]; subst.
      * inversion H' as [| |? ? s1 s2 H1 H2| | | |]; subst.
        change (String c (s1 +:+ s2)) with (String c s1 +:+ s2). constructor; auto.
      * change (String c s) with ("" +:+ String c s).
        constructor; [now apply nullable_lang | auto].
    + inversion H as [| |? ? s1 s2 H1 H2| | | |]; subst.
      change (String c (s1 +:+ s2)) with (String c s1 +:+ s2). constructor; auto.
  - inversion H; subst; [apply lang_alt_l | apply lang_alt_r]; auto.
  - inversion H as [| |? ? s1 s2 H1 H2| | | |]; subst.
    change (String c (s1 +:+ s2)) with (String c s1 +:+ s2). constructor; auto.
Qed.

Lemma deriv_complete (c : ascii) (r : regex) (s : string) :
  lang r (String c s) -> lang (deriv c r) s.
Proof.
  intros H. remember (String c s) as t eqn:Et. revert s Et.
  induction H as [| p x Hp | r1 r2 s1 s2 H1 IH1 H2 IH2 | r1 r2 t H1 IH1
                 | r1 r2 t H2 IH2 | r | r s1 s2 H1 IH1 H2 IH2];
    intros s Et; simpl.
  - discriminate.
  - injection Et as -> <-. rewrite Hp. constructor.
  - apply append_eq_cons in Et as [[-> ->] | (a' & -> & ->)].
    + apply nullable_lang in H1. rewrite H1. apply lang_alt_r. auto.
    + destruct (nullable r1); [apply lang_alt_l|]; constructor; auto.
  - apply lang_alt_l; auto.
  - apply lang_alt_r; auto.
  - discriminate.
  - apply append_eq_cons in Et as [[-> ->] | (a' & -> & ->)].
    + apply IH2; reflexivity.
    + constructor; auto.
Qed.

Lemma MatchString_lang (r : regex) (s : string) : MatchString r s = true <-> lang r s.
Proof.
  revert r. induction s as [|c s IH]; intros r; simpl.
  - apply nullable_lang.
  - rewrite IH. split; [apply deriv_sound | apply deriv_complete].
Qed.

Lemma lang_chr_inv (p : ascii -> bool) (s : string) :
  lang (Chr p) s -> exists c, s = String c "" /\ p c = true.
Proof. inversion 1; subst; eauto. Qed.

Lemma lang_cat_inv (r1 r2 : regex) (s : string) :
  lang (Cat r1 r2) s -> exists s1 s2, s = s1 +:+ s2 /\ lang r1 s1 /\ lang r2 s2.
Proof. inversion 1; subst; eauto. Qed.

Lemma lang_star_all (p : ascii -> bool) (s : string) :
  all p s = true -> lang (Star (Chr p)) s.
Proof.
  induction s as [|c s IH]; simpl; [constructor|].
  intros [Hc Hs]%andb_true_iff.
  change (String c s) with (String c "" +:+ s).
  constructor; [now constructor | auto].
Qed.

Lemma lang_number (s : string) : number s = true -> lang (Plus digit) s.
Proof.
  destruct s as [|c s]; [discriminate|]. simpl.
  intros [Hc Hs]%andb_true_iff.
  change (String c s) with (String c "" +:+ s).
  constructor; [now constructor | now apply lang_star_all].
Qed.

Lemma lang_anychar_dot : lang anychar ".".
Proof. now constructor. Qed.

Lemma lang_lit (c : ascii) : lang (lit c) (String c "").
Proof. constructor. apply Ascii.eqb_refl. Qed.

(** Whatever [rcRxp] matches holds a dash. *)
Lemma rcRxp_has_dash (s : string) : lang rcRxp s -> has "-" s = true.
Proof.
  unfold rcRxp. intros H.
  repeat match goal with
         | H : lang (Cat _ _) _ |- _ =>
             apply lang_cat_inv in H as (? & ? & -> & ? & ?)
         end.
  match goal with
  | H : lang (lit "-") _ |- _ => apply lang_chr_inv in H as (c & -> & Hc)
  end.
  apply Ascii.eqb_eq in Hc as <-.
  rewrite !has_append. simpl. rewrite !orb_true_r. reflexivity.
Qed.

End RegexpFacts.

(** ** Parsing the version argument *)

Section ParseVersion.

Variables major minor patch : string.
Hypothesis Hmajor : number major = true.
Hypothesis Hminor : number minor = true.
Hypothesis Hpatch : number patch = true.

Lemma final_version_has (c : ascii) :
  isDigit c = false -> c <> "."%char -> has c (final_version major minor patch) = false.
Proof using Hmajor Hminor Hpatch.
  intros Hc Hdot. unfold final_version.
  assert (Hd : forall s, has c ("." +:+ s) = has c s).
  { intros s. change (has c ("." +:+ s)) with (Ascii.eqb "." c || has c s).
    destruct (Ascii.eqb_spec "."%char c) as [E|_]; [congruence | reflexivity]. }
  rewrite has_append, Hd, has_append, Hd.
  rewrite !(number_has c) by assumption. reflexivity.
Qed.

Lemma final_version_matches : MatchString finalVersionRxp (final_version major minor patch) = true.
Proof using Hmajor Hminor Hpatch.
  apply MatchString_lang. unfold finalVersionRxp, final_version.
  repeat first [ apply lang_cat | apply lang_number | apply lang_anychar_dot ]; assumption.
Qed.

Lemma final_version_not_rc : MatchString rcRxp (final_version major minor patch) = false.
Proof using Hmajor Hminor Hpatch.
  destruct (MatchString rcRxp _) eqn:E; [|reflexivity].
  apply MatchString_lang, rcRxp_has_dash in E.
  rewrite final_version_has in E by (reflexivity || discriminate). discriminate.
Qed.

Lemma rc_version_matches (n : string) :
  number n = true -> MatchString rcRxp (rc_version major minor patch n) = true.
Proof using Hmajor Hminor Hpatch.
  intros Hn. apply MatchString_lang. unfold rcRxp, rc_version, final_version.
  rewrite !append_assoc.
  change ("-rc" +:+ n) with ("-" +:+ "r" +:+ "c" +:+ n).
  repeat first [ apply lang_cat | apply lang_number | apply lang_anychar_dot | apply lang_lit ];
    assumption.
Qed.

Lemma rc_version_Split (n : string) :
  number n = true ->
  Split (rc_version major minor patch n) "-" = [final_version major minor patch; "rc" +:+ n].
Proof using Hmajor Hminor Hpatch.
  intros Hn. unfold rc_version.
  change ("-rc" +:+ n) with (String "-" ("rc" +:+ n)).
  rewrite Split_append by (apply final_version_has; [reflexivity | discriminate]).
  rewrite Split_without; [reflexivity|].
  simpl. apply number_has; [reflexivity | assumption].
Qed.

Lemma final_version_Split :
  Split (final_version major minor patch) "." = [major; minor; patch].
Proof using Hmajor Hminor Hpatch.
  unfold final_version.
  change ("." +:+ minor +:+ "." +:+ patch) with (String "." (minor +:+ "." +:+ patch)).
  rewrite Split_append by (apply number_has; [reflexivity | assumption]).
  change ("." +:+ patch) with (String "." patch).
  rewrite Split_append by (apply number_has; [reflexivity | assumption]).
  rewrite Split_without by (apply number_has; [reflexivity | assumption]).
  reflexivity.
Qed.

Lemma parseVersion_final :
  parseVersion (final_version major minor patch) =
  Version (final_version major minor patch) "" false.
Proof using Hmajor Hminor Hpatch.
  unfold parseVersion. now rewrite final_version_not_rc, final_version_matches.
Qed.

Lemma parseVersion_rc (n : string) :
  number n = true ->
  parseVersion (rc_version major minor patch n) =
  Version (final_version major minor patch) ("rc" +:+ n)
    (String.eqb ("rc" +:+ n) "rc1" && HasSuffix (final_version major minor patch) ".0").
Proof using Hmajor Hminor Hpatch.
  intros Hn. unfold parseVersion.
  now rewrite rc_version_matches, rc_version_Split.
Qed.

End ParseVersion.

(** [strings.HasSuffix] holds exactly of the strings that end in the suffix. *)
Section HasSuffixFacts.

Lemma length_append (a b : string) :
  String.length (a +:+ b) = (String.length a + String.length b)%nat.
Proof. induction a as [|c a IH]; simpl; [reflexivity | now rewrite IH]. Qed.

Lemma substring_skip (p t : string) (m : nat) :
  substring (String.length p) m (p +:+ t) = substring 0 m t.
Proof. induction p as [|c p IH]; simpl; [reflexivity | exact IH]. Qed.

Lemma substring_whole (t : string) : substring 0 (String.length t) t = t.
Proof. induction t as [|c t IH]; simpl; [reflexivity | now rewrite IH]. Qed.

Lemma substring_cut (s : string) (k : nat) :
  (k <= String.length s)%nat ->
  s = substring 0 k s +:+ substring k (String.length s - k) s.
Proof.
  revert k. induction s as [|c s IH]; intros k Hk; simpl in *.
  - destruct k; [reflexivity | lia].
  - destruct k as [|k]; simpl.
    + now rewrite substring_whole.
    + f_equal. apply IH. lia.
Qed.

Lemma HasSuffix_iff (s suffix : string) :
  HasSuffix s suffix = true <-> exists p, s = p +:+ suffix.
Proof.
  unfold HasSuffix. split.
  - intros [Hle Heq]%andb_true_iff.
    apply Nat.leb_le in Hle. apply String.eqb_eq in Heq.
    exists (substring 0 (String.length s - String.length suffix) s).
    pose proof (substring_cut s (String.length s - String.length suffix)) as Hcut.
    replace (String.length s - (String.length s - String.length suffix))%nat
      with (String.length suffix) in Hcut by lia.
    rewrite Heq in Hcut. apply Hcut. lia.
  - intros [p ->]. rewrite length_append.
    apply andb_true_iff. split; [apply Nat.leb_le; lia|].
    replace (String.length p + String.length suffix - String.length suffix)%nat
      with (String.length p) by lia.
    rewrite substring_skip, substring_whole. apply String.eqb_refl.
Qed.

End HasSuffixFacts.

(** ** The poller *)

Ltac run := unfold bind, call, emit, ret, Sleep; simpl.

#[local] Arguments build_base : simpl never.

Section Poller.

Variable Cfg : Config.
Variable env : Env.

Lemma getJob_found (name : string) (next : Z) (w : World) :
  jenkins_Init env (calls Kind.init w) = None ->
  jenkins_GetJob env (calls Kind.getjob w) name = Ok next ->
  getJob env name w = Done (inl (mkJob name next)) (EvGetJob name :: EvInit :: w).
Proof.
  intros Hinit Hjob. unfold getJob, getJenkins. run.
  rewrite Hinit. simpl. now rewrite Hjob.
Qed.

(** One round of the reachability loop after a failed poll. *)
Lemma reach_loop_round (n : nat) (base : string) (next tries status : Z) (err3 : error)
    (w : World) :
  negb (is_nil err3) || negb (status =? 200) = true ->
  1 <= tries < 5 ->
  reach_loop env (S n) base next tries status err3 w =
  reach_loop env n base next (tries + 1)
    (fst (poll_reply env (calls Kind.poll w) base))
    (snd (poll_reply env (calls Kind.poll w) base))
    (EvSleep tries :: EvPoll base :: w).
Proof.
  intros Hfail Htries. simpl. rewrite Hfail. unfold Build_Poll. run.
  fold (poll_reply env (calls Kind.poll w) base).
  destruct (poll_reply env (calls Kind.poll w) base) as [status' err3'] eqn:E. simpl.
  replace (5 <=? tries) with false by (symmetry; apply Z.leb_gt; lia).
  replace (wrap64 (tries + 1)) with (tries + 1); [reflexivity|].
  unfold wrap64. rewrite Z.mod_small; lia.
Qed.

Lemma reach_loop_give_up (n : nat) (base : string) (next status : Z) (err3 : error)
    (w : World) :
  negb (is_nil err3) || negb (status =? 200) = true ->
  reach_loop env (S n) base next 5 status err3 w =
  Done (NewError ("Unable to get build for pre-checks job: " +:+ Itoa next)
          (snd (poll_reply env (calls Kind.poll w) base)))
       (EvPoll base :: w).
Proof.
  intros Hfail. simpl. rewrite Hfail. unfold Build_Poll. run.
  fold (poll_reply env (calls Kind.poll w) base).
  now destruct (poll_reply env (calls Kind.poll w) base).
Qed.

Lemma reach_loop_exit (n : nat) (base : string) (next tries status : Z) (err3 : error)
    (w : World) :
  negb (is_nil err3) || negb (status =? 200) = false ->
  reach_loop env n base next tries status err3 w = Done None w.
Proof. intros Hok. destruct n; simpl; now rewrite Hok. Qed.

Lemma poll_reply_failed (n : nat) (base : string) :
  negb (is_nil (snd (poll_reply env n base))) || negb (fst (poll_reply env n base) =? 200)
  = poll_failed (build_Poll env n base).
Proof.
  unfold poll_reply, poll_failed.
  destruct (build_Poll env n base) as [status|msg]; simpl; [|reflexivity].
  destruct (Z.eqb_spec status 200) as [->|Hne]; [reflexivity|].
  destruct status as [|p|p]; try reflexivity.
  repeat (destruct p as [p|p|]; try reflexivity). congruence.
Qed.

Lemma calls_reach_trace (j : nat) (base : string) (w : World) :
  calls Kind.poll (reach_trace j base w) = (calls Kind.poll w + S j)%nat.
Proof. induction j as [|j IH]; simpl in *; [lia | rewrite IH; lia]. Qed.

(** After [i] rounds, [d] more failed polls and then a good one leave the
    loop by its condition. *)
Lemma reach_loop_reaches (base : string) (next : Z) (w0 : World) (d : nat) :
  forall (i n : nat),
    (i + d <= 4)%nat -> (d <= n)%nat ->
    (forall x, (i <= x < i + d)%nat ->
       poll_failed (build_Poll env (calls Kind.poll w0 + x) base) = true) ->
    build_Poll env (calls Kind.poll w0 + (i + d)) base = Ok 200 ->
    reach_loop env n base next (Z.of_nat i + 1)
      (fst (poll_reply env (calls Kind.poll w0 + i) base))
      (snd (poll_reply env (calls Kind.poll w0 + i) base))
      (reach_trace i base w0)
    = Done None (reach_trace (i + d) base w0).
Proof.
  induction d as [|d IH]; intros i n Hle Hn Hfail Hok.
  - rewrite Nat.add_0_r in *. apply reach_loop_exit.
    rewrite poll_reply_failed, Hok. reflexivity.
  - destruct n as [|n]; [lia|].
    rewrite reach_loop_round.
    + rewrite calls_reach_trace.
      replace (calls Kind.poll w0 + S i)%nat with (calls Kind.poll w0 + S i)%nat by lia.
      replace (Z.of_nat i + 1 + 1) with (Z.of_nat (S i) + 1) by lia.
      replace (Z.of_nat i + 1) with (Z.of_nat (S i)) by lia.
      change (EvSleep (Z.of_nat (S i)) :: EvPoll base :: reach_trace i base w0)
        with (reach_trace (S i) base w0).
      replace (i + S d)%nat with (S i + d)%nat by lia.
      apply IH; try lia.
      * intros x Hx. apply Hfail. lia.
      * replace (S i + d)%nat with (i + S d)%nat by lia. exact Hok.
    + rewrite poll_reply_failed. apply Hfail. lia.
    + lia.
Qed.

Lemma wait_rounds_shift (m : nat) (base : string) (w : World) :
  wait_rounds m base (EvPoll base :: EvSleep 1 :: EvIsRunning base :: w) =
  wait_rounds (S m) base w.
Proof. induction m as [|m IH]; simpl in *; [reflexivity | now rewrite IH]. Qed.

(** The completion loop on a build that is seen running [m] times. *)
Lemma wait_loop_rounds (base : string) (m : nat) :
  forall (n : nat) (w : World),
    (m < n)%nat ->
    (forall j, (j < m)%nat -> build_IsRunning env (calls Kind.isrunning w + j) base = true) ->
    build_IsRunning env (calls Kind.isrunning w + m) base = false ->
    wait_loop env n base w = Done tt (EvIsRunning base :: wait_rounds m base w).
Proof.
  induction m as [|m IH]; intros n w Hn Hrun Hstop.
  - destruct n as [|n]; [lia|]. simpl. run.
    rewrite Nat.add_0_r in Hstop. now rewrite Hstop.
  - destruct n as [|n]; [lia|]. simpl. run.
    rewrite <- (Nat.add_0_r (calls Kind.isrunning w)), Hrun by lia.
    unfold Build_Poll. run.
    rewrite IH; [now rewrite wait_rounds_shift | lia | |]; simpl.
    + intros j Hj. rewrite <- Hrun with (j := S j) by lia. f_equal. lia.
    + rewrite <- Hstop. f_equal. lia.
Qed.

Lemma calls_isrunning_reach_trace (j : nat) (base : string) (w : World) :
  calls Kind.isrunning (reach_trace j base w) = calls Kind.isrunning w.
Proof. induction j as [|j IH]; simpl in *; [reflexivity | exact IH]. Qed.

Lemma calls_getresult_reach_trace (j : nat) (base : string) (w : World) :
  calls Kind.getresult (reach_trace j base w) = calls Kind.getresult w.
Proof. induction j as [|j IH]; simpl in *; [reflexivity | exact IH]. Qed.

Lemma calls_getresult_wait_rounds (m : nat) (base : string) (w : World) :
  calls Kind.getresult (wait_rounds m base w) = calls Kind.getresult w.
Proof. induction m as [|m IH]; simpl in *; [reflexivity | exact IH]. Qed.

Lemma calls_poll_wait_rounds (m : nat) (base : string) (w : World) :
  calls Kind.poll (wait_rounds m base w) = (calls Kind.poll w + m)%nat.
Proof. induction m as [|m IH]; simpl in *; [lia | rewrite IH; lia]. Qed.

(** The completion wait returns the result the build reports when it stops. *)
Lemma wait_for_result_stops (fuel : nat) (base : string) (m : nat) (w : World) :
  (m < fuel)%nat ->
  (forall j, (j < m)%nat -> build_IsRunning env (calls Kind.isrunning w + j) base = true) ->
  build_IsRunning env (calls Kind.isrunning w + m) base = false ->
  wait_for_result env fuel base w =
  Done (build_GetResult env (calls Kind.getresult w) base, None)
       (EvGetResult base :: EvIsRunning base :: wait_trace m base w).
Proof.
  intros Hm Hrun Hstop. unfold wait_for_result, Build_Poll. run.
  rewrite (wait_loop_rounds base m) by (simpl; auto). simpl.
  now rewrite calls_getresult_wait_rounds.
Qed.

(** [RunJobWaitForResult] up to the end of the reachability loop. *)
Lemma RunJobWaitForResult_reaches (fuel : nat) (name : string)
    (parameters : gmap string string) (next : Z) (w : World) (j : nat) :
  jenkins_Init env (calls Kind.init w) = None ->
  jenkins_GetJob env (calls Kind.getjob w) name = Ok next ->
  job_InvokeSimple env (calls Kind.invoke w) name parameters = None ->
  (j <= 4)%nat -> (j <= fuel)%nat ->
  (forall i, (i < j)%nat ->
     poll_failed (build_Poll env (calls Kind.poll w + i) (build_base name next)) = true) ->
  build_Poll env (calls Kind.poll w + j) (build_base name next) = Ok 200 ->
  RunJobWaitForResult env fuel name parameters w =
  wait_for_result env fuel (build_base name next)
    (reach_trace j (build_base name next)
       (EvInvoke name parameters :: EvGetJob name :: EvInit :: w)).
Proof.
  intros Hinit Hjob Hinv Hj Hfuel Hfail Hok.
  unfold RunJobWaitForResult. unfold bind at 1.
  rewrite (getJob_found name next w Hinit Hjob). simpl.
  unfold bind at 1. unfold call at 1. simpl. rewrite Hinv.
  set (base := build_base name next) in *.
  set (w0 := EvInvoke name parameters :: EvGetJob name :: EvInit :: w).
  unfold bind at 1. unfold Build_Poll at 1, call at 1.
  fold (poll_reply env (calls Kind.poll w0) base).
  pose proof (reach_loop_reaches base next w0 j 0 fuel) as Hreach.
  simpl in Hreach.
  change (calls Kind.poll w0) with (calls Kind.poll w) in *.
  rewrite Nat.add_0_r in Hreach.
  destruct (poll_reply env (calls Kind.poll w) base) as [status err3] eqn:E.
  simpl in Hreach. change (Z.of_nat 0 + 1) with 1 in Hreach. unfold bind at 1.
  rewrite Hreach; auto. intros x Hx. apply Hfail. lia.
Qed.

End Poller.

Section GiveUp.

Variable env : Env.

(** After [i] rounds, failed polls up to the fifth make the loop give up:
    the sixth poll is made and its answer is not looked at. *)
Lemma reach_loop_gives_up (base : string) (next : Z) (w0 : World) (d : nat) :
  forall (i n : nat),
    (i + d = 4)%nat -> (d < n)%nat ->
    (forall x, (i <= x <= 4)%nat ->
       poll_failed (build_Poll env (calls Kind.poll w0 + x) base) = true) ->
    reach_loop env n base next (Z.of_nat i + 1)
      (fst (poll_reply env (calls Kind.poll w0 + i) base))
      (snd (poll_reply env (calls Kind.poll w0 + i) base))
      (reach_trace i base w0)
    = Done (NewError ("Unable to get build for pre-checks job: " +:+ Itoa next)
              (snd (poll_reply env (calls Kind.poll w0 + 5) base)))
           (EvPoll base :: reach_trace 4 base w0).
Proof.
  induction d as [|d IH]; intros i n Hle Hn Hfail.
  - destruct n as [|n]; [lia|].
    assert (i = 4%nat) as -> by lia. change (Z.of_nat 4 + 1) with 5.
    rewrite reach_loop_give_up.
    + rewrite calls_reach_trace. reflexivity.
    + rewrite poll_reply_failed. apply Hfail. lia.
  - destruct n as [|n]; [lia|].
    rewrite reach_loop_round.
    + rewrite calls_reach_trace.
      replace (Z.of_nat i + 1 + 1) with (Z.of_nat (S i) + 1) by lia.
      replace (Z.of_nat i + 1) with (Z.of_nat (S i)) by lia.
      change (EvSleep (Z.of_nat (S i)) :: EvPoll base :: reach_trace i base w0)
        with (reach_trace (S i) base w0).
      apply IH; try lia. intros x Hx. apply Hfail. lia.
    + rewrite poll_reply_failed. apply Hfail. lia.
    + lia.
Qed.

Lemma RunJobWaitForResult_gives_up (fuel : nat) (name : string)
    (parameters : gmap string string) (next : Z) (w : World) :
  jenkins_Init env (calls Kind.init w) = None ->
  jenkins_GetJob env (calls Kind.getjob w) name = Ok next ->
  job_InvokeSimple env (calls Kind.invoke w) name parameters = None ->
  (5 <= fuel)%nat ->
  (forall i, (i < 5)%nat ->
     poll_failed (build_Poll env (calls Kind.poll w + i) (build_base name next)) = true) ->
  RunJobWaitForResult env fuel name parameters w =
  Done ("", NewError ("Unable to get build for pre-checks job: " +:+ Itoa next)
              (snd (poll_reply env (calls Kind.poll w + 5) (build_base name next))))
       (EvPoll (build_base name next)
          :: reach_trace 4 (build_base name next)
               (EvInvoke name parameters :: EvGetJob name :: EvInit :: w)).
Proof.
  intros Hinit Hjob Hinv Hfuel Hfail.
  unfold RunJobWaitForResult. unfold bind at 1.
  rewrite (getJob_found env name next w Hinit Hjob). simpl.
  unfold bind at 1. unfold call at 1. simpl. rewrite Hinv.
  set (base := build_base name next) in *.
  set (w0 := EvInvoke name parameters :: EvGetJob name :: EvInit :: w).
  unfold bind at 1. unfold Build_Poll at 1, call at 1.
  fold (poll_reply env (calls Kind.poll w0) base).
  pose proof (reach_loop_gives_up base next w0 4 0 fuel) as Hreach.
  simpl in Hreach.
  change (calls Kind.poll w0) with (calls Kind.poll w) in *.
  rewrite Nat.add_0_r in Hreach.
  destruct (poll_reply env (calls Kind.poll w) base) as [status err3] eqn:E.
  simpl in Hreach. change (Z.of_nat 0 + 1) with 1 in Hreach. unfold bind at 1.
  rewrite Hreach; auto; try lia. intros x Hx. apply Hfail. lia.
Qed.

End GiveUp.

(** C1. In [RunJobWaitForResult], once the job is found and invoked: when
    the first four polls of the build fail (an error or a status other than
    200) and the fifth answers 200, the function goes on to the completion
    wait, having slept 1, 2, 3 and 4 seconds after the four retries, and
    returns the build's result without error as soon as the build stops
    running; when the first five polls fail it returns the "Unable to get
    build" error after five retries (six polls), having slept 1, 2, 3 and 4
    seconds between the retries. *)
Theorem RunJobWaitForResult_reachability (env : Env) (fuel : nat) (name : string)
    (parameters : gmap string string) (next : Z) (w : World) :
  jenkins_Init env (calls Kind.init w) = None ->
  jenkins_GetJob env (calls Kind.getjob w) name = Ok next ->
  job_InvokeSimple env (calls Kind.invoke w) name parameters = None ->
  (5 <= fuel)%nat ->
  let base := build_base name next in
  let k := calls Kind.poll w in
  let w0 := EvInvoke name parameters :: EvGetJob name :: EvInit :: w in
  let retried :=
    EvSleep 4 :: EvPoll base :: EvSleep 3 :: EvPoll base :: EvSleep 2 :: EvPoll base
      :: EvSleep 1 :: EvPoll base :: EvPoll base :: w0 in
  ((forall i, (i < 4)%nat -> poll_failed (build_Poll env (k + i) base) = true) ->
   build_Poll env (k + 4) base = Ok 200 ->
   RunJobWaitForResult env fuel name parameters w = wait_for_result env fuel base retried
   /\ forall m,
        (m < fuel)%nat ->
        (forall j, (j < m)%nat -> build_IsRunning env (calls Kind.isrunning w + j) base = true) ->
        build_IsRunning env (calls Kind.isrunning w + m) base = false ->
        RunJobWaitForResult env fuel name parameters w =
        Done (build_GetResult env (calls Kind.getresult w) base, None)
             (EvGetResult base :: EvIsRunning base :: wait_trace m base retried))
  /\ ((forall i, (i < 5)%nat -> poll_failed (build_Poll env (k + i) base) = true) ->
   RunJobWaitForResult env fuel name parameters w =
   Done ("", NewError ("Unable to get build for pre-checks job: " +:+ Itoa next)
               (snd (poll_reply env (k + 5) base)))
        (EvPoll base :: retried)).
Proof.
  intros Hinit Hjob Hinv Hfuel base k w0 retried. split.
  - intros Hfail Hok.
    assert (Hreach : RunJobWaitForResult env fuel name parameters w =
                     wait_for_result env fuel base retried).
    { apply (RunJobWaitForResult_reaches env fuel name parameters next w 4); auto; lia. }
    split; [exact Hreach|].
    intros m Hm Hrun Hstop. rewrite Hreach.
    exact (wait_for_result_stops env fuel base m retried Hm Hrun Hstop).
  - intros Hfail.
    apply (RunJobWaitForResult_gives_up env fuel name parameters next w); auto.
Qed.

Lemma RunJobWaitForResult_reachability_witness :
  RunJobWaitForResult Scenario.late_build 5 "prechecks" ∅ [] =
    Done ("SUCCESS", None)
      [EvGetResult "/job/prechecks/7"; EvIsRunning "/job/prechecks/7";
       EvPoll "/job/prechecks/7"; EvSleep 5;
       EvSleep 4; EvPoll "/job/prechecks/7"; EvSleep 3; EvPoll "/job/prechecks/7";
       EvSleep 2; EvPoll "/job/prechecks/7"; EvSleep 1; EvPoll "/job/prechecks/7";
       EvPoll "/job/prechecks/7"; EvInvoke "prechecks" ∅; EvGetJob "prechecks"; EvInit]
  /\ RunJobWaitForResult Scenario.lost_build 5 "prechecks" ∅ [] =
    Done ("", NewError "Unable to get build for pre-checks job: 7" (lib_error "connection refused"))
      [EvPoll "/job/prechecks/7";
       EvSleep 4; EvPoll "/job/prechecks/7"; EvSleep 3; EvPoll "/job/prechecks/7";
       EvSleep 2; EvPoll "/job/prechecks/7"; EvSleep 1; EvPoll "/job/prechecks/7";
       EvPoll "/job/prechecks/7"; EvInvoke "prechecks" ∅; EvGetJob "prechecks"; EvInit].
Proof.
  split.
  - refine (proj2 (proj1 (RunJobWaitForResult_reachability Scenario.late_build 5 "prechecks" ∅ 7 []
                     eq_refl eq_refl eq_refl _) _ eq_refl) 0%nat _ _ eq_refl).
    + lia.
    + intros i Hi. do 4 (destruct i as [|i]; [reflexivity|]). lia.
    + lia.
    + intros j Hj. lia.
  - refine (proj2 (RunJobWaitForResult_reachability Scenario.lost_build 5 "prechecks" ∅ 7 []
                     eq_refl eq_refl eq_refl _) _).
    + lia.
    + intros i Hi. reflexivity.
Defined.

(** C5. Once the build is reachable (after [j] failed polls, [j <= 4]),
    [RunJobWaitForResult] sleeps five seconds, polls, and then, as long as
    the build is reported running, sleeps one second and polls again; when
    the build is reported running [m] times and then not, it returns the
    result the build reports, with no error, after [1 + m] completion polls.
    The witness is a build reported running three times that ends with
    SUCCESS. *)
Theorem RunJobWaitForResult_completion (env : Env) (fuel : nat) (name : string)
    (parameters : gmap string string) (next : Z) (w : World) (j m : nat) :
  jenkins_Init env (calls Kind.init w) = None ->
  jenkins_GetJob env (calls Kind.getjob w) name = Ok next ->
  job_InvokeSimple env (calls Kind.invoke w) name parameters = None ->
  let base := build_base name next in
  (j <= 4)%nat -> (j <= fuel)%nat ->
  (forall i, (i < j)%nat -> poll_failed (build_Poll env (calls Kind.poll w + i) base) = true) ->
  build_Poll env (calls Kind.poll w + j) base = Ok 200 ->
  (m < fuel)%nat ->
  (forall i, (i < m)%nat -> build_IsRunning env (calls Kind.isrunning w + i) base = true) ->
  build_IsRunning env (calls Kind.isrunning w + m) base = false ->
  let reached := reach_trace j base (EvInvoke name parameters :: EvGetJob name :: EvInit :: w) in
  let w' := EvGetResult base :: EvIsRunning base :: wait_trace m base reached in
  RunJobWaitForResult env fuel name parameters w =
    Done (build_GetResult env (calls Kind.getresult w) base, None) w'
  /\ calls Kind.poll w' = (calls Kind.poll reached + (1 + m))%nat.
Proof.
  intros Hinit Hjob Hinv base Hj Hfuel Hfail Hok Hm Hrun Hstop reached w'. split.
  - rewrite (RunJobWaitForResult_reaches env fuel name parameters next w j) by auto.
    fold base. fold reached.
    rewrite (wait_for_result_stops env fuel base m reached Hm).
    + unfold reached. now rewrite calls_getresult_reach_trace.
    + unfold reached. rewrite calls_isrunning_reach_trace. exact Hrun.
    + unfold reached. rewrite calls_isrunning_reach_trace. exact Hstop.
  - unfold w', wait_trace. simpl. rewrite calls_poll_wait_rounds. simpl. lia.
Qed.

Lemma RunJobWaitForResult_completion_witness :
  RunJobWaitForResult Scenario.slow_build 4 "release" ∅ [] =
    Done ("SUCCESS", None)
      [EvGetResult "/job/release/7"; EvIsRunning "/job/release/7";
       EvPoll "/job/release/7"; EvSleep 1; EvIsRunning "/job/release/7";
       EvPoll "/job/release/7"; EvSleep 1; EvIsRunning "/job/release/7";
       EvPoll "/job/release/7"; EvSleep 1; EvIsRunning "/job/release/7";
       EvPoll "/job/release/7"; EvSleep 5;
       EvPoll "/job/release/7"; EvInvoke "release" ∅; EvGetJob "release"; EvInit].
Proof.
  refine (proj1 (RunJobWaitForResult_completion Scenario.slow_build 4 "release" ∅ 7 [] 0 3
                   eq_refl eq_refl eq_refl _ _ _ eq_refl _ _ eq_refl)).
  - lia.
  - lia.
  - intros i Hi. lia.
  - lia.
  - intros i Hi. do 3 (destruct i as [|i]; [reflexivity|]). lia.
Defined.

(** ** The release cut *)

Section CutReleaseFacts.

Variable Cfg : Config.
Variable env : Env.
Variable fuel : nat.

Lemma RunReleasePrechecks_after (w w' : World) (result : string) (err : option AppError) :
  RunJobWaitForResult env fuel (PreChecksJob Cfg) ∅ w = Done (result, err) w' ->
  RunReleasePrechecks Cfg env fuel w =
  if non_nil err || negb (String.eqb result STATUS_SUCCESS)
  then Done (NewError ("Pre-checks failed! (Did you update the database upgrade code?) Result: "
                         +:+ result) (as_error err)) w'
  else Done None w'.
Proof.
  intros Hrun. unfold RunReleasePrechecks, bind. rewrite Hrun.
  now destruct (non_nil err || negb (String.eqb result STATUS_SUCCESS)).
Qed.

Lemma len_slice (release : string) :
  (2 <= String.length release)%nat -> (len release - 2 <? 0) = false.
Proof. intros H. unfold len. apply Z.ltb_ge. lia. Qed.

End CutReleaseFacts.

(** C6. [CutRelease] (on a release of two characters or more, which the
    slice of its first line needs) runs the pre-checks job first and waits
    for it.  When that run ends with an error or a result other than
    SUCCESS, [CutRelease] returns the "Pre-checks failed!" error and nothing
    else happens: no goroutine is started, so the release job is not
    invoked.  When it ends with SUCCESS, [CutRelease] starts the goroutine
    and returns nil at once; the goroutine's body is not run by
    [CutRelease], so nothing it meets can reach the return value. *)
Theorem CutRelease_prechecks_first (Cfg : Config) (env : Env) (fuel : nat)
    (release rc : string) (isFirstMinorRelease backportRelease : bool)
    (w w' : World) (result : string) (err : option AppError) :
  (2 <= String.length release)%nat ->
  RunJobWaitForResult env fuel (PreChecksJob Cfg) ∅ w = Done (result, err) w' ->
  (err <> None \/ result <> STATUS_SUCCESS ->
   CutRelease Cfg env fuel release rc isFirstMinorRelease backportRelease w =
   Done (NewError ("Pre-checks failed! (Did you update the database upgrade code?) Result: "
                     +:+ result) (as_error err)) w')
  /\ (err = None -> result = STATUS_SUCCESS ->
      exists t,
        CutRelease Cfg env fuel release rc isFirstMinorRelease backportRelease w =
        Done None (EvGo t :: w')
        /\ task_release t = release
        /\ task_backportRelease t = backportRelease).
Proof.
  intros Hlen Hrun. unfold CutRelease. rewrite (len_slice release Hlen).
  unfold bind at 1 3. rewrite (RunReleasePrechecks_after Cfg env fuel w w' result err Hrun).
  split.
  - intros Hbad.
    replace (non_nil err || negb (String.eqb result STATUS_SUCCESS)) with true; [reflexivity|].
    symmetry. apply orb_true_iff. destruct Hbad as [Herr|Hres].
    + left. destruct err; [reflexivity | congruence].
    + right. apply negb_true_iff. now apply String.eqb_neq.
  - intros -> ->. simpl. eexists. split; [reflexivity|]. split; reflexivity.
Qed.

Lemma CutRelease_prechecks_first_witness :
  CutRelease Scenario.cfg Scenario.failing_prechecks 1 "5.3.0" "rc1" true false [] =
    Done (NewError "Pre-checks failed! (Did you update the database upgrade code?) Result: FAILURE"
            AppError_nil)
      [EvGetResult "/job/prechecks/7"; EvIsRunning "/job/prechecks/7"; EvPoll "/job/prechecks/7";
       EvSleep 5; EvPoll "/job/prechecks/7"; EvInvoke "prechecks" ∅; EvGetJob "prechecks"; EvInit]
  /\ exists t,
       CutRelease Scenario.cfg Scenario.jenkins_ok 1 "5.3.0" "rc1" true false [] =
         Done None
           [EvGo t;
            EvGetResult "/job/prechecks/7"; EvIsRunning "/job/prechecks/7"; EvPoll "/job/prechecks/7";
            EvSleep 5; EvPoll "/job/prechecks/7"; EvInvoke "prechecks" ∅; EvGetJob "prechecks"; EvInit]
       /\ task_release t = "5.3.0"
       /\ task_backportRelease t = false.
Proof.
  split.
  - refine (proj1 (CutRelease_prechecks_first Scenario.cfg Scenario.failing_prechecks 1
                     "5.3.0" "rc1" true false [] _ "FAILURE" None _ eq_refl) _).
    + simpl. lia.
    + right. discriminate.
  - refine (proj2 (CutRelease_prechecks_first Scenario.cfg Scenario.jenkins_ok 1
                     "5.3.0" "rc1" true false [] _ "SUCCESS" None _ eq_refl) eq_refl eq_refl).
    simpl. lia.
Defined.

(** ** What a run adds to the history *)

Section Emits.

Context {A B : Type} (P : Event -> Prop).

Lemma emits_ret (a : A) : emits P (ret a).
Proof. intros w. exists a, []. split; [reflexivity | constructor]. Qed.

Lemma emits_bind (m : M A) (k : A -> M B) :
  emits P m -> (forall a, emits P (k a)) -> emits P (bind m k).
Proof.
  intros Hm Hk w. unfold bind.
  destruct (Hm w) as (a & added1 & -> & H1).
  destruct (Hk a (added1 ++ w)%list) as (b & added2 & -> & H2).
  exists b, (added2 ++ added1)%list. split.
  - now rewrite <- List.app_assoc.
  - apply Forall_app. auto.
Qed.

Lemma emits_call (kind : Event -> bool) (ev : Event) (reply : nat -> A) :
  P ev -> emits P (call kind ev reply).
Proof.
  intros Hev w. exists (reply (calls kind w)), [ev]. split; [reflexivity|].
  constructor; [assumption | constructor].
Qed.

Lemma only_ret (a : A) : only P (ret a).
Proof. intros w. exists []. split; [reflexivity | constructor]. Qed.

Lemma only_panic (msg : string) : only P (panic (A := A) msg).
Proof. intros w. exists []. split; [reflexivity | constructor]. Qed.

Lemma only_out_of_fuel : only P (out_of_fuel (A := A)).
Proof. intros w. exact I. Qed.

Lemma only_bind (m : M A) (k : A -> M B) :
  only P m -> (forall a, only P (k a)) -> only P (bind m k).
Proof.
  intros Hm Hk w. unfold bind. specialize (Hm w).
  destruct (m w) as [a w1|msg w1|]; [| exact Hm | exact I].
  destruct Hm as (added1 & -> & H1).
  specialize (Hk a (added1 ++ w)%list).
  destruct (k a (added1 ++ w)%list) as [b w2|msg w2|]; [| | exact I];
    destruct Hk as (added2 & -> & H2);
    exists (added2 ++ added1)%list;
    (split; [now rewrite <- List.app_assoc | apply Forall_app; auto]).
Qed.

Lemma emits_only (m : M A) : emits P m -> only P m.
Proof.
  intros Hm w. destruct (Hm w) as (a & added & -> & H). eauto.
Qed.

End Emits.

Lemma emits_emit (P : Event -> Prop) (ev : Event) : P ev -> emits P (emit ev).
Proof.
  intros Hev w. exists tt, [ev]. split; [reflexivity|].
  constructor; [assumption | constructor].
Qed.

Section Ends.

Context {A B : Type}.

Lemma ends_ret (a : A) : ends (ret a).
Proof. intros w. discriminate. Qed.

Lemma ends_panic (msg : string) : ends (panic (A := A) msg).
Proof. intros w. discriminate. Qed.

Lemma ends_call (kind : Event -> bool) (ev : Event) (reply : nat -> A) :
  ends (call kind ev reply).
Proof. intros w. discriminate. Qed.

Lemma ends_bind (m : M A) (k : A -> M B) :
  ends m -> (forall a, ends (k a)) -> ends (bind m k).
Proof.
  intros Hm Hk w. unfold bind. specialize (Hm w).
  destruct (m w) as [a w1|msg w1|]; [apply Hk | discriminate | contradiction].
Qed.

End Ends.

Lemma ends_emit (ev : Event) : ends (emit ev).
Proof. intros w. discriminate. Qed.

Ltac ends_step :=
  first
    [ apply ends_ret
    | apply ends_emit
    | apply ends_call
    | apply ends_panic
    | apply ends_bind; [| intros ?]
    | match goal with
      | |- ends (match ?x with _ => _ end) => destruct x eqn:?
      end ].

(** One step of a proof that a straight-line function only adds events
    that satisfy the property at hand. *)
Ltac emits_step :=
  first
    [ apply emits_ret
    | apply emits_emit
    | apply emits_call
    | apply emits_bind; [| intros ?]
    | match goal with
      | |- emits _ (match ?x with _ => _ end) => destruct x eqn:?
      end ].

Section JenkinsEmits.

Variable Cfg : Config.
Variable env : Env.
Variable P : Event -> Prop.
Hypothesis P_init : P EvInit.
Hypothesis P_getjob : forall name, P (EvGetJob name).
Hypothesis P_getconfig : forall name, P (EvGetConfig name).

Lemma getJob_emits (name : string) : emits P (getJob env name).
Proof using P_init P_getjob.
  unfold getJob, getJenkins. repeat emits_step; auto.
Qed.

Lemma GetJobConfig_emits (name : string) : emits P (GetJobConfig env name).
Proof using P_init P_getjob P_getconfig.
  unfold GetJobConfig. apply emits_bind; [apply getJob_emits | intros ?].
  repeat emits_step; auto.
Qed.

Lemma SaveJobConfig_emits (name config : string) :
  P (EvUpdateConfig name config) -> emits P (SaveJobConfig env name config).
Proof using P_init P_getjob.
  intros Hupdate. unfold SaveJobConfig. apply emits_bind; [apply getJob_emits | intros ?].
  repeat emits_step; auto.
Qed.

Lemma RunJobParameters_emits (name : string) (parameters : gmap string string) :
  P (EvInvoke name parameters) -> emits P (RunJobParameters env name parameters).
Proof using P_init P_getjob.
  intros Hinvoke. unfold RunJobParameters. apply emits_bind; [apply getJob_emits | intros ?].
  repeat emits_step; auto.
Qed.

End JenkinsEmits.

Section JenkinsEnds.

Variable env : Env.

Lemma getJob_ends (name : string) : ends (getJob env name).
Proof. unfold getJob, getJenkins. repeat ends_step. Qed.

Lemma GetJobConfig_ends (name : string) : ends (GetJobConfig env name).
Proof.
  unfold GetJobConfig. apply ends_bind; [apply getJob_ends | intros ?].
  repeat ends_step.
Qed.

Lemma SaveJobConfig_ends (name config : string) : ends (SaveJobConfig env name config).
Proof.
  unfold SaveJobConfig. apply ends_bind; [apply getJob_ends | intros ?].
  repeat ends_step.
Qed.

Lemma RunJobParameters_ends (name : string) (parameters : gmap string string) :
  ends (RunJobParameters env name parameters).
Proof.
  unfold RunJobParameters. apply ends_bind; [apply getJob_ends | intros ?].
  repeat ends_step.
Qed.

End JenkinsEnds.

(** ** Pointing the CI jobs at a branch *)

Section CIServerBranch.

Variable env : Env.
Variable branch : string.

Lemma paths_differ : default_branch_path <> upstream_projects_path.
Proof. discriminate. Qed.

Lemma ci_written_set (doc : Document) (config : string) (name : string) :
  etree_WriteToString env
    (if String.eqb branch "master"
     then SetText upstream_projects_path "mattermost-enterprise"
            (SetText default_branch_path branch doc)
     else SetText upstream_projects_path ("mattermost-platform/" +:+ branch)
            (SetText default_branch_path branch doc)) = Ok config ->
  ci_written env branch (EvUpdateConfig name config).
Proof.
  intros Hwrite. simpl. eexists. split; [exact Hwrite|].
  unfold SetText.
  destruct (String.eqb_spec branch "master") as [Hb|Hb].
  - split; [|split]; [| intros _ | congruence].
    + rewrite lookup_insert_ne by (symmetry; apply paths_differ). apply lookup_insert_eq.
    + apply lookup_insert_eq.
  - split; [|split]; [| congruence | intros _].
    + rewrite lookup_insert_ne by (symmetry; apply paths_differ). apply lookup_insert_eq.
    + apply lookup_insert_eq.
Qed.

Lemma SetCIServerBranch_from_only (jobs : list string) :
  only (ci_written env branch) (SetCIServerBranch_from env jobs branch).
Proof.
  induction jobs as [|serverjob jobs IH]; simpl.
  - apply only_ret.
  - apply only_bind;
      [apply emits_only, GetJobConfig_emits; simpl; auto | intros [config err]].
    destruct err; [apply only_ret|].
    destruct (etree_ReadFromString env config) as [[jConfig|]|msg];
      [| apply only_panic | apply only_ret].
    destruct (FindElement jConfig default_branch_path); [|apply only_ret].
    destruct (FindElement (SetText default_branch_path branch jConfig) upstream_projects_path);
      [|apply only_ret].
    destruct (etree_WriteToString env _) as [out|msg] eqn:Hwrite; [|apply only_ret].
    apply only_bind.
    + apply emits_only, SaveJobConfig_emits; simpl; auto.
      exact (ci_written_set jConfig out serverjob Hwrite).
    + intros [e|]; [apply only_ret | exact IH].
Qed.

Lemma SetCIServerBranch_from_ends (jobs : list string) :
  ends (SetCIServerBranch_from env jobs branch).
Proof.
  induction jobs as [|serverjob jobs IH]; simpl.
  - apply ends_ret.
  - apply ends_bind; [apply GetJobConfig_ends | intros [config err]].
    destruct err; [apply ends_ret|].
    destruct (etree_ReadFromString env config) as [[jConfig|]|msg];
      [| apply ends_panic | apply ends_ret].
    destruct (FindElement jConfig default_branch_path); [|apply ends_ret].
    destruct (FindElement (SetText default_branch_path branch jConfig) upstream_projects_path);
      [|apply ends_ret].
    destruct (etree_WriteToString env _) as [out|msg]; [|apply ends_ret].
    apply ends_bind; [apply SaveJobConfig_ends | intros [e|]; [apply ends_ret | exact IH]].
Qed.

(** A run that reports no error has reconfigured every job of the list,
    in order. *)
Lemma SetCIServerBranch_from_all (jobs : list string) :
  forall w w',
    SetCIServerBranch_from env jobs branch w = Done None w' ->
    exists added, w' = (added ++ w)%list /\ omap updated_job added = rev jobs.
Proof.
  induction jobs as [|serverjob jobs IH]; intros w w' Hrun.
  - injection Hrun as <-. exists []. split; reflexivity.
  - simpl in Hrun.
    unfold GetJobConfig, SaveJobConfig, getJob, getJenkins in Hrun.
    unfold bind, call, ret in Hrun. simpl in Hrun.
    repeat match type of Hrun with
           | context [jenkins_Init env ?n] => destruct (jenkins_Init env n); simpl in Hrun
           | context [jenkins_GetJob env ?n ?x] => destruct (jenkins_GetJob env n x); simpl in Hrun
           | context [job_GetConfig env ?n ?x] => destruct (job_GetConfig env n x); simpl in Hrun
           | context [etree_ReadFromString env ?x] =>
               destruct (etree_ReadFromString env x) as [[?|]|?]; simpl in Hrun
           | context [FindElement ?d ?x] => destruct (FindElement d x); simpl in Hrun
           | context [etree_WriteToString env ?d] =>
               destruct (etree_WriteToString env d); simpl in Hrun
           | context [job_UpdateConfig env ?n ?x ?c] =>
               destruct (job_UpdateConfig env n x c); simpl in Hrun
           end; try discriminate.
    all: apply IH in Hrun as (added & -> & Hnames).
    all: eexists (added ++ [_; _; _; _; _; _])%list.
    all: split; [now rewrite <- List.app_assoc|].
    all: rewrite omap_app, Hnames; reflexivity.
Qed.

(** On a Jenkins that does what it is asked, with jobs whose configurations
    have both elements, the run reports no error. *)
Lemma SetCIServerBranch_from_succeeds (jobs : list string) :
  jenkins_up env ->
  Forall (configurable env [default_branch_path; upstream_projects_path]) jobs ->
  forall w, exists w', SetCIServerBranch_from env jobs branch w = Done None w'.
Proof.
  intros [Hinit Hwrite] Hjobs.
  induction Hjobs as [|serverjob jobs (Hjob & Hconfig & Hupdate) _ IH]; intros w.
  - eexists. reflexivity.
  - simpl.
    unfold GetJobConfig, SaveJobConfig, getJob, getJenkins.
    unfold bind, call, ret. simpl.
    rewrite !Hinit. simpl.
    repeat match goal with
           | |- context [jenkins_GetJob env ?n serverjob] =>
               let E := fresh in destruct (Hjob n) as [? E]; rewrite E; clear E; simpl
           end.
    match goal with
    | |- context [job_GetConfig env ?n serverjob] =>
        destruct (Hconfig n) as (config & doc & -> & -> & Hpaths); simpl
    end.
    apply Forall_cons_iff in Hpaths as [Hdefault Hpaths].
    apply Forall_cons_iff in Hpaths as [Hupstream _].
    unfold FindElement, SetText.
    rewrite lookup_insert_ne by apply paths_differ.
    destruct (doc !! default_branch_path); [|contradiction].
    destruct (doc !! upstream_projects_path); [|contradiction].
    match goal with
    | |- context [etree_WriteToString env ?d] => destruct (Hwrite d) as [out ->]; simpl
    end.
    rewrite !Hinit. simpl.
    repeat match goal with
           | |- context [jenkins_GetJob env ?n serverjob] =>
               let E := fresh in destruct (Hjob n) as [? E]; rewrite E; clear E; simpl
           end.
    rewrite Hupdate. simpl. apply IH.
Qed.

End CIServerBranch.

(** C9. Every configuration [SetCIServerBranch branch] sends to Jenkins,
    whether it then returns or panics on a configuration without root
    element, is the text of a document in which the default-branch
    parameter is [branch] and the upstream project is
    "mattermost-enterprise" when [branch] is "master" and
    "mattermost-platform/" followed by [branch] otherwise; when it reports
    no error it has sent one to each configured CI job, in order.  And it
    does report no error when Jenkins can be reached, finds every CI job,
    returns for each a configuration with both elements, accepts the new
    one, and the documents can be written out. *)
Theorem SetCIServerBranch_upstream (Cfg : Config) (env : Env) (branch : string) (w : World) :
  match SetCIServerBranch Cfg env branch w with
  | Done r w' =>
      exists added,
        w' = (added ++ w)%list
        /\ Forall (ci_written env branch) added
        /\ (r = None -> omap updated_job added = rev (CIServerJobs Cfg))
  | Panicked _ w' =>
      exists added, w' = (added ++ w)%list /\ Forall (ci_written env branch) added
  | OutOfFuel => False
  end
  /\ (jenkins_up env ->
      Forall (configurable env [default_branch_path; upstream_projects_path])
        (CIServerJobs Cfg) ->
      exists w', SetCIServerBranch Cfg env branch w = Done None w').
Proof.
  unfold SetCIServerBranch. split.
  - pose proof (SetCIServerBranch_from_only env branch (CIServerJobs Cfg) w) as Honly.
    pose proof (SetCIServerBranch_from_ends env branch (CIServerJobs Cfg) w) as Hends.
    destruct (SetCIServerBranch_from env (CIServerJobs Cfg) branch w) as [r w'|msg w'|] eqn:Hrun;
      [| exact Honly | now apply Hends].
    destruct Honly as (added & -> & Hwritten).
    exists added. split; [reflexivity|]. split; [exact Hwritten|].
    intros ->.
    destruct (SetCIServerBranch_from_all env branch (CIServerJobs Cfg) w _ Hrun)
      as (added' & Heq & Hnames).
    apply app_inv_tail in Heq. now subst.
  - intros Hup Hjobs. now apply SetCIServerBranch_from_succeeds.
Qed.

Lemma SetCIServerBranch_upstream_witness :
  (exists w',
     SetCIServerBranch Scenario.cfg Scenario.jenkins_ok "release-5.3" [] = Done None w')
  /\ (exists w',
        SetCIServerBranch Scenario.cfg Scenario.jenkins_ok "master" [] = Done None w').
Proof.
  assert (Hup : jenkins_up Scenario.jenkins_ok).
  { split; [reflexivity | intros doc; eexists; reflexivity]. }
  assert (Hjobs : Forall (configurable Scenario.jenkins_ok
                            [default_branch_path; upstream_projects_path])
                    (CIServerJobs Scenario.cfg)).
  { repeat constructor; try (intros; eexists; reflexivity).
    all: intros n; exists "<project/>", Scenario.job_xml.
    all: split; [reflexivity|]; split; [reflexivity|].
    all: repeat constructor; vm_compute; discriminate. }
  split.
  - exact (proj2 (SetCIServerBranch_upstream Scenario.cfg Scenario.jenkins_ok "release-5.3" [])
             Hup Hjobs).
  - exact (proj2 (SetCIServerBranch_upstream Scenario.cfg Scenario.jenkins_ok "master" [])
             Hup Hjobs).
Defined.

Example SetCIServerBranch_release_branch :
  SetCIServerBranch Scenario.cfg Scenario.jenkins_ok "release-5.3" [] =
  Done None
    [EvUpdateConfig "ci-b" "mattermost-platform/release-5.3,release-5.3";
     EvGetJob "ci-b"; EvInit; EvGetConfig "ci-b"; EvGetJob "ci-b"; EvInit;
     EvUpdateConfig "ci-a" "mattermost-platform/release-5.3,release-5.3";
     EvGetJob "ci-a"; EvInit; EvGetConfig "ci-a"; EvGetJob "ci-a"; EvInit].
Proof. vm_compute. reflexivity. Qed.

Example SetCIServerBranch_master :
  SetCIServerBranch Scenario.cfg Scenario.jenkins_ok "master" [] =
  Done None
    [EvUpdateConfig "ci-b" "mattermost-enterprise,master";
     EvGetJob "ci-b"; EvInit; EvGetConfig "ci-b"; EvGetJob "ci-b"; EvInit;
     EvUpdateConfig "ci-a" "mattermost-enterprise,master";
     EvGetJob "ci-a"; EvInit; EvGetConfig "ci-a"; EvGetJob "ci-a"; EvInit].
Proof. vm_compute. reflexivity. Qed.

(** C4. For a version [MAJOR.MINOR.PATCH] (decimal components, literal
    dots) parsing yields the whole string as release part, an empty rc part
    and no first minor release.  For [MAJOR.MINOR.PATCH-rcN] it yields the
    part before the dash as release part and [rcN] as rc part, and the
    first-minor-release flag is set exactly when the rc part is "rc1" and
    the release part ends in ".0". *)
Theorem parseVersion_accepted (major minor patch n : string) :
  number major = true -> number minor = true -> number patch = true -> number n = true ->
  parseVersion (final_version major minor patch) =
    Version (final_version major minor patch) "" false
  /\ exists isFirstMinorRelease,
       parseVersion (rc_version major minor patch n) =
         Version (final_version major minor patch) ("rc" +:+ n) isFirstMinorRelease
       /\ (isFirstMinorRelease = true <->
           "rc" +:+ n = "rc1" /\ exists p, final_version major minor patch = p +:+ ".0").
Proof.
  intros Hmajor Hminor Hpatch Hn. split.
  - now apply parseVersion_final.
  - eexists. split; [now apply parseVersion_rc|].
    rewrite andb_true_iff, String.eqb_eq, HasSuffix_iff. reflexivity.
Qed.

Lemma parseVersion_accepted_witness :
  parseVersion "5.3.0" = Version "5.3.0" "" false
  /\ exists isFirstMinorRelease,
       parseVersion "5.3.0-rc1" = Version "5.3.0" "rc1" isFirstMinorRelease
       /\ (isFirstMinorRelease = true <-> "rc1" = "rc1" /\ exists p, "5.3.0" = p +:+ ".0").
Proof.
  exact (parseVersion_accepted "5" "3" "0" "1" eq_refl eq_refl eq_refl eq_refl).
Defined.

Example parseVersion_examples :
  parseVersion "5.3.0-rc1" = Version "5.3.0" "rc1" true
  /\ parseVersion "5.3.1-rc1" = Version "5.3.1" "rc1" false
  /\ parseVersion "5.3.0-rc2" = Version "5.3.0" "rc2" false
  /\ parseVersion "5.3.0" = Version "5.3.0" "" false
  /\ parseVersion "v5.3" = BadVersion
  /\ parseVersion "5.3" = BadVersion
  /\ parseVersion "5.3.0.1" = BadVersion.
Proof. repeat split; reflexivity. Qed.

(** ** The cut handler *)

Section CutHandler.

Variable Cfg : Config.
Variable env : Env.
Variable fuel : nat.

Lemma Build_Poll_emits (base : string) : emits no_probe (Build_Poll env base).
Proof. unfold Build_Poll. now apply emits_call. Qed.

Lemma reach_loop_only (n : nat) :
  forall base next tries status err3,
    only no_probe (reach_loop env n base next tries status err3).
Proof.
  induction n as [|n IH]; intros base next tries status err3; simpl;
    destruct (negb (is_nil err3) || negb (status =? 200));
    try apply only_ret; try apply only_out_of_fuel.
  apply only_bind; [apply emits_only, Build_Poll_emits | intros [status' err3']].
  destruct (5 <=? tries); [apply only_ret|].
  apply only_bind; [apply emits_only; now apply emits_emit | intros _; apply IH].
Qed.

Lemma wait_loop_only (n : nat) (base : string) : only no_probe (wait_loop env n base).
Proof.
  induction n as [|n IH]; simpl; [apply only_out_of_fuel|].
  apply only_bind; [apply emits_only; now apply emits_call | intros running].
  destruct running; [|apply only_ret].
  apply only_bind; [apply emits_only; now apply emits_emit | intros _].
  apply only_bind; [apply emits_only, Build_Poll_emits | intros _; apply IH].
Qed.

Lemma RunJobWaitForResult_only (name : string) (parameters : gmap string string) :
  only no_probe (RunJobWaitForResult env fuel name parameters).
Proof.
  unfold RunJobWaitForResult.
  apply only_bind; [apply emits_only, getJob_emits; now unfold no_probe | intros [job|err]];
    [|apply only_ret].
  apply only_bind; [apply emits_only; now apply emits_call | intros [msg|]]; [apply only_ret|].
  apply only_bind; [apply emits_only, Build_Poll_emits | intros [status err3]].
  apply only_bind; [apply reach_loop_only | intros [e|]]; [apply only_ret|].
  unfold wait_for_result.
  apply only_bind; [apply emits_only; now apply emits_emit | intros _].
  apply only_bind; [apply emits_only, Build_Poll_emits | intros _].
  apply only_bind; [apply wait_loop_only | intros _].
  apply only_bind; [apply emits_only; now apply emits_call | intros res; apply only_ret].
Qed.

Lemma CutRelease_only (release rc : string) (isFirstMinorRelease backportRelease : bool) :
  only no_probe (CutRelease Cfg env fuel release rc isFirstMinorRelease backportRelease).
Proof.
  unfold CutRelease. destruct (len release - 2 <? 0); [apply only_panic|].
  apply only_bind.
  - unfold RunReleasePrechecks.
    apply only_bind; [apply RunJobWaitForResult_only | intros [result err]].
    destruct (non_nil err || negb (String.eqb result STATUS_SUCCESS)); apply only_ret.
  - intros [e|]; [apply only_ret|].
    apply only_bind; [apply emits_only; now apply emits_emit | intros _; apply only_ret].
Qed.

(** Without the dry-run flag the function of five parameters is the one of
    the Jenkins file. *)
Lemma CutRelease5_not_dryrun (release rc : string) (isFirstMinorRelease backportRelease : bool) :
  CutRelease5 Cfg env fuel release rc isFirstMinorRelease backportRelease false =
  CutRelease Cfg env fuel release rc isFirstMinorRelease backportRelease.
Proof. reflexivity. Qed.

Lemma CutRelease_background5_not_dryrun (t : ReleaseTask) (w : World) :
  CutRelease_background5 Cfg env fuel t false w = CutRelease_background Cfg env fuel t w.
Proof.
  unfold CutRelease_background5, CutRelease_background. now rewrite andb_true_r.
Qed.

Lemma CutRelease5_only (release rc : string)
    (isFirstMinorRelease backportRelease isDryRun : bool) :
  only no_probe
    (CutRelease5 Cfg env fuel release rc isFirstMinorRelease backportRelease isDryRun).
Proof.
  unfold CutRelease5. destruct (len release - 2 <? 0); [apply only_panic|].
  apply only_bind.
  - unfold RunReleasePrechecks.
    apply only_bind; [apply RunJobWaitForResult_only | intros [result err]].
    destruct (non_nil err || negb (String.eqb result STATUS_SUCCESS)); apply only_ret.
  - intros [e|]; [apply only_ret|].
    apply only_bind; [apply emits_only, emits_emit; now destruct isDryRun
                     | intros _; apply only_ret].
Qed.

Lemma cut_and_answer_only (versionString releasePart rcPart : string)
    (isFirstMinorRelease backport dryrun : bool) :
  only no_probe
    (cut_and_answer Cfg env fuel versionString releasePart rcPart isFirstMinorRelease
       backport dryrun).
Proof.
  unfold cut_and_answer.
  apply only_bind; [apply CutRelease5_only | intros [e|]];
    (apply only_bind; [apply emits_only; now apply emits_emit | intros _; apply only_ret]).
Qed.

Lemma Atoi_range (s : string) (v : Z) : Atoi s = Some v -> MinInt64 <= v <= MaxInt64.
Proof.
  unfold Atoi.
  destruct (match s with
            | String "-" b => (true, b)
            | String "+" b => (false, b)
            | _ => (false, s)
            end) as [neg body].
  destruct body; [discriminate|].
  destruct (parse_digits _ 0) as [x|]; [|discriminate].
  destruct ((MinInt64 <=? (if neg then - x else x)) && ((if neg then - x else x) <=? MaxInt64)) eqn:E;
    [|discriminate].
  intros [= <-]. apply andb_true_iff in E as [E1 E2]. lia.
Qed.

Lemma match_200 {A} (r : result Z) (a b : A) :
  match r with Ok 200 => a | _ => b end = if poll_failed r then b else a.
Proof.
  destruct r as [status|msg]; [|reflexivity].
  destruct status as [|p|p]; try reflexivity.
  repeat (destruct p as [p|p|]; try reflexivity).
Qed.

Lemma poll_failed_iff (r : result Z) : poll_failed r = false <-> r = Ok 200.
Proof.
  split; [|now intros ->].
  destruct r as [status|msg]; [|discriminate].
  destruct status as [|p|p]; try discriminate.
  repeat (destruct p as [p|p|]; try discriminate). reflexivity.
Qed.

(** A version that matches neither pattern of the code is answered with
    the "Bad version argument" error and nothing else is done. *)
Lemma cutReleaseCommandF_bad_version (versionString : string) (args : list string)
    (backport dryrun : bool) (w : World) :
  parseVersion versionString = BadVersion ->
  cutReleaseCommandF Cfg env fuel (versionString :: args) backport dryrun w =
  Done nil_error
    (EvWrite (StandardResponse
       "Bad version argument. Typo? If not the regex might be broken. If so be more careful!!"
       EPHEMERAL) :: w).
Proof. intros Hbad. unfold cutReleaseCommandF. now rewrite Hbad. Qed.

End CutHandler.

(** C7. On a version whose release part is [MAJOR.MINOR.PATCH], with
    [MINOR] read by [Atoi] as a number below the largest [int]: without
    [--backport] the handler first issues one HTTP GET for the rc1 artifact
    of [MAJOR.(MINOR+1).0]; on status 200 it answers with the "Are you sure
    this isn't a backport release?" error and does nothing else (no job is
    looked up or invoked), on any other outcome it goes on to the cut.
    With [--backport] it goes to the cut directly and no HTTP GET is made
    at all. *)
Theorem cutReleaseCommandF_backport_guard (Cfg : Config) (env : Env) (fuel : nat)
    (versionString major minor patch rcPart : string) (isFirstMinorRelease dryrun : bool)
    (intVer : Z) (args : list string) (w : World) :
  number major = true -> number minor = true -> number patch = true ->
  parseVersion versionString = Version (final_version major minor patch) rcPart isFirstMinorRelease ->
  Atoi minor = Some intVer -> intVer < MaxInt64 ->
  let oneReleaseUp := major +:+ "." +:+ Itoa (intVer + 1) +:+ ".0" in
  let s3URL := s3URL_of oneReleaseUp in
  let cut backport :=
    cut_and_answer Cfg env fuel versionString (final_version major minor patch) rcPart
      isFirstMinorRelease backport dryrun in
  (http_Get env (calls Kind.httpget w) s3URL = Ok 200 ->
   cutReleaseCommandF Cfg env fuel (versionString :: args) false dryrun w =
   Done nil_error
     (EvWrite (StandardResponse
        ("Are you sure this isn't a backport release? I see a future release on s3. ("
           +:+ oneReleaseUp +:+ ")OK") EPHEMERAL)
      :: EvHttpGet s3URL :: w))
  /\ (http_Get env (calls Kind.httpget w) s3URL <> Ok 200 ->
      cutReleaseCommandF Cfg env fuel (versionString :: args) false dryrun w =
      cut false (EvHttpGet s3URL :: w))
  /\ cutReleaseCommandF Cfg env fuel (versionString :: args) true dryrun w = cut true w
  /\ match cutReleaseCommandF Cfg env fuel (versionString :: args) true dryrun w with
     | Done _ w' | Panicked _ w' => exists added, w' = (added ++ w)%list /\ Forall no_probe added
     | OutOfFuel => True
     end.
Proof.
  intros Hmajor Hminor Hpatch Hparse Hatoi Hmax oneReleaseUp s3URL cut.
  assert (Hprobe : cutReleaseCommandF Cfg env fuel (versionString :: args) false dryrun w =
            if poll_failed (http_Get env (calls Kind.httpget w) s3URL)
            then cut false (EvHttpGet s3URL :: w)
            else Done nil_error
                   (EvWrite (StandardResponse
                      ("Are you sure this isn't a backport release? I see a future release on s3. ("
                         +:+ oneReleaseUp +:+ ")OK") EPHEMERAL)
                    :: EvHttpGet s3URL :: w)).
  { unfold cutReleaseCommandF. rewrite Hparse. cbn [negb].
    rewrite (final_version_Split major minor patch Hmajor Hminor Hpatch), Hatoi.
    pose proof (Atoi_range minor intVer Hatoi) as Hrange.
    replace (wrap64 (intVer + 1)) with (intVer + 1)
      by (unfold wrap64, MinInt64, MaxInt64 in *; rewrite Z.mod_small; lia).
    change (Join [major; Itoa (intVer + 1); "0"] ".") with oneReleaseUp.
    fold s3URL. unfold bind at 1, call at 1.
    rewrite match_200.
    destruct (poll_failed (http_Get env (calls Kind.httpget w) s3URL)); [reflexivity|].
    unfold WriteErrorResponse, NewError, AppError_Error. cbn [Parent is_nil negb ErrorDescription].
    unfold bind, emit, ret.
    replace (oneReleaseUp +:+ ")" +:+ "OK") with (oneReleaseUp +:+ ")OK"); [reflexivity|].
    reflexivity. }
  assert (Hdirect : cutReleaseCommandF Cfg env fuel (versionString :: args) true dryrun w = cut true w).
  { unfold cutReleaseCommandF. rewrite Hparse. reflexivity. }
  split; [|split; [|split]].
  - intros Hfound. rewrite Hprobe, Hfound. reflexivity.
  - intros Hnot. rewrite Hprobe.
    destruct (poll_failed (http_Get env (calls Kind.httpget w) s3URL)) eqn:E; [reflexivity|].
    apply poll_failed_iff in E. contradiction.
  - exact Hdirect.
  - rewrite Hdirect. apply cut_and_answer_only.
Qed.

Lemma cutReleaseCommandF_backport_guard_witness :
  cutReleaseCommandF Scenario.cfg Scenario.newer_release 1 ["5.3.0-rc1"] false false [] =
    Done nil_error
      [EvWrite (StandardResponse
         "Are you sure this isn't a backport release? I see a future release on s3. (5.4.0)OK"
         "ephemeral");
       EvHttpGet "http://releases.mattermost.com/5.4.0-rc1/mattermost-5.4.0-rc1-linux-amd64.tar.gz"]
  /\ cutReleaseCommandF Scenario.cfg Scenario.newer_release 1 ["5.3.0-rc1"] true false [] =
     cut_and_answer Scenario.cfg Scenario.newer_release 1 "5.3.0-rc1" "5.3.0" "rc1" true true false [].
Proof.
  split.
  - exact (proj1 (cutReleaseCommandF_backport_guard Scenario.cfg Scenario.newer_release 1
                    "5.3.0-rc1" "5" "3" "0" "rc1" true false 3 [] []
                    eq_refl eq_refl eq_refl eq_refl eq_refl eq_refl) eq_refl).
  - exact (proj1 (proj2 (proj2
             (cutReleaseCommandF_backport_guard Scenario.cfg Scenario.newer_release 1
                "5.3.0-rc1" "5" "3" "0" "rc1" true false 3 [] []
                eq_refl eq_refl eq_refl eq_refl eq_refl eq_refl)))).
Defined.

(** With [--backport] the cut goes through although a newer release
    candidate exists, and the probe is not made. *)
Example cut_backport_skips_probe :
  cutReleaseCommandF Scenario.cfg Scenario.newer_release 1 ["5.3.0-rc1"] true false [] =
  Done nil_error
    [EvWrite (EnrichedResponse "Cut Release" "Release **5.3.0-rc1** is on the way." "#0060aa"
                "in_channel");
     EvGo (mkReleaseTask "5.3.0" "-rc1" "true" true "release-5.3" "5.3.0-rc1");
     EvGetResult "/job/prechecks/7"; EvIsRunning "/job/prechecks/7"; EvPoll "/job/prechecks/7";
     EvSleep 5; EvPoll "/job/prechecks/7"; EvInvoke "prechecks" ∅; EvGetJob "prechecks"; EvInit].
Proof. vm_compute. reflexivity. Qed.

(** C3. The version "12345" has no dot, so it is neither
    [MAJOR.MINOR.PATCH] nor [MAJOR.MINOR.PATCH-rcN]; the unescaped dots of
    [finalVersionRxp] accept it all the same, and with [--backport] the
    handler cuts it: the pre-checks job is looked up, invoked and polled
    and the release goroutine is started. *)
Theorem cut_accepts_dotless_version :
  (forall major minor patch n,
     "12345" <> final_version major minor patch /\ "12345" <> rc_version major minor patch n)
  /\ MatchString finalVersionRxp "12345" = true
  /\ cutReleaseCommandF Scenario.cfg Scenario.jenkins_ok 1 ["12345"] true false [] =
     Done nil_error
       [EvWrite (EnrichedResponse "Cut Release" "Release **12345** is on the way." "#0060aa"
                   "in_channel");
        EvGo (mkReleaseTask "12345" "" "false" true "release-123" "12345");
        EvGetResult "/job/prechecks/7"; EvIsRunning "/job/prechecks/7"; EvPoll "/job/prechecks/7";
        EvSleep 5; EvPoll "/job/prechecks/7"; EvInvoke "prechecks" ∅; EvGetJob "prechecks"; EvInit].
Proof.
  split; [|split].
  - intros major minor patch n.
    assert (Hdot : forall s, has "." s = true -> "12345" <> s).
    { intros s Hs <-. discriminate. }
    split; apply Hdot; unfold rc_version, final_version; rewrite !has_append.
    + change (has "." ".") with true. now rewrite orb_true_r.
    + change (has "." ".") with true. now rewrite !orb_true_r.
  - reflexivity.
  - vm_compute. reflexivity.
Qed.



(** A cut of 5.3.0-rc1 with [--dryrun] on a Jenkins where every job
    succeeds: the pre-checks run, the goroutine of a dry run is started and
    runs the release job, and nothing after it. *)
Example dryrun_cut_stops_after_release :
  let t := mkReleaseTask "5.3.0" "-rc1" "true" false "release-5.3" "5.3.0-rc1" in
  let acknowledged :=
    [EvWrite (EnrichedResponse "Cut Release" "Release **5.3.0-rc1** is on the way." "#0060aa"
                "in_channel");
     EvGoDryRun t;
     EvGetResult "/job/prechecks/7"; EvIsRunning "/job/prechecks/7"; EvPoll "/job/prechecks/7";
     EvSleep 5; EvPoll "/job/prechecks/7"; EvInvoke "prechecks" ∅; EvGetJob "prechecks"; EvInit;
     EvHttpGet "http://releases.mattermost.com/5.4.0-rc1/mattermost-5.4.0-rc1-linux-amd64.tar.gz"] in
  cutReleaseCommandF Scenario.cfg Scenario.jenkins_ok 1 ["5.3.0-rc1"] false true [] =
    Done nil_error acknowledged
  /\ CutRelease_background5 Scenario.cfg Scenario.jenkins_ok 1 t true acknowledged =
    Done tt
      ([EvGetResult "/job/release/8"; EvIsRunning "/job/release/8"; EvPoll "/job/release/8";
        EvSleep 5; EvPoll "/job/release/8";
        EvInvoke "release"
          (<["MM_VERSION" := "5.3.0"]>
            (<["MM_RC" := "-rc1"]> (<["IS_FIRST_MINOR_RELEASE" := "true"]> ∅)));
        EvGetJob "release"; EvInit] ++ acknowledged)%list.
Proof.
  split; vm_compute; reflexivity.
Qed.

(** The same cut without [--dryrun]: the goroutine runs the release job and
    then all four later steps. *)
Example cut_runs_post_release :
  let t := mkReleaseTask "5.3.0" "-rc1" "true" false "release-5.3" "5.3.0-rc1" in
  let acknowledged :=
    [EvWrite (EnrichedResponse "Cut Release" "Release **5.3.0-rc1** is on the way." "#0060aa"
                "in_channel");
     EvGo t;
     EvGetResult "/job/prechecks/7"; EvIsRunning "/job/prechecks/7"; EvPoll "/job/prechecks/7";
     EvSleep 5; EvPoll "/job/prechecks/7"; EvInvoke "prechecks" ∅; EvGetJob "prechecks"; EvInit;
     EvHttpGet "http://releases.mattermost.com/5.4.0-rc1/mattermost-5.4.0-rc1-linux-amd64.tar.gz"] in
  cutReleaseCommandF Scenario.cfg Scenario.jenkins_ok 1 ["5.3.0-rc1"] false false [] =
    Done nil_error acknowledged
  /\ CutRelease_background Scenario.cfg Scenario.jenkins_ok 1 t acknowledged =
    Done tt
      ([EvInvoke "prerelease" ∅; EvGetJob "prerelease"; EvInit;
        EvUpdateConfig "prerelease" "mattermost-enterprise,5.3.0-rc1";
        EvGetJob "prerelease"; EvInit; EvGetConfig "prerelease"; EvGetJob "prerelease"; EvInit;
        EvInvoke "build-pushes/job/release-gitlab.mattermost.com" {["MM_VERSION" := "5.3.0-rc1"]};
        EvGetJob "build-pushes/job/release-gitlab.mattermost.com"; EvInit;
        EvUpdateConfig "ci-b" "mattermost-platform/release-5.3,release-5.3";
        EvGetJob "ci-b"; EvInit; EvGetConfig "ci-b"; EvGetJob "ci-b"; EvInit;
        EvUpdateConfig "ci-a" "mattermost-platform/release-5.3,release-5.3";
        EvGetJob "ci-a"; EvInit; EvGetConfig "ci-a"; EvGetJob "ci-a"; EvInit;
        EvGetResult "/job/release/8"; EvIsRunning "/job/release/8"; EvPoll "/job/release/8";
        EvSleep 5; EvPoll "/job/release/8";
        EvInvoke "release"
          (<["MM_VERSION" := "5.3.0"]>
            (<["MM_RC" := "-rc1"]> (<["IS_FIRST_MINOR_RELEASE" := "true"]> ∅)));
        EvGetJob "release"; EvInit] ++ acknowledged)%list.
Proof.
  split; vm_compute; reflexivity.
Qed.

(** C2. Bob is an allowed user but not a release user.  His request comes
    from the slash command "/matterbuild" with the text
    "cut 5.3.0-rc1 --backport": the permission check, which compares the
    request's [Command] field with "cut", lets it through, the dispatch on
    the first word of [Text] runs the cut handler, and the release is cut. *)
Theorem release_user_check_misses_cut :
  contains (AllowedUsers Scenario.cfg) "bob" = true
  /\ contains (ReleaseUsers Scenario.cfg) "bob" = false
  /\ Fields (TrimSpace (Text Scenario.bob_cuts)) = ["cut"; "5.3.0-rc1"; "--backport"]
  /\ checkSlashPermissions Scenario.cfg Scenario.bob_cuts = None
  /\ slashCommandHandler Scenario.cfg Scenario.jenkins_ok 1 Scenario.bob_cuts [] =
     Done tt
       [EvWrite (EnrichedResponse "Cut Release" "Release **5.3.0-rc1** is on the way." "#0060aa"
                   "in_channel");
        EvGo (mkReleaseTask "5.3.0" "-rc1" "true" true "release-5.3" "5.3.0-rc1");
        EvGetResult "/job/prechecks/7"; EvIsRunning "/job/prechecks/7"; EvPoll "/job/prechecks/7";
        EvSleep 5; EvPoll "/job/prechecks/7"; EvInvoke "prechecks" ∅; EvGetJob "prechecks"; EvInit].
Proof.
  repeat split; vm_compute; reflexivity.
Qed.

(** ** The permission check *)

(** The three tests of [checkSlashPermissions], in their order: the token,
    the user, and, when the [Command] field is "cut", the release users. *)
Lemma checkSlashPermissions_order (Cfg : Config) (command : MMSlashCommand) :
  (contains (AllowedTokens Cfg) (Token command) = false ->
   checkSlashPermissions Cfg command = NewError "Token for slash command is incorrect" nil_error)
  /\ (contains (AllowedTokens Cfg) (Token command) = true ->
      contains (AllowedUsers Cfg) (UserId command) = false ->
      checkSlashPermissions Cfg command =
      NewError "You don't have permissions to use this command." nil_error)
  /\ (contains (AllowedTokens Cfg) (Token command) = true ->
      contains (AllowedUsers Cfg) (UserId command) = true ->
      checkSlashPermissions Cfg command =
      if String.eqb (Command command) "cut" && negb (contains (ReleaseUsers Cfg) (UserId command))
      then NewError "You don't have permissions to use this command." nil_error
      else None).
Proof.
  unfold checkSlashPermissions. repeat split.
  - now intros ->.
  - now intros -> ->.
  - intros -> ->. simpl.
    destruct (String.eqb (Command command) "cut"); [|reflexivity].
    now destruct (contains (ReleaseUsers Cfg) (UserId command)).
Qed.

Lemma contains_In (allowed : list string) (x : string) :
  contains allowed x = true <-> In x allowed.
Proof.
  induction allowed as [|a rest IH]; simpl; [easy|].
  destruct (String.eqb_spec a x) as [->|Hne]; [tauto|].
  rewrite IH. split; [tauto | intros [E|H]; [contradiction | exact H]].
Qed.

(** The same user can run a job, and is refused whatever the text when the
    [Command] field is "cut". *)
Example bob_runs_a_job :
  slashCommandHandler Scenario.cfg Scenario.jenkins_ok 1 Scenario.bob_runs_job [] =
  Done tt
    [EvWrite (EnrichedResponse "Jenkins Job" "Ran job **nightly**" "#0060aa" "in_channel");
     EvInvoke "nightly" ∅; EvGetJob "nightly"; EvInit].
Proof. vm_compute. reflexivity. Qed.

Example bob_refused_on_cut_command :
  slashCommandHandler Scenario.cfg Scenario.jenkins_ok 1
    (mkMMSlashCommand "c1" "builds" "cut" "core" "t1" "runjob nightly" "tok" "bob" "bob") [] =
  Done tt [EvWrite (StandardResponse "You don't have permissions to use this command." "ephemeral")].
Proof. vm_compute. reflexivity. Qed.

(** ** The goroutine of [CutRelease] *)

(** X24. In the goroutine of [CutRelease], once the release job has run:
    the later steps run exactly when the release job ended without error
    with SUCCESS and the release is not a backport; otherwise the goroutine
    ends there and does nothing more. *)
Lemma CutRelease_background_stage (Cfg : Config) (env : Env) (fuel : nat) (t : ReleaseTask)
    (w w' : World) (result : string) (err : option AppError) :
  RunJobWaitForResult env fuel (ReleaseJob Cfg) (release_parameters t) w = Done (result, err) w' ->
  CutRelease_background Cfg env fuel t w =
  if negb (non_nil err) && String.eqb result STATUS_SUCCESS && negb (task_backportRelease t)
  then post_release_stage Cfg env t w'
  else Done tt w'.
Proof.
  intros Hrun. unfold CutRelease_background. unfold bind at 1. rewrite Hrun.
  destruct (non_nil err); [reflexivity|].
  destruct (String.eqb result STATUS_SUCCESS); [|reflexivity].
  destruct (task_backportRelease t); reflexivity.
Qed.

(** ** Errors of the invocation *)

(** C10. When the job is found and Jenkins then refuses the
    invocation ([RunJobWaitForResult], [RunJobParameters]) or the new
    configuration ([SaveJobConfig]), the error returned does not wrap that
    failure: its [Parent] is the nil [*AppError] of the lookup, which as an
    [error] is not nil, so the rendered message is the description followed
    by " |:| No Error (nil)" whatever the cause was. *)
Theorem invoke_failure_hides_cause (env : Env) (fuel : nat) (name config : string)
    (parameters : gmap string string) (next : Z) (w : World) :
  jenkins_Init env (calls Kind.init w) = None ->
  jenkins_GetJob env (calls Kind.getjob w) name = Ok next ->
  (forall cause,
     job_InvokeSimple env (calls Kind.invoke w) name parameters = Some cause ->
     RunJobWaitForResult env fuel name parameters w =
       Done ("", Some (mkAppError "Unable to envoke job." AppError_nil))
         (EvInvoke name parameters :: EvGetJob name :: EvInit :: w)
     /\ RunJobParameters env name parameters w =
       Done (Some (mkAppError "Unable to envoke job." AppError_nil))
         (EvInvoke name parameters :: EvGetJob name :: EvInit :: w))
  /\ (forall cause,
      job_UpdateConfig env (calls Kind.updateconfig w) name config = Some cause ->
      SaveJobConfig env name config w =
        Done (Some (mkAppError "Unable to update job config" AppError_nil))
          (EvUpdateConfig name config :: EvGetJob name :: EvInit :: w))
  /\ (forall description,
      AppError_Error (Some (mkAppError description AppError_nil)) =
      description +:+ " |:| No Error (nil)").
Proof.
  intros Hinit Hjob. split; [|split].
  - intros cause Hinvoke. split.
    + unfold RunJobWaitForResult. unfold bind at 1.
      rewrite (getJob_found env name next w Hinit Hjob). simpl.
      unfold bind, call. simpl. now rewrite Hinvoke.
    + unfold RunJobParameters. unfold bind at 1.
      rewrite (getJob_found env name next w Hinit Hjob). simpl.
      unfold bind, call. simpl. now rewrite Hinvoke.
  - intros cause Hupdate.
    unfold SaveJobConfig. unfold bind at 1.
    rewrite (getJob_found env name next w Hinit Hjob). simpl.
    unfold bind, call. simpl. now rewrite Hupdate.
  - reflexivity.
Qed.

Lemma invoke_failure_hides_cause_witness :
  RunJobWaitForResult Scenario.refusing 1 "nightly" ∅ [] =
    Done ("", Some (mkAppError "Unable to envoke job." AppError_nil))
      [EvInvoke "nightly" ∅; EvGetJob "nightly"; EvInit]
  /\ RunJobParameters Scenario.refusing "nightly" ∅ [] =
    Done (Some (mkAppError "Unable to envoke job." AppError_nil))
      [EvInvoke "nightly" ∅; EvGetJob "nightly"; EvInit].
Proof.
  exact (proj1 (invoke_failure_hides_cause Scenario.refusing 1 "nightly" "<project/>" ∅ 7 []
                  eq_refl eq_refl) "403 Forbidden" eq_refl).
Defined.

(** Against C10 with a nil [Parent]: Jenkins answers "403 Forbidden" to
    the invocation of a job it has found; the [Parent] of the error
    returned is not nil and the message rendered is not the bare
    description. *)
Lemma invoke_failure_parent_not_nil :
  RunJobParameters Scenario.refusing "nightly" ∅ [] =
    Done (Some (mkAppError "Unable to envoke job." AppError_nil))
      [EvInvoke "nightly" ∅; EvGetJob "nightly"; EvInit]
  /\ Parent (mkAppError "Unable to envoke job." AppError_nil) <> nil_error
  /\ AppError_Error (Some (mkAppError "Unable to envoke job." AppError_nil)) =
     "Unable to envoke job. |:| No Error (nil)"
  /\ ~ (exists e w',
         RunJobParameters Scenario.refusing "nightly" ∅ [] = Done (Some e) w'
         /\ Parent e = nil_error).
Proof.
  split; [vm_compute; reflexivity|].
  split; [discriminate|].
  split; [reflexivity|].
  intros (e & w' & Hrun & Hparent).
  vm_compute in Hrun. injection Hrun as <- _. discriminate.
Qed.

(** ** What the two waits of the poller touch *)

Section LoopOnly.

Variable env : Env.
Variable fuel : nat.
Variable P : Event -> Prop.
Variable base : string.
Hypothesis P_poll : P (EvPoll base).
Hypothesis P_running : P (EvIsRunning base).
Hypothesis P_result : P (EvGetResult base).
Hypothesis P_sleep : forall seconds, P (EvSleep seconds).

Lemma Build_Poll_asks : emits P (Build_Poll env base).
Proof using P_poll. unfold Build_Poll. now apply emits_call. Qed.

Lemma reach_loop_asks (n : nat) :
  forall next tries status err3, only P (reach_loop env n base next tries status err3).
Proof using P_poll P_sleep.
  induction n as [|n IH]; intros next tries status err3; simpl;
    destruct (negb (is_nil err3) || negb (status =? 200));
    try apply only_ret; try apply only_out_of_fuel.
  apply only_bind; [apply emits_only, Build_Poll_asks | intros [status' err3']].
  destruct (5 <=? tries); [apply only_ret|].
  apply only_bind; [apply emits_only, emits_emit, P_sleep | intros _; apply IH].
Qed.

Lemma wait_loop_asks (n : nat) : only P (wait_loop env n base).
Proof using P_poll P_running P_sleep.
  induction n as [|n IH]; simpl; [apply only_out_of_fuel|].
  apply only_bind; [apply emits_only; now apply emits_call | intros running].
  destruct running; [|apply only_ret].
  apply only_bind; [apply emits_only, emits_emit, P_sleep | intros _].
  apply only_bind; [apply emits_only, Build_Poll_asks | intros _; apply IH].
Qed.

Lemma wait_for_result_asks : only P (wait_for_result env fuel base).
Proof using P_poll P_running P_result P_sleep.
  unfold wait_for_result.
  apply only_bind; [apply emits_only, emits_emit, P_sleep | intros _].
  apply only_bind; [apply emits_only, Build_Poll_asks | intros _].
  apply only_bind; [apply wait_loop_asks | intros _].
  apply only_bind; [apply emits_only; now apply emits_call | intros res; apply only_ret].
Qed.

End LoopOnly.

(** ** What the Jenkins helpers touch *)

Section JenkinsOnly.

Variable Cfg : Config.
Variable env : Env.
Variable fuel : nat.
Variable P : Event -> Prop.
Hypothesis P_jenkins : forall e, jenkins_event e -> P e.

Lemma getJob_jenkins (name : string) : emits P (getJob env name).
Proof using P_jenkins. apply getJob_emits; intros; apply P_jenkins; exact I. Qed.

Lemma GetJobConfig_jenkins (name : string) : emits P (GetJobConfig env name).
Proof using P_jenkins. apply GetJobConfig_emits; intros; apply P_jenkins; exact I. Qed.

Lemma SaveJobConfig_jenkins (name config : string) : emits P (SaveJobConfig env name config).
Proof using P_jenkins. apply SaveJobConfig_emits; intros; apply P_jenkins; exact I. Qed.

Lemma RunJobParameters_jenkins (name : string) (parameters : gmap string string) :
  emits P (RunJobParameters env name parameters).
Proof using P_jenkins. apply RunJobParameters_emits; intros; apply P_jenkins; exact I. Qed.

Lemma wait_for_result_jenkins (base : string) : only P (wait_for_result env fuel base).
Proof using P_jenkins.
  apply wait_for_result_asks; intros; apply P_jenkins; exact I.
Qed.

Lemma reach_loop_jenkins (n : nat) (base : string) (next tries status : Z) (err3 : error) :
  only P (reach_loop env n base next tries status err3).
Proof using P_jenkins.
  apply reach_loop_asks; intros; apply P_jenkins; exact I.
Qed.

Lemma RunJobWaitForResult_jenkins (name : string) (parameters : gmap string string) :
  only P (RunJobWaitForResult env fuel name parameters).
Proof using P_jenkins.
  unfold RunJobWaitForResult.
  apply only_bind; [apply emits_only, getJob_jenkins | intros [job|err]]; [|apply only_ret].
  apply only_bind; [apply emits_only, emits_call, P_jenkins; exact I | intros [msg|]];
    [apply only_ret|].
  apply only_bind; [apply emits_only, emits_call, P_jenkins; exact I | intros [status err3]].
  apply only_bind; [apply reach_loop_jenkins | intros [e|]]; [apply only_ret|].
  apply wait_for_result_jenkins.
Qed.

Lemma SetCIServerBranch_from_jenkins (jobs : list string) (branch : string) :
  only P (SetCIServerBranch_from env jobs branch).
Proof using P_jenkins.
  induction jobs as [|serverjob jobs IH]; simpl; [apply only_ret|].
  apply only_bind; [apply emits_only, GetJobConfig_jenkins | intros [config err]].
  destruct err; [apply only_ret|].
  destruct (etree_ReadFromString env config) as [[jConfig|]|msg];
    [| apply only_panic | apply only_ret].
  destruct (FindElement jConfig default_branch_path); [|apply only_ret].
  destruct (FindElement (SetText default_branch_path branch jConfig) upstream_projects_path);
    [|apply only_ret].
  destruct (etree_WriteToString env _) as [out|msg]; [|apply only_ret].
  apply only_bind; [apply emits_only, SaveJobConfig_jenkins
                   | intros [e|]; [apply only_ret | exact IH]].
Qed.

Lemma SetPreReleaseTarget_jenkins (target : string) : only P (SetPreReleaseTarget Cfg env target).
Proof using P_jenkins.
  unfold SetPreReleaseTarget.
  apply only_bind; [apply emits_only, GetJobConfig_jenkins | intros [config err]].
  destruct err; [apply only_ret|].
  destruct (etree_ReadFromString env config) as [[jConfig|]|msg];
    [| apply only_panic | apply only_ret].
  destruct (FindElement jConfig default_branch_path); [|apply only_ret].
  destruct (etree_WriteToString env _) as [out|msg]; [|apply only_ret].
  apply only_bind; [apply emits_only, SaveJobConfig_jenkins | intros [e|]; apply only_ret].
Qed.

Lemma post_release_stage_jenkins (t : ReleaseTask) : only P (post_release_stage Cfg env t).
Proof using P_jenkins.
  unfold post_release_stage, SetCIServerBranch, RunJob.
  apply only_bind; [apply SetCIServerBranch_from_jenkins | intros _].
  apply only_bind; [apply emits_only, RunJobParameters_jenkins | intros _].
  apply only_bind; [apply SetPreReleaseTarget_jenkins | intros _].
  apply only_bind; [apply emits_only, RunJobParameters_jenkins | intros _; apply only_ret].
Qed.

Lemma CutRelease_background_jenkins (t : ReleaseTask) : only P (CutRelease_background Cfg env fuel t).
Proof using P_jenkins.
  unfold CutRelease_background.
  apply only_bind; [apply RunJobWaitForResult_jenkins | intros [result err]].
  destruct (non_nil err || negb (String.eqb result STATUS_SUCCESS)); [apply only_ret|].
  destruct (negb (task_backportRelease t)); [|apply only_ret].
  exact (post_release_stage_jenkins t).
Qed.

Lemma RunReleasePrechecks_jenkins : only P (RunReleasePrechecks Cfg env fuel).
Proof using P_jenkins.
  unfold RunReleasePrechecks.
  apply only_bind; [apply RunJobWaitForResult_jenkins | intros [result err]].
  destruct (non_nil err || negb (String.eqb result STATUS_SUCCESS)); apply only_ret.
Qed.

End JenkinsOnly.

Lemma SetPreReleaseTarget_ends (Cfg : Config) (env : Env) (target : string) :
  ends (SetPreReleaseTarget Cfg env target).
Proof.
  unfold SetPreReleaseTarget.
  apply ends_bind; [apply GetJobConfig_ends | intros [config err]].
  destruct err; [apply ends_ret|].
  destruct (etree_ReadFromString env config) as [[jConfig|]|msg];
    [| apply ends_panic | apply ends_ret].
  destruct (FindElement jConfig default_branch_path); [|apply ends_ret].
  destruct (etree_WriteToString env _) as [out|msg]; [|apply ends_ret].
  apply ends_bind; [apply SaveJobConfig_ends | intros [e|]; apply ends_ret].
Qed.

(** X10. The helpers of the Jenkins file touch nothing but the Jenkins
    client and the clock.  Whatever Jenkins answers, [GetJobConfig],
    [SaveJobConfig] and [RunJobParameters] return, and
    [SetCIServerBranch] and [SetPreReleaseTarget] return or panic (on a
    configuration without root element); every event these, and
    [RunJobWaitForResult] and the goroutine of [CutRelease], add up to
    their return or their panic is a Jenkins call or a sleep: no response
    is written, no HTTP probe is made and no goroutine is started. *)
Theorem helpers_touch_only_jenkins (Cfg : Config) (env : Env) (fuel : nat)
    (name config branch target : string) (parameters : gmap string string) (t : ReleaseTask) :
  emits jenkins_event (GetJobConfig env name)
  /\ emits jenkins_event (SaveJobConfig env name config)
  /\ emits jenkins_event (RunJobParameters env name parameters)
  /\ (only jenkins_event (SetCIServerBranch Cfg env branch)
      /\ ends (SetCIServerBranch Cfg env branch))
  /\ (only jenkins_event (SetPreReleaseTarget Cfg env target)
      /\ ends (SetPreReleaseTarget Cfg env target))
  /\ only jenkins_event (RunJobWaitForResult env fuel name parameters)
  /\ only jenkins_event (CutRelease_background Cfg env fuel t).
Proof.
  repeat split.
  - now apply GetJobConfig_jenkins.
  - now apply SaveJobConfig_jenkins.
  - now apply RunJobParameters_jenkins.
  - now apply SetCIServerBranch_from_jenkins.
  - apply SetCIServerBranch_from_ends.
  - now apply SetPreReleaseTarget_jenkins.
  - apply SetPreReleaseTarget_ends.
  - now apply RunJobWaitForResult_jenkins.
  - now apply CutRelease_background_jenkins.
Qed.

(** ** Rendering of errors *)

(** X1. [Error()] of an [*AppError] that wraps another [*AppError] is the
    outer description, " |:| " and the rendering of the inner one, a nil
    inner pointer being rendered as "No Error (nil)"; with a library error
    as parent it ends in that error's message, and with no parent it is the
    description alone. *)
Theorem AppError_Error_chain (description : string) :
  (forall inner : option AppError,
     AppError_Error (NewError description (as_error inner)) =
     description +:+ " |:| " +:+ AppError_Error inner)
  /\ (forall msg,
        AppError_Error (NewError description (lib_error msg)) = description +:+ " |:| " +:+ msg)
  /\ AppError_Error (NewError description nil_error) = description.
Proof.
  split; [|split; reflexivity].
  intros [[d p]|]; [|reflexivity].
  unfold AppError_Error, NewError, as_error. simpl.
  now destruct (is_nil p).
Qed.

(** ** Who may run a command *)

Lemma contains_false (allowed : list string) (x : string) :
  contains allowed x = false <-> ~ In x allowed.
Proof.
  rewrite <- contains_In. destruct (contains allowed x); split; congruence.
Qed.

Lemma checkSlashPermissions_accepts (Cfg : Config) (command : MMSlashCommand) :
  checkSlashPermissions Cfg command = None <->
  In (Token command) (AllowedTokens Cfg)
  /\ In (UserId command) (AllowedUsers Cfg)
  /\ (Command command = "cut" -> In (UserId command) (ReleaseUsers Cfg)).
Proof.
  unfold checkSlashPermissions. rewrite <- !contains_In.
  destruct (contains (AllowedTokens Cfg) (Token command)); simpl;
    [|split; [discriminate | intros (? & _); discriminate]].
  destruct (contains (AllowedUsers Cfg) (UserId command)); simpl;
    [|split; [discriminate | intros (_ & ? & _); discriminate]].
  destruct (String.eqb_spec (Command command) "cut") as [Hcut|Hcut].
  - destruct (contains (ReleaseUsers Cfg) (UserId command)); simpl.
    + tauto.
    + split; [discriminate | intros (_ & _ & H); specialize (H Hcut); discriminate].
  - tauto.
Qed.

(** X2. [checkSlashPermissions] lets a request through exactly when its
    token is one of the allowed tokens, its user id one of the allowed
    users and, if its [Command] field is "cut", also one of the release
    users.  A refusal for the token carries the token message, any other
    refusal the permission message, and both carry no parent. *)
Theorem checkSlashPermissions_verdict (Cfg : Config) (command : MMSlashCommand) :
  (checkSlashPermissions Cfg command = None <->
   In (Token command) (AllowedTokens Cfg)
   /\ In (UserId command) (AllowedUsers Cfg)
   /\ (Command command = "cut" -> In (UserId command) (ReleaseUsers Cfg)))
  /\ (~ In (Token command) (AllowedTokens Cfg) ->
      checkSlashPermissions Cfg command = NewError "Token for slash command is incorrect" nil_error)
  /\ (In (Token command) (AllowedTokens Cfg) ->
      checkSlashPermissions Cfg command <> None ->
      checkSlashPermissions Cfg command =
      NewError "You don't have permissions to use this command." nil_error).
Proof.
  split; [apply checkSlashPermissions_accepts|]. split.
  - intros Htoken%contains_false. unfold checkSlashPermissions. now rewrite Htoken.
  - intros Htoken%contains_In. unfold checkSlashPermissions. rewrite Htoken. simpl.
    destruct (contains (AllowedUsers Cfg) (UserId command)); simpl; [|reflexivity].
    destruct (String.eqb (Command command) "cut"); [|congruence].
    destruct (contains (ReleaseUsers Cfg) (UserId command)); simpl; [congruence | reflexivity].
Qed.

Lemma checkSlashPermissions_verdict_witness :
  checkSlashPermissions Scenario.cfg (Scenario2.alice_says "cut 5.3.0") = None
  /\ checkSlashPermissions Scenario.cfg
       (mkMMSlashCommand "" "" "cut" "" "" "" "tok" "bob" "bob") =
     NewError "You don't have permissions to use this command." nil_error.
Proof.
  split.
  - apply (proj1 (checkSlashPermissions_verdict Scenario.cfg (Scenario2.alice_says "cut 5.3.0"))).
    simpl. split; [tauto|]. split; [tauto|]. intros H. discriminate H.
  - apply (proj2 (proj2 (checkSlashPermissions_verdict Scenario.cfg
                           (mkMMSlashCommand "" "" "cut" "" "" "" "tok" "bob" "bob")))).
    + simpl. tauto.
    + discriminate.
Defined.

(** X3. A request that the permission check refuses is answered with one
    ephemeral response that carries the refusal, and nothing else happens,
    whatever its text: no word of it is interpreted and no call leaves the
    process. *)
Theorem refused_request_runs_nothing (Cfg : Config) (env : Env) (fuel : nat)
    (command : MMSlashCommand) (w : World) :
  ~ (In (Token command) (AllowedTokens Cfg)
     /\ In (UserId command) (AllowedUsers Cfg)
     /\ (Command command = "cut" -> In (UserId command) (ReleaseUsers Cfg))) ->
  exists description,
    checkSlashPermissions Cfg command = NewError description nil_error
    /\ slashCommandHandler Cfg env fuel command w =
       Done tt (EvWrite (StandardResponse description EPHEMERAL) :: w).
Proof.
  intros Hrefused. rewrite <- checkSlashPermissions_accepts in Hrefused.
  unfold slashCommandHandler.
  assert (Hshape : exists description,
             checkSlashPermissions Cfg command = NewError description nil_error).
  { unfold checkSlashPermissions in *.
    repeat match goal with
           | |- context [if ?b then _ else _] => destruct b; simpl in *
           end; eauto; congruence. }
  destruct Hshape as (description & Hcheck). exists description.
  rewrite Hcheck. split; reflexivity.
Qed.

Lemma refused_request_runs_nothing_witness :
  exists description,
    checkSlashPermissions Scenario.cfg
      (mkMMSlashCommand "c1" "builds" "/matterbuild" "core" "t1" "cut 5.3.0" "stolen" "alice" "alice")
    = NewError description nil_error
    /\ slashCommandHandler Scenario.cfg Scenario.jenkins_ok 1
         (mkMMSlashCommand "c1" "builds" "/matterbuild" "core" "t1" "cut 5.3.0" "stolen" "alice" "alice")
         [] =
       Done tt [EvWrite (StandardResponse description EPHEMERAL)].
Proof.
  apply (refused_request_runs_nothing Scenario.cfg Scenario.jenkins_ok 1
           (mkMMSlashCommand "c1" "builds" "/matterbuild" "core" "t1" "cut 5.3.0" "stolen"
              "alice" "alice") []).
  simpl. intros ([H|[]] & _). discriminate H.
Defined.

(** ** Failures of the job lookup *)

(** X4. When the connection to Jenkins fails, every helper returns the
    "Unable to connect to jenkins!" error that wraps the cause, unchanged,
    after that one attempt: no job is looked up, configured, invoked or
    polled.  [SetCIServerBranch] stops at its first job. *)
Theorem connection_failure_propagates (Cfg : Config) (env : Env) (fuel : nat)
    (name config target branch cause : string) (parameters : gmap string string)
    (serverjob : string) (jobs : list string) (w : World) :
  jenkins_Init env (calls Kind.init w) = Some cause ->
  let e := mkAppError "Unable to connect to jenkins!" (lib_error cause) in
  GetJobConfig env name w = Done ("", Some e) (EvInit :: w)
  /\ SaveJobConfig env name config w = Done (Some e) (EvInit :: w)
  /\ RunJobParameters env name parameters w = Done (Some e) (EvInit :: w)
  /\ RunJobWaitForResult env fuel name parameters w = Done ("", Some e) (EvInit :: w)
  /\ SetPreReleaseTarget Cfg env target w = Done (Some e) (EvInit :: w)
  /\ SetCIServerBranch_from env (serverjob :: jobs) branch w = Done (Some e) (EvInit :: w)
  /\ AppError_Error (Some e) = "Unable to connect to jenkins! |:| " +:+ cause.
Proof.
  intros Hinit e.
  assert (Hjob : forall n, getJob env n w = Done (inr e) (EvInit :: w)).
  { intros n. unfold getJob, getJenkins. run. now rewrite Hinit. }
  repeat split.
  - unfold GetJobConfig, bind. now rewrite Hjob.
  - unfold SaveJobConfig, bind. now rewrite Hjob.
  - unfold RunJobParameters, bind. now rewrite Hjob.
  - unfold RunJobWaitForResult, bind. now rewrite Hjob.
  - unfold SetPreReleaseTarget, GetJobConfig, bind. now rewrite Hjob.
  - simpl. unfold GetJobConfig, bind. now rewrite Hjob.
Qed.

Lemma connection_failure_propagates_witness :
  RunJobWaitForResult Scenario2.no_jenkins 1 "release" ∅ [] =
  Done ("", Some (mkAppError "Unable to connect to jenkins!"
                    (lib_error "dial tcp: connection refused"))) [EvInit].
Proof.
  exact (proj1 (proj2 (proj2 (proj2
           (connection_failure_propagates Scenario.cfg Scenario2.no_jenkins 1 "release" "" "" ""
              "dial tcp: connection refused" ∅ "ci-a" [] [] eq_refl))))).
Defined.

(** X5. When Jenkins is reached but does not know the job, every helper
    returns the "Unable to get job" error that wraps the cause after the
    lookup alone: nothing is read, written, invoked or polled. *)
Theorem unknown_job_propagates (env : Env) (fuel : nat)
    (name config branch cause : string) (parameters : gmap string string)
    (jobs : list string) (w : World) :
  jenkins_Init env (calls Kind.init w) = None ->
  jenkins_GetJob env (calls Kind.getjob w) name = Err cause ->
  let e := mkAppError "Unable to get job" (lib_error cause) in
  let w' := EvGetJob name :: EvInit :: w in
  GetJobConfig env name w = Done ("", Some e) w'
  /\ SaveJobConfig env name config w = Done (Some e) w'
  /\ RunJobParameters env name parameters w = Done (Some e) w'
  /\ RunJobWaitForResult env fuel name parameters w = Done ("", Some e) w'
  /\ SetCIServerBranch_from env (name :: jobs) branch w = Done (Some e) w'
  /\ AppError_Error (Some e) = "Unable to get job |:| " +:+ cause.
Proof.
  intros Hinit Hget e w'.
  assert (Hjob : getJob env name w = Done (inr e) w').
  { unfold getJob, getJenkins. run. rewrite Hinit. simpl. now rewrite Hget. }
  repeat split.
  - unfold GetJobConfig, bind. now rewrite Hjob.
  - unfold SaveJobConfig, bind. now rewrite Hjob.
  - unfold RunJobParameters, bind. now rewrite Hjob.
  - unfold RunJobWaitForResult, bind. now rewrite Hjob.
  - simpl. unfold GetJobConfig, bind. now rewrite Hjob.
Qed.

Lemma unknown_job_propagates_witness :
  RunJobParameters Scenario2.no_job "nightly" ∅ [] =
  Done (Some (mkAppError "Unable to get job" (lib_error "404"))) [EvGetJob "nightly"; EvInit].
Proof.
  exact (proj1 (proj2 (proj2
           (unknown_job_propagates Scenario2.no_job 1 "nightly" "" "" "404" ∅ [] []
              eq_refl eq_refl)))).
Defined.

(** ** Running a job *)

(** X6. [runjob NAME] answers "Ran job **NAME**" exactly when Jenkins was
    reached, knew the job and accepted the invocation, and then the job has
    been invoked once, with no parameter; in every other case it returns
    an error to the dispatcher and writes nothing itself. *)
Theorem runJobCmdF_reports_truthfully (env : Env) (name : string) (rest : list string)
    (w : World) :
  let started :=
    jenkins_Init env (calls Kind.init w) = None
    /\ (exists next, jenkins_GetJob env (calls Kind.getjob w) name = Ok next)
    /\ job_InvokeSimple env (calls Kind.invoke w) name ∅ = None in
  exists err w',
    runJobCmdF env (name :: rest) w = Done err w'
    /\ (err = nil_error <-> started)
    /\ (err = nil_error ->
        w' = EvWrite (EnrichedResponse "Jenkins Job" ("Ran job **" +:+ name +:+ "**") "#0060aa"
                        IN_CHANNEL)
             :: EvInvoke name ∅ :: EvGetJob name :: EvInit :: w)
    /\ (err <> nil_error -> calls is_write w' = calls is_write w).
Proof.
  intros started. unfold started.
  unfold runJobCmdF, RunJob, RunJobParameters, getJob, getJenkins.
  unfold bind, call, ret, WriteEnrichedResponse, emit. simpl.
  destruct (jenkins_Init env (calls Kind.init w)) as [cause|]; simpl.
  { do 2 eexists. split; [reflexivity|]. split; [|split]; try discriminate; try reflexivity.
    split; [discriminate | intros (H & _); discriminate]. }
  destruct (jenkins_GetJob env (calls Kind.getjob w) name) as [next|cause]; simpl.
  2:{ do 2 eexists. split; [reflexivity|]. split; [|split]; try discriminate; try reflexivity.
      split; [discriminate | intros (_ & (next & H) & _); discriminate]. }
  destruct (job_InvokeSimple env (calls Kind.invoke w) name ∅) as [cause|]; simpl.
  { do 2 eexists. split; [reflexivity|]. split; [|split]; try discriminate; try reflexivity.
    split; [discriminate | intros (_ & _ & H); discriminate]. }
  do 2 eexists. split; [reflexivity|]. split; [|split]; try reflexivity; try congruence.
  split; [|reflexivity]. intros _. eauto.
Qed.

(** ** The bounds of the two waits *)

Lemma calls_app (kind : Event -> bool) (a b : list Event) :
  calls kind (a ++ b)%list = (calls kind a + calls kind b)%nat.
Proof.
  induction a as [|e a IH]; simpl; [reflexivity|].
  destruct (kind e); rewrite IH; reflexivity.
Qed.

Lemma slept_app (a b : list Event) : slept (a ++ b)%list = slept a + slept b.
Proof.
  induction a as [|e a IH]; simpl; [reflexivity|].
  destruct e; rewrite ?IH; lia.
Qed.

Lemma reach_loop_budget (env : Env) (base : string) (next : Z) (n : nat) :
  forall (tries status : Z) (err3 : error) (w : World),
    1 <= tries <= 5 -> 6 - tries <= Z.of_nat n ->
    exists r added,
      reach_loop env n base next tries status err3 w = Done r (added ++ w)%list
      /\ Z.of_nat (calls Kind.poll added) <= 6 - tries
      /\ 2 * slept added <= (4 + tries) * (5 - tries)
      /\ 0 <= slept added.
Proof.
  induction n as [|n IH]; intros tries status err3 w Htries Hn; [lia|].
  simpl. destruct (negb (is_nil err3) || negb (status =? 200)).
  2:{ exists None, []. simpl. repeat split; try reflexivity; nia. }
  unfold Build_Poll. run.
  destruct (poll_reply env (calls Kind.poll w) base) as [status' err3'].
  destruct (Z.leb_spec 5 tries) as [Hlast|Hmore].
  - eexists _, [EvPoll base]. simpl. repeat split; try reflexivity; nia.
  - replace (wrap64 (tries + 1)) with (tries + 1)
      by (unfold wrap64; rewrite Z.mod_small; lia).
    destruct (IH (tries + 1) status' err3' (EvSleep tries :: EvPoll base :: w))
      as (r & added & Hrun & Hpolls & Hslept & Hpos); [lia | lia |].
    exists r, (added ++ [EvSleep tries; EvPoll base])%list.
    rewrite Hrun, <- List.app_assoc. split; [reflexivity|].
    rewrite calls_app, slept_app. simpl. repeat split; nia.
Qed.

(** X7. The reachability loop of [RunJobWaitForResult] is bounded: entered
    after the first poll, it always ends within five rounds, after at most
    five more polls and at most ten seconds of sleep, whatever the build
    answers. *)
Theorem reach_loop_bounded (env : Env) (fuel : nat) (base : string) (next status : Z)
    (err3 : error) (w : World) :
  (5 <= fuel)%nat ->
  exists r added,
    reach_loop env fuel base next 1 status err3 w = Done r (added ++ w)%list
    /\ (calls Kind.poll added <= 5)%nat
    /\ 0 <= slept added <= 10.
Proof.
  intros Hfuel.
  destruct (reach_loop_budget env base next fuel 1 status err3 w)
    as (r & added & Hrun & Hpolls & Hslept & Hpos); [lia | lia |].
  exists r, added. split; [exact Hrun|]. split; lia.
Qed.

Lemma reach_loop_bounded_witness :
  exists r added,
    reach_loop Scenario.lost_build 5 "/job/release/7" 7 1 0 (lib_error "connection refused") [] =
      Done r (added ++ [])%list
    /\ (calls Kind.poll added <= 5)%nat
    /\ 0 <= slept added <= 10.
Proof.
  apply (reach_loop_bounded Scenario.lost_build 5 "/job/release/7" 7 0
           (lib_error "connection refused") []).
  lia.
Defined.

Example reach_loop_worst_case :
  reach_loop Scenario.lost_build 5 "/job/release/7" 7 1 0 (lib_error "connection refused") [] =
  Done (NewError "Unable to get build for pre-checks job: 7" (lib_error "connection refused"))
    [EvPoll "/job/release/7"; EvSleep 4; EvPoll "/job/release/7"; EvSleep 3;
     EvPoll "/job/release/7"; EvSleep 2; EvPoll "/job/release/7"; EvSleep 1;
     EvPoll "/job/release/7"].
Proof. vm_compute. reflexivity. Qed.

Lemma wait_loop_endless (env : Env) (base : string) (n : nat) :
  (forall k, build_IsRunning env k base = true) ->
  forall w, wait_loop env n base w = OutOfFuel.
Proof.
  intros Hrun. induction n as [|n IH]; intros w; [reflexivity|].
  simpl. run. rewrite Hrun. unfold Build_Poll. run. apply IH.
Qed.

(** X8. The completion wait of [RunJobWaitForResult] has no bound: on a
    build that is reachable and that is reported running at every test, no
    number of rounds is enough for the function to return. *)
Theorem completion_wait_unbounded (env : Env) (name : string)
    (parameters : gmap string string) (next : Z) (w : World) :
  jenkins_Init env (calls Kind.init w) = None ->
  jenkins_GetJob env (calls Kind.getjob w) name = Ok next ->
  job_InvokeSimple env (calls Kind.invoke w) name parameters = None ->
  build_Poll env (calls Kind.poll w) (build_base name next) = Ok 200 ->
  (forall k, build_IsRunning env k (build_base name next) = true) ->
  forall fuel, RunJobWaitForResult env fuel name parameters w = OutOfFuel.
Proof.
  intros Hinit Hjob Hinvoke Hpoll Hrun fuel.
  rewrite (RunJobWaitForResult_reaches env fuel name parameters next w 0); auto; try lia.
  - unfold wait_for_result, Build_Poll. run.
    now rewrite (wait_loop_endless env (build_base name next) fuel Hrun).
  - rewrite Nat.add_0_r. exact Hpoll.
Qed.

Lemma completion_wait_unbounded_witness :
  RunJobWaitForResult Scenario2.endless_build 1000 "release" ∅ [] = OutOfFuel.
Proof.
  exact (completion_wait_unbounded Scenario2.endless_build "release" ∅ 7 []
           eq_refl eq_refl eq_refl eq_refl (fun _ => eq_refl) 1000%nat).
Defined.

(** X9. A run of [RunJobWaitForResult] that has found the job invokes it
    once, with the parameters it was given, and after that only sleeps and
    asks about one build: the one whose number the job announced before the
    invocation. *)
Theorem RunJobWaitForResult_one_build (env : Env) (fuel : nat) (name : string)
    (parameters : gmap string string) (next : Z) (w : World) :
  jenkins_Init env (calls Kind.init w) = None ->
  jenkins_GetJob env (calls Kind.getjob w) name = Ok next ->
  match RunJobWaitForResult env fuel name parameters w with
  | Done _ w' | Panicked _ w' =>
      exists rest,
        w' = (rest ++ EvInvoke name parameters :: EvGetJob name :: EvInit :: w)%list
        /\ Forall (asks_build (build_base name next)) rest
  | OutOfFuel => True
  end.
Proof.
  intros Hinit Hjob. unfold RunJobWaitForResult. unfold bind at 1.
  rewrite (getJob_found env name next w Hinit Hjob). simpl.
  unfold bind at 1. unfold call at 1. simpl.
  set (w0 := EvInvoke name parameters :: EvGetJob name :: EvInit :: w).
  destruct (job_InvokeSimple env (calls Kind.invoke w) name parameters) as [cause|].
  { simpl. exists []. split; [reflexivity | constructor]. }
  set (base := build_base name next).
  assert (Hwaits : only (asks_build base)
            (bind (Build_Poll env base)
               (fun '(status, err3) =>
                  bind (reach_loop env fuel base next 1 status err3)
                    (fun r => match r with
                              | Some e => ret ("", Some e)
                              | None => wait_for_result env fuel base
                              end)))).
  { apply only_bind; [apply emits_only, Build_Poll_asks; reflexivity | intros [status err3]].
    apply only_bind; [apply reach_loop_asks; intros; reflexivity | intros [e|]].
    - apply only_ret.
    - apply wait_for_result_asks; intros; reflexivity. }
  exact (Hwaits w0).
Qed.

Lemma RunJobWaitForResult_one_build_witness :
  match RunJobWaitForResult Scenario.slow_build 4 "release" ∅ [] with
  | Done _ w' | Panicked _ w' =>
      exists rest,
        w' = (rest ++ [EvInvoke "release" ∅; EvGetJob "release"; EvInit])%list
        /\ Forall (asks_build "/job/release/7") rest
  | OutOfFuel => True
  end.
Proof.
  exact (RunJobWaitForResult_one_build Scenario.slow_build 4 "release" ∅ 7 [] eq_refl eq_refl).
Defined.

(** ** Rewriting job configurations *)

(** Case analysis on every reply the goal waits for. *)
Ltac case_replies env :=
  repeat match goal with
         | |- context [jenkins_Init env ?n] => destruct (jenkins_Init env n) eqn:?; simpl
         | |- context [jenkins_GetJob env ?n ?x] => destruct (jenkins_GetJob env n x) eqn:?; simpl
         | |- context [job_GetConfig env ?n ?x] => destruct (job_GetConfig env n x) eqn:?; simpl
         | |- context [etree_ReadFromString env ?x] =>
             destruct (etree_ReadFromString env x) as [[?|]|?] eqn:?; simpl
         | |- context [FindElement ?d ?x] => destruct (FindElement d x) eqn:?; simpl
         | |- context [etree_WriteToString env ?d] =>
             destruct (etree_WriteToString env d) eqn:?; simpl
         | |- context [job_UpdateConfig env ?n ?x ?c] =>
             destruct (job_UpdateConfig env n x c) eqn:?; simpl
         end.

(** The events a run that has ended has added, read off the explicit
    history. *)
Ltac name_added :=
  first
    [ eexists []; split; [reflexivity|]
    | eexists [_]; split; [reflexivity|]
    | eexists [_; _]; split; [reflexivity|]
    | eexists [_; _; _]; split; [reflexivity|]
    | eexists [_; _; _; _]; split; [reflexivity|]
    | eexists [_; _; _; _; _]; split; [reflexivity|]
    | eexists [_; _; _; _; _; _]; split; [reflexivity|] ].

(** X11. [SetPreReleaseTarget target] returns or panics.  When it returns
    it has sent Jenkins at most one configuration, for the pre-release job
    and no other, which is the text of a document whose default value is
    [target]; when it reports no error it has sent exactly one.  When it
    panics (the configuration had no root element) it has sent none. *)
Theorem SetPreReleaseTarget_sends_target (Cfg : Config) (env : Env) (target : string)
    (w : World) :
  match SetPreReleaseTarget Cfg env target w with
  | Done r w' =>
      exists added,
        w' = (added ++ w)%list
        /\ Forall (prerelease_written Cfg env target) added
        /\ (calls Kind.updateconfig added <= 1)%nat
        /\ (r = None -> calls Kind.updateconfig added = 1%nat)
  | Panicked _ w' =>
      exists added, w' = (added ++ w)%list /\ calls Kind.updateconfig added = 0%nat
  | OutOfFuel => False
  end.
Proof.
  unfold SetPreReleaseTarget, GetJobConfig, SaveJobConfig, getJob, getJenkins.
  unfold bind, call, ret, panic. simpl.
  case_replies env; name_added; try reflexivity.
  all: split; [repeat constructor | split; [simpl; lia | try discriminate; auto]].
  all: eexists; split; [eassumption | apply lookup_insert_eq].
Qed.

Example SetPreReleaseTarget_rootless :
  SetPreReleaseTarget Scenario.cfg Scenario2.rootless_configs "5.3.0-rc1" [] =
  Panicked nil_dereference [EvGetConfig "prerelease"; EvGetJob "prerelease"; EvInit].
Proof. vm_compute. reflexivity. Qed.

Lemma take_snoc_rev (serverjob : string) (jobs : list string) (k : nat) :
  (rev (take k jobs) ++ [serverjob])%list = rev (take (S k) (serverjob :: jobs)).
Proof. reflexivity. Qed.

(** X12. [SetCIServerBranch] goes through the configured CI jobs in order
    and stops at the first failure without undoing anything: whether it
    reports no error, reports one, or panics on a configuration without
    root element, the jobs it has sent a configuration to are a prefix of
    the list; the whole list when it reports no error, and not the whole
    list when it panics. *)
Theorem SetCIServerBranch_updates_prefix (env : Env) (branch : string) (jobs : list string) :
  forall w,
    match SetCIServerBranch_from env jobs branch w with
    | Done r w' =>
        exists k added,
          w' = (added ++ w)%list
          /\ omap updated_job added = rev (take k jobs)
          /\ (r = None -> k = length jobs)
    | Panicked _ w' =>
        exists k added,
          w' = (added ++ w)%list
          /\ omap updated_job added = rev (take k jobs)
          /\ (k < length jobs)%nat
    | OutOfFuel => False
    end.
Proof.
  induction jobs as [|serverjob jobs IH]; intros w.
  - exists 0%nat, []. split; [reflexivity|]. split; reflexivity.
  - simpl SetCIServerBranch_from. unfold GetJobConfig, SaveJobConfig, getJob, getJenkins.
    unfold bind, call, ret, panic. simpl.
    case_replies env.
    all: try solve [exists 0%nat; name_added; split;
                      [reflexivity | first [discriminate | simpl; lia]]].
    all: try solve [exists 1%nat; name_added; split; [reflexivity | discriminate]].
    all: match goal with
         | |- context [SetCIServerBranch_from _ _ _ ?w1] =>
             specialize (IH w1);
             destruct (SetCIServerBranch_from env jobs branch w1) as [r w2|msg w2|];
             [| | exact IH]
         end.
    all: destruct IH as (k & added & -> & Hnames & Hk).
    all: exists (S k); eexists (added ++ [_; _; _; _; _; _])%list.
    all: split; [now rewrite <- List.app_assoc|].
    all: split; [rewrite omap_app, Hnames; apply take_snoc_rev|].
    all: first [intros Hr; simpl; f_equal; auto | simpl; lia].
Qed.

Lemma lookup_other_two (doc : Document) (p1 p2 path v1 v2 : string) :
  ~ In path [p1; p2] -> (<[p2 := v2]> (<[p1 := v1]> doc)) !! path = doc !! path.
Proof.
  intros Hnot. rewrite !lookup_insert_ne; [reflexivity | |]; intros ->; apply Hnot; simpl; auto.
Qed.

Lemma lookup_other_one (doc : Document) (p1 path v1 : string) :
  ~ In path [p1] -> (<[p1 := v1]> doc) !! path = doc !! path.
Proof.
  intros Hnot. rewrite lookup_insert_ne; [reflexivity|]. intros ->. apply Hnot. simpl. auto.
Qed.

Lemma SetCIServerBranch_from_rewrites (env : Env) (branch : string) (jobs : list string) :
  only (rewritten env [default_branch_path; upstream_projects_path])
    (SetCIServerBranch_from env jobs branch).
Proof.
  induction jobs as [|serverjob jobs IH]; intros w.
  - exists []. split; [reflexivity | constructor].
  - simpl SetCIServerBranch_from. unfold GetJobConfig, SaveJobConfig, getJob, getJenkins.
    unfold bind, call, ret, panic. simpl.
    case_replies env.
    all: try match goal with
             | |- context [SetCIServerBranch_from _ _ _ ?w1] =>
                 specialize (IH w1);
                 destruct (SetCIServerBranch_from env jobs branch w1) as [r w2|msg w2|];
                 [| | exact I];
                 destruct IH as (added & -> & Hrest);
                 eexists (added ++ [_; _; _; _; _; _])%list;
                 (split; [now rewrite <- List.app_assoc | apply Forall_app; split; [exact Hrest|]])
             end.
    all: try (name_added).
    all: repeat constructor.
    all: simpl; do 4 eexists.
    all: (split; [eassumption | split; [eassumption | split; [eassumption|]]]).
    all: intros path Hpath; destruct (String.eqb branch "master"); unfold SetText;
      apply lookup_other_two; exact Hpath.
Qed.

(** X13. Every configuration that [SetCIServerBranch] or
    [SetPreReleaseTarget] sends to a job, up to its return or its panic, is
    the configuration Jenkins returned for that job with only the texts
    they set replaced: every other element of the document is written back
    as it was read (setting the text of an element leaves the others as
    they are). *)
Theorem configurations_keep_the_rest (Cfg : Config) (env : Env) (branch target : string) :
  only (rewritten env [default_branch_path; upstream_projects_path])
    (SetCIServerBranch Cfg env branch)
  /\ only (rewritten env [default_branch_path]) (SetPreReleaseTarget Cfg env target).
Proof.
  split; [apply SetCIServerBranch_from_rewrites|].
  intros w.
  unfold SetPreReleaseTarget, GetJobConfig, SaveJobConfig, getJob, getJenkins.
  unfold bind, call, ret, panic. simpl.
  case_replies env; name_added.
  all: repeat constructor.
  all: simpl; do 4 eexists.
  all: (split; [eassumption | split; [eassumption | split; [eassumption|]]]).
  all: intros path Hpath; unfold SetText; apply lookup_other_one; exact Hpath.
Qed.

(** X14. The configuration of the first CI job has been read without
    error.  When it has no root element, [SetCIServerBranch] panics on the
    nil root.  When it has a root but no default-branch parameter, or has
    that but no upstream trigger, [SetCIServerBranch] returns the matching
    "Unable to correct ... element" error, which names the job and has no
    parent.  In all three cases nothing is sent to Jenkins: neither that
    job nor any later one is reconfigured. *)
Theorem SetCIServerBranch_missing_element (env : Env) (branch serverjob config : string)
    (jobs : list string) (root : option Document) (next : Z) (w : World) :
  jenkins_Init env (calls Kind.init w) = None ->
  jenkins_GetJob env (calls Kind.getjob w) serverjob = Ok next ->
  job_GetConfig env (calls Kind.getconfig w) serverjob = Ok config ->
  etree_ReadFromString env config = Ok root ->
  let w' := EvGetConfig serverjob :: EvGetJob serverjob :: EvInit :: w in
  match root with
  | None =>
      SetCIServerBranch_from env (serverjob :: jobs) branch w = Panicked nil_dereference w'
  | Some doc =>
      (doc !! default_branch_path = None ->
       SetCIServerBranch_from env (serverjob :: jobs) branch w =
       Done (NewError ("Unable to correct default branch element for " +:+ serverjob) nil_error) w')
      /\ (doc !! default_branch_path <> None -> doc !! upstream_projects_path = None ->
          SetCIServerBranch_from env (serverjob :: jobs) branch w =
          Done (NewError ("Unable to correct build trigger element for " +:+ serverjob) nil_error)
            w')
  end.
Proof.
  intros Hinit Hjob Hconfig Hread w'.
  assert (Hget : GetJobConfig env serverjob w = Done (config, None) w').
  { unfold GetJobConfig. unfold bind at 1.
    rewrite (getJob_found env serverjob next w Hinit Hjob). run. now rewrite Hconfig. }
  destruct root as [doc|].
  - split.
    + intros Hnone. simpl. unfold bind at 1. rewrite Hget, Hread.
      unfold FindElement. now rewrite Hnone.
    + intros Hsome Hnone. simpl. unfold bind at 1. rewrite Hget, Hread.
      unfold FindElement, SetText.
      destruct (doc !! default_branch_path); [|congruence].
      rewrite lookup_insert_ne by apply paths_differ. now rewrite Hnone.
  - simpl. unfold bind at 1. now rewrite Hget, Hread.
Qed.

Lemma SetCIServerBranch_missing_element_witness :
  SetCIServerBranch_from Scenario2.bare_configs ["ci-a"; "ci-b"] "release-5.3" [] =
    Done (NewError "Unable to correct default branch element for ci-a" nil_error)
      [EvGetConfig "ci-a"; EvGetJob "ci-a"; EvInit]
  /\ SetCIServerBranch_from Scenario2.rootless_configs ["ci-a"; "ci-b"] "release-5.3" [] =
     Panicked nil_dereference [EvGetConfig "ci-a"; EvGetJob "ci-a"; EvInit].
Proof.
  split.
  - exact (proj1 (SetCIServerBranch_missing_element Scenario2.bare_configs "release-5.3" "ci-a"
                    "<project/>" ["ci-b"] (Some ∅) 7 [] eq_refl eq_refl eq_refl eq_refl) eq_refl).
  - exact (SetCIServerBranch_missing_element Scenario2.rootless_configs "release-5.3" "ci-a"
             "<project/>" ["ci-b"] None 7 [] eq_refl eq_refl eq_refl eq_refl).
Defined.

(** ** Versions the cut handler lets through *)

(** X15. Without [--backport], a version whose release part does not
    split on dots into three pieces, or whose middle piece [Atoi] cannot
    read (it does not fit an [int], say), is answered with "Bad version
    argument." and nothing else is done: no probe, no job. *)
Theorem cut_refuses_unreadable_minor (Cfg : Config) (env : Env) (fuel : nat)
    (versionString releasePart rcPart : string) (isFirstMinorRelease dryrun : bool)
    (args : list string) (w : World) :
  parseVersion versionString = Version releasePart rcPart isFirstMinorRelease ->
  match Split releasePart "." with
  | [_; minor; _] => Atoi minor = None
  | _ => True
  end ->
  cutReleaseCommandF Cfg env fuel (versionString :: args) false dryrun w =
  Done nil_error (EvWrite (StandardResponse "Bad version argument." EPHEMERAL) :: w).
Proof.
  intros Hparse Hminor. unfold cutReleaseCommandF. rewrite Hparse. cbn [negb].
  destruct (Split releasePart ".") as [|major [|minor [|patch [|extra more]]]]; try reflexivity.
  now rewrite Hminor.
Qed.

Lemma cut_refuses_unreadable_minor_witness :
  cutReleaseCommandF Scenario.cfg Scenario.jenkins_ok 1 ["5.99999999999999999999.0"] false false []
  = Done nil_error [EvWrite (StandardResponse "Bad version argument." EPHEMERAL)]
  /\ cutReleaseCommandF Scenario.cfg Scenario.jenkins_ok 1 ["12345"] false false []
  = Done nil_error [EvWrite (StandardResponse "Bad version argument." EPHEMERAL)].
Proof.
  split.
  - exact (cut_refuses_unreadable_minor Scenario.cfg Scenario.jenkins_ok 1
             "5.99999999999999999999.0" "5.99999999999999999999.0" "" false false [] []
             eq_refl eq_refl).
  - exact (cut_refuses_unreadable_minor Scenario.cfg Scenario.jenkins_ok 1
             "12345" "12345" "" false false [] [] eq_refl I).
Defined.

Section AcceptedLength.

Lemma lang_chr_length (p : ascii -> bool) (s : string) :
  lang (Chr p) s -> String.length s = 1%nat.
Proof. intros (c & -> & _)%lang_chr_inv. reflexivity. Qed.

Lemma lang_plus_length (p : ascii -> bool) (s : string) :
  lang (Plus (Chr p)) s -> (1 <= String.length s)%nat.
Proof.
  intros (s1 & s2 & -> & H1 & _)%lang_cat_inv.
  rewrite length_append, (lang_chr_length p s1 H1). lia.
Qed.

Lemma lang_final_length (s : string) :
  lang finalVersionRxp s -> (5 <= String.length s)%nat.
Proof.
  unfold finalVersionRxp, digit, anychar. intros H.
  apply lang_cat_inv in H as (s1 & t1 & -> & H1 & H).
  apply lang_cat_inv in H as (s2 & t2 & -> & H2 & H).
  apply lang_cat_inv in H as (s3 & t3 & -> & H3 & H).
  apply lang_cat_inv in H as (s4 & s5 & -> & H4 & H5).
  apply lang_plus_length in H1, H3, H5. apply lang_chr_length in H2, H4.
  rewrite !length_append. lia.
Qed.

(** What [rcRxp] matches is five characters or more, a dash and a rest. *)
Lemma lang_rc_shape (s : string) :
  lang rcRxp s -> exists a rest, s = a +:+ String "-" rest /\ (5 <= String.length a)%nat.
Proof.
  unfold rcRxp, digit, anychar, lit. intros H.
  apply lang_cat_inv in H as (s1 & t1 & -> & H1 & H).
  apply lang_cat_inv in H as (s2 & t2 & -> & H2 & H).
  apply lang_cat_inv in H as (s3 & t3 & -> & H3 & H).
  apply lang_cat_inv in H as (s4 & t4 & -> & H4 & H).
  apply lang_cat_inv in H as (s5 & t5 & -> & H5 & H).
  apply lang_cat_inv in H as (dash & rest & -> & Hdash & _).
  apply lang_chr_inv in Hdash as (c & -> & ->%Ascii.eqb_eq).
  exists (s1 +:+ s2 +:+ s3 +:+ s4 +:+ s5), rest. split.
  - rewrite !append_assoc. reflexivity.
  - apply lang_plus_length in H1, H3, H5. apply lang_chr_length in H2, H4.
    rewrite !length_append. lia.
Qed.

Lemma Split_nonempty (s : string) (sep : ascii) : (1 <= length (Split s sep))%nat.
Proof.
  induction s as [|c s IH]; simpl; [lia|].
  destruct (Ascii.eqb c sep); simpl; [lia|].
  destruct (Split s sep); simpl in *; lia.
Qed.

Lemma Split_length_cons (c : ascii) (s : string) (sep : ascii) :
  Ascii.eqb c sep = false -> length (Split (String c s) sep) = length (Split s sep).
Proof.
  intros Hc. simpl. rewrite Hc.
  pose proof (Split_nonempty s sep). destruct (Split s sep); simpl in *; [lia | reflexivity].
Qed.

Lemma Split_length_append (a b : string) (sep : ascii) :
  length (Split (a +:+ String sep b) sep) = (length (Split a sep) + length (Split b sep))%nat.
Proof.
  induction a as [|c a IH].
  - simpl. now rewrite Ascii.eqb_refl.
  - destruct (Ascii.eqb c sep) eqn:Hc.
    + simpl. rewrite Hc. simpl. now rewrite IH.
    + change (String c a +:+ String sep b) with (String c (a +:+ String sep b)).
      now rewrite !Split_length_cons, IH by assumption.
Qed.

Lemma Split_length_has (a : string) (sep : ascii) :
  has sep a = true -> (2 <= length (Split a sep))%nat.
Proof.
  induction a as [|c a IH]; simpl; [discriminate|].
  destruct (Ascii.eqb c sep) eqn:Hc; simpl.
  - intros _. pose proof (Split_nonempty a sep). lia.
  - intros Ha. specialize (IH Ha).
    destruct (Split a sep); simpl in *; lia.
Qed.

Lemma parseVersion_length (versionString releasePart rcPart : string)
    (isFirstMinorRelease : bool) :
  parseVersion versionString = Version releasePart rcPart isFirstMinorRelease ->
  (5 <= String.length releasePart)%nat.
Proof.
  unfold parseVersion.
  destruct (MatchString rcRxp versionString) eqn:Hrc.
  - apply MatchString_lang, lang_rc_shape in Hrc as (a & rest & -> & Ha).
    destruct (has "-" a) eqn:Hdash.
    + pose proof (Split_length_append a rest "-") as Hlen.
      pose proof (Split_length_has a "-" Hdash).
      pose proof (Split_nonempty rest "-").
      destruct (Split (a +:+ String "-" rest) "-") as [|x [|y [|z more]]];
        simpl in Hlen; try discriminate; lia.
    + rewrite Split_append by exact Hdash.
      destruct (Split rest "-") as [|y [|z more]]; try discriminate.
      now intros [= <- _ _].
  - destruct (MatchString finalVersionRxp versionString) eqn:Hfinal; [|discriminate].
    intros [= <- _ _]. now apply lang_final_length, MatchString_lang.
Qed.

End AcceptedLength.

(** ** Who writes to the response *)

Section Quiet.

Context {A B : Type}.

Lemma quiet_ret (a : A) : quiet (ret a).
Proof. intros w. reflexivity. Qed.

Lemma quiet_out_of_fuel : quiet (out_of_fuel (A := A)).
Proof. intros w. exact I. Qed.

Lemma quiet_bind (m : M A) (k : A -> M B) :
  quiet m -> (forall a, quiet (k a)) -> quiet (bind m k).
Proof.
  intros Hm Hk w. unfold bind. specialize (Hm w).
  destruct (m w) as [a w1|msg w1|]; [| contradiction | exact I].
  specialize (Hk a w1). destruct (k a w1) as [b w2|msg w2|]; [congruence | contradiction | exact I].
Qed.

Lemma quiet_call (kind : Event -> bool) (ev : Event) (reply : nat -> A) :
  is_write ev = false -> quiet (call kind ev reply).
Proof. intros Hev w. unfold call. simpl. now rewrite Hev. Qed.

Lemma emits_quiet (m : M A) : emits jenkins_event m -> quiet m.
Proof.
  intros Hm w. destruct (Hm w) as (a & added & -> & Hadded).
  rewrite calls_app. replace (calls is_write added) with 0%nat; [reflexivity|].
  induction Hadded as [|e added He _ IH]; [reflexivity|].
  simpl. destruct e; simpl in *; try contradiction; exact IH.
Qed.

End Quiet.

Lemma quiet_emit (ev : Event) : is_write ev = false -> quiet (emit ev).
Proof. intros Hev w. unfold emit. simpl. now rewrite Hev. Qed.

Section QuietHelpers.

Variable Cfg : Config.
Variable env : Env.
Variable fuel : nat.

Lemma Build_Poll_quiet (base : string) : quiet (Build_Poll env base).
Proof. unfold Build_Poll. now apply quiet_call. Qed.

Lemma reach_loop_quiet (n : nat) :
  forall base next tries status err3, quiet (reach_loop env n base next tries status err3).
Proof.
  induction n as [|n IH]; intros base next tries status err3; simpl;
    destruct (negb (is_nil err3) || negb (status =? 200));
    try apply quiet_ret; try apply quiet_out_of_fuel.
  apply quiet_bind; [apply Build_Poll_quiet | intros [status' err3']].
  destruct (5 <=? tries); [apply quiet_ret|].
  apply quiet_bind; [now apply quiet_emit | intros _; apply IH].
Qed.

Lemma wait_loop_quiet (n : nat) (base : string) : quiet (wait_loop env n base).
Proof.
  induction n as [|n IH]; simpl; [apply quiet_out_of_fuel|].
  apply quiet_bind; [now apply quiet_call | intros running].
  destruct running; [|apply quiet_ret].
  apply quiet_bind; [now apply quiet_emit | intros _].
  apply quiet_bind; [apply Build_Poll_quiet | intros _; apply IH].
Qed.

Lemma RunJobWaitForResult_quiet (name : string) (parameters : gmap string string) :
  quiet (RunJobWaitForResult env fuel name parameters).
Proof.
  unfold RunJobWaitForResult.
  apply quiet_bind; [apply emits_quiet; now apply getJob_jenkins | intros [job|err]];
    [|apply quiet_ret].
  apply quiet_bind; [now apply quiet_call | intros [msg|]]; [apply quiet_ret|].
  apply quiet_bind; [apply Build_Poll_quiet | intros [status err3]].
  apply quiet_bind; [apply reach_loop_quiet | intros [e|]]; [apply quiet_ret|].
  unfold wait_for_result.
  apply quiet_bind; [now apply quiet_emit | intros _].
  apply quiet_bind; [apply Build_Poll_quiet | intros _].
  apply quiet_bind; [apply wait_loop_quiet | intros _].
  apply quiet_bind; [now apply quiet_call | intros res; apply quiet_ret].
Qed.

Lemma CutRelease_quiet (release rc : string) (isFirstMinorRelease backportRelease : bool) :
  (2 <= String.length release)%nat ->
  quiet (CutRelease Cfg env fuel release rc isFirstMinorRelease backportRelease).
Proof.
  intros Hlen. unfold CutRelease. rewrite (len_slice release Hlen).
  apply quiet_bind.
  - unfold RunReleasePrechecks.
    apply quiet_bind; [apply RunJobWaitForResult_quiet | intros [result err]].
    destruct (non_nil err || negb (String.eqb result STATUS_SUCCESS)); apply quiet_ret.
  - intros [e|]; [apply quiet_ret|].
    apply quiet_bind; [now apply quiet_emit | intros _; apply quiet_ret].
Qed.

Lemma CutRelease5_quiet (release rc : string)
    (isFirstMinorRelease backportRelease isDryRun : bool) :
  (2 <= String.length release)%nat ->
  quiet (CutRelease5 Cfg env fuel release rc isFirstMinorRelease backportRelease isDryRun).
Proof.
  intros Hlen. unfold CutRelease5. rewrite (len_slice release Hlen).
  apply quiet_bind.
  - unfold RunReleasePrechecks.
    apply quiet_bind; [apply RunJobWaitForResult_quiet | intros [result err]].
    destruct (non_nil err || negb (String.eqb result STATUS_SUCCESS)); apply quiet_ret.
  - intros [e|]; [apply quiet_ret|].
    apply quiet_bind; [apply quiet_emit; now destruct isDryRun | intros _; apply quiet_ret].
Qed.

End QuietHelpers.

(** X16. Every release part that the cut handler takes from a version it
    accepts has five characters or more, so the slice
    [release[:len(release)-2]] with which [CutRelease] begins is always in
    bounds there: [CutRelease] on such a release never panics, and neither
    does anything it calls. *)
Theorem accepted_release_never_panics (Cfg : Config) (env : Env) (fuel : nat)
    (versionString releasePart rcPart : string) (isFirstMinorRelease backport : bool)
    (w : World) :
  parseVersion versionString = Version releasePart rcPart isFirstMinorRelease ->
  (5 <= String.length releasePart)%nat
  /\ forall msg w',
       CutRelease Cfg env fuel releasePart rcPart isFirstMinorRelease backport w
       <> Panicked msg w'.
Proof.
  intros Hparse. pose proof (parseVersion_length _ _ _ _ Hparse) as Hlen.
  split; [exact Hlen|]. intros msg w' Hpanic.
  pose proof (CutRelease_quiet Cfg env fuel releasePart rcPart isFirstMinorRelease backport
                ltac:(lia) w) as Hquiet.
  now rewrite Hpanic in Hquiet.
Qed.

Lemma accepted_release_never_panics_witness :
  (5 <= String.length "5.3.0")%nat
  /\ forall msg w',
       CutRelease Scenario.cfg Scenario.jenkins_ok 1 "5.3.0" "rc1" true false []
       <> Panicked msg w'.
Proof.
  exact (accepted_release_never_panics Scenario.cfg Scenario.jenkins_ok 1 "5.3.0-rc1" "5.3.0"
           "rc1" true false [] eq_refl).
Defined.

(** A release of one character makes [CutRelease] panic before anything
    else: only the handler's validation stands in the way. *)
Example CutRelease_short_release_panics :
  CutRelease Scenario.cfg Scenario.jenkins_ok 1 "5" "" false false [] =
  Panicked "slice bounds out of range" [].
Proof. reflexivity. Qed.

Lemma substring_prefix (a b : string) : substring 0 (String.length a) (a +:+ b) = a.
Proof.
  induction a as [|c a IH]; simpl.
  - destruct b; reflexivity.
  - now rewrite IH.
Qed.

(** X17. For a release [MAJOR.MINOR.PATCH] with a one-character [PATCH]
    whose pre-checks succeed, the goroutine [CutRelease] starts is given
    the branch "release-MAJOR.MINOR", the release itself as version, and
    the rc with a dash in front both as rc parameter and, after the
    release, as full version; without an rc the rc parameter is empty and
    the full version is the release. *)
Theorem CutRelease_names (Cfg : Config) (env : Env) (fuel : nat)
    (major minor patch rc : string) (isFirstMinorRelease backportRelease : bool)
    (w w' : World) :
  String.length patch = 1%nat ->
  RunJobWaitForResult env fuel (PreChecksJob Cfg) ∅ w = Done (STATUS_SUCCESS, None) w' ->
  let release := final_version major minor patch in
  CutRelease Cfg env fuel release rc isFirstMinorRelease backportRelease w =
  Done None
    (EvGo (mkReleaseTask release
             (if String.eqb rc "" then "" else "-" +:+ rc)
             (if isFirstMinorRelease then "true" else "false")
             backportRelease
             ("release-" +:+ major +:+ "." +:+ minor)
             (if String.eqb rc "" then release else release +:+ "-" +:+ rc))
     :: w').
Proof.
  intros Hpatch Hrun release.
  assert (Hlen : String.length release = (String.length (major +:+ "." +:+ minor) + 2)%nat).
  { unfold release, final_version. rewrite !length_append, Hpatch.
    change (String.length ".") with 1%nat. lia. }
  unfold CutRelease. rewrite len_slice by lia.
  unfold bind at 1. rewrite (RunReleasePrechecks_after Cfg env fuel w w' _ _ Hrun). simpl.
  unfold bind, emit, ret.
  replace (substring 0 (String.length release - 2) release) with (major +:+ "." +:+ minor);
    [reflexivity|].
  rewrite Hlen. replace (String.length (major +:+ "." +:+ minor) + 2 - 2)%nat
    with (String.length (major +:+ "." +:+ minor)) by lia.
  unfold release, final_version.
  replace (major +:+ "." +:+ minor +:+ "." +:+ patch)
    with ((major +:+ "." +:+ minor) +:+ "." +:+ patch) by now rewrite !append_assoc.
  now rewrite substring_prefix.
Qed.

Lemma CutRelease_names_witness :
  CutRelease Scenario.cfg Scenario.jenkins_ok 1 "5.3.0" "rc2" false true [] =
  Done None
    [EvGo (mkReleaseTask "5.3.0" "-rc2" "false" true "release-5.3" "5.3.0-rc2");
     EvGetResult "/job/prechecks/7"; EvIsRunning "/job/prechecks/7"; EvPoll "/job/prechecks/7";
     EvSleep 5; EvPoll "/job/prechecks/7"; EvInvoke "prechecks" ∅; EvGetJob "prechecks"; EvInit].
Proof.
  exact (CutRelease_names Scenario.cfg Scenario.jenkins_ok 1 "5" "3" "0" "rc2" false true [] _
           eq_refl eq_refl).
Defined.

(** With a patch of two characters the branch keeps the dot. *)
Example CutRelease_two_digit_patch :
  CutRelease Scenario.cfg Scenario.jenkins_ok 1 "5.3.10" "" false true [] =
  Done None
    [EvGo (mkReleaseTask "5.3.10" "" "false" true "release-5.3." "5.3.10");
     EvGetResult "/job/prechecks/7"; EvIsRunning "/job/prechecks/7"; EvPoll "/job/prechecks/7";
     EvSleep 5; EvPoll "/job/prechecks/7"; EvInvoke "prechecks" ∅; EvGetJob "prechecks"; EvInit].
Proof. vm_compute. reflexivity. Qed.

(** ** One response for every request *)

Section AnswersOnce.

Lemma answers_error (err : error) : is_nil err = false -> answers_once (ret err).
Proof. intros Herr w. simpl. rewrite Herr. lia. Qed.

Lemma answers_write (r : Response) : answers_once (emit (EvWrite r) ;;; ret nil_error)%go.
Proof. intros w. simpl. lia. Qed.

Lemma answers_bind {A} (m : M A) (k : A -> M error) :
  quiet m -> (forall a, answers_once (k a)) -> answers_once (bind m k).
Proof.
  intros Hm Hk w. unfold bind. specialize (Hm w).
  destruct (m w) as [a w1|msg w1|]; [| contradiction | exact I].
  specialize (Hk a w1). destruct (k a w1) as [err w2|msg w2|]; [congruence | contradiction | exact I].
Qed.

Lemma answers_once_unless_panic (handler : M error) :
  answers_once handler -> answers_unless_panic handler.
Proof.
  intros H w. specialize (H w). destruct (handler w); [exact H | contradiction | exact I].
Qed.

(** A run that adds Jenkins calls and sleeps only has written nothing when
    it returns or panics. *)
Lemma jenkins_only_writes_nothing {A} (m : M A) (w : World) :
  only jenkins_event m ->
  match m w with
  | Done _ w' | Panicked _ w' => calls is_write w' = calls is_write w
  | OutOfFuel => True
  end.
Proof.
  intros Hm. specialize (Hm w).
  assert (Hnone : forall added, Forall jenkins_event added -> calls is_write added = 0%nat).
  { intros added Hadded. induction Hadded as [|e added He _ IH]; [reflexivity|].
    simpl. destruct e; simpl in *; try contradiction; exact IH. }
  destruct (m w) as [a w'|msg w'|]; [| | exact I];
    destruct Hm as (added & -> & Hadded); rewrite calls_app, (Hnone _ Hadded); reflexivity.
Qed.

Lemma answers_unless_panic_bind {A} (m : M A) (k : A -> M error) :
  only jenkins_event m -> (forall a, answers_once (k a)) -> answers_unless_panic (bind m k).
Proof.
  intros Hm Hk w. unfold bind. pose proof (jenkins_only_writes_nothing m w Hm) as Hw.
  destruct (m w) as [a w1|msg w1|]; [| exact Hw | exact I].
  specialize (Hk a w1). destruct (k a w1) as [err w2|msg w2|]; [congruence | contradiction | exact I].
Qed.

Variable Cfg : Config.
Variable env : Env.
Variable fuel : nat.

Lemma configDumpCommandF_answers (args : list string) : answers_once (configDumpCommandF env args).
Proof.
  destruct args as [|name rest]; simpl; [now apply answers_error|].
  apply answers_bind; [apply emits_quiet; now apply GetJobConfig_jenkins | intros [config [e|]]].
  - now apply answers_error.
  - apply answers_write.
Qed.

Lemma setCIBranchCmdF_answers (args : list string) :
  answers_unless_panic (setCIBranchCmdF Cfg env args).
Proof.
  destruct args as [|branch rest]; simpl;
    [now apply answers_once_unless_panic, answers_error|].
  apply answers_unless_panic_bind;
    [now apply SetCIServerBranch_from_jenkins | intros [e|]].
  - now apply answers_error.
  - apply answers_write.
Qed.

Lemma runJobCmdF_answers (args : list string) : answers_once (runJobCmdF env args).
Proof.
  destruct args as [|name rest]; simpl; [now apply answers_error|].
  apply answers_bind; [apply emits_quiet; now apply RunJobParameters_jenkins | intros [e|]].
  - now apply answers_error.
  - apply answers_write.
Qed.

Lemma setPreReleaseCmdF_answers (args : list string) :
  answers_unless_panic (setPreReleaseCmdF Cfg env args).
Proof.
  destruct args as [|target rest]; simpl;
    [now apply answers_once_unless_panic, answers_error|].
  apply answers_unless_panic_bind; [now apply SetPreReleaseTarget_jenkins | intros [e|]].
  - now apply answers_error.
  - apply answers_write.
Qed.

Lemma loadtestKubeF_answers (job : string) (args : list string) (testLength pprofDelay : Z) :
  answers_once (loadtestKubeF env job args testLength pprofDelay).
Proof.
  destruct args as [|buildTag rest]; simpl; [now apply answers_error|].
  apply answers_bind.
  - unfold LoadtestKube.
    apply quiet_bind; [apply emits_quiet; now apply RunJobParameters_jenkins | intros _].
    apply quiet_ret.
  - intros [e|]; [now apply answers_error | apply answers_write].
Qed.

Lemma lockTranslationServerCommandF_answers (job plt web mobile : string) :
  answers_once (lockTranslationServerCommandF env fuel job plt web mobile).
Proof.
  unfold lockTranslationServerCommandF.
  destruct (String.eqb plt "" && String.eqb web "" && String.eqb mobile "");
    [apply answers_write|].
  apply answers_bind; [apply RunJobWaitForResult_quiet | intros [result err]].
  destruct (non_nil err || negb (String.eqb result STATUS_SUCCESS)); apply answers_write.
Qed.

Lemma cut_and_answer_answers (versionString releasePart rcPart : string)
    (isFirstMinorRelease backport dryrun : bool) :
  (2 <= String.length releasePart)%nat ->
  answers_once (cut_and_answer Cfg env fuel versionString releasePart rcPart
                  isFirstMinorRelease backport dryrun).
Proof.
  intros Hlen. unfold cut_and_answer.
  apply answers_bind; [now apply CutRelease5_quiet | intros [e|]]; apply answers_write.
Qed.

Lemma cutReleaseCommandF_answers (args : list string) (backport dryrun : bool) :
  answers_once (cutReleaseCommandF Cfg env fuel args backport dryrun).
Proof.
  destruct args as [|versionString rest]; simpl; [now apply answers_error|].
  destruct (parseVersion versionString) as [releasePart rcPart isFirst| |] eqn:Hparse;
    try apply answers_write.
  pose proof (parseVersion_length _ _ _ _ Hparse) as Hlen.
  destruct backport; simpl; [apply cut_and_answer_answers; lia|].
  destruct (Split releasePart ".") as [|major [|minor [|patch [|extra more]]]];
    try apply answers_write.
  destruct (Atoi minor) as [intVer|]; [|apply answers_write].
  apply answers_bind; [now apply quiet_call | intros resp].
  rewrite match_200. destruct (poll_failed resp).
  - apply cut_and_answer_answers. lia.
  - apply answers_write.
Qed.

Lemma with_args_answers (words : list string) (handler : list string -> M error) :
  (forall args, answers_once (handler args)) -> answers_once (with_args words handler).
Proof.
  intros Hhandler. unfold with_args.
  destruct (no_flags words); [apply Hhandler | now apply answers_error].
Qed.

Lemma with_args_unless_panic (words : list string) (handler : list string -> M error) :
  (forall args, answers_unless_panic (handler args)) ->
  answers_unless_panic (with_args words handler).
Proof.
  intros Hhandler. unfold with_args.
  destruct (no_flags words); [apply Hhandler | now apply answers_once_unless_panic, answers_error].
Qed.

(** The dispatch answers once; only [setci] and [setprerelease] can
    panic. *)
Lemma Execute_answers (name : string) (rest : list string) (w : World) :
  handled_elsewhere name = false ->
  match Execute Cfg env fuel (name :: rest) w with
  | Done err w' =>
      calls is_write w' = (calls is_write w + (if is_nil err then 1 else 0))%nat
  | Panicked _ w' =>
      calls is_write w' = calls is_write w /\ (name = "setci" \/ name = "setprerelease")
  | OutOfFuel => True
  end.
Proof.
  intros Hname.
  assert (Honce : forall handler : M error,
            answers_once handler ->
            match handler w with
            | Done err w' =>
                calls is_write w' = (calls is_write w + (if is_nil err then 1 else 0))%nat
            | Panicked _ w' =>
                calls is_write w' = calls is_write w /\ (name = "setci" \/ name = "setprerelease")
            | OutOfFuel => True
            end).
  { intros handler H. specialize (H w).
    destruct (handler w); [exact H | contradiction | exact I]. }
  assert (Hpanic : forall handler : M error,
            name = "setci" \/ name = "setprerelease" ->
            answers_unless_panic handler ->
            match handler w with
            | Done err w' =>
                calls is_write w' = (calls is_write w + (if is_nil err then 1 else 0))%nat
            | Panicked _ w' =>
                calls is_write w' = calls is_write w /\ (name = "setci" \/ name = "setprerelease")
            | OutOfFuel => True
            end).
  { intros handler Hn H. specialize (H w).
    destruct (handler w); [exact H | split; [exact H | exact Hn] | exact I]. }
  unfold Execute. fold (handled_elsewhere name). rewrite Hname.
  destruct (String.eqb name "cut").
  { destruct (cut_flags rest [] false false) as [[[args backport] dryrun]|msg].
    - apply Honce, cutReleaseCommandF_answers.
    - now apply Honce, answers_error. }
  destruct (String.eqb name "seeconf");
    [apply Honce, with_args_answers, configDumpCommandF_answers|].
  destruct (String.eqb_spec name "setci") as [Hsetci|_];
    [apply Hpanic; [now left | apply with_args_unless_panic, setCIBranchCmdF_answers]|].
  destruct (String.eqb name "runjob"); [apply Honce, with_args_answers, runJobCmdF_answers|].
  destruct (String.eqb_spec name "setprerelease") as [Hsetpre|_];
    [apply Hpanic; [now right | apply with_args_unless_panic, setPreReleaseCmdF_answers]|].
  now apply Honce, answers_error.
Qed.

End AnswersOnce.

(** X20. Every handler answers once: when [cut], [seeconf], [setci],
    [runjob], [setprerelease], [loadtest] or [lockpootle] returns, it has
    either written exactly one response and returned nil, or written
    nothing and returned an error (which the dispatcher then reports).
    [cut], [seeconf], [runjob], [loadtest] and [lockpootle] never panic,
    whatever their arguments and whatever Jenkins and the probe answer;
    [setci] and [setprerelease] can panic (on a configuration without
    root element), and have then written no response. *)
Theorem handlers_answer_once (Cfg : Config) (env : Env) (fuel : nat) (args : list string)
    (backport dryrun : bool) (job plt web mobile : string) (testLength pprofDelay : Z) :
  answers_once (cutReleaseCommandF Cfg env fuel args backport dryrun)
  /\ answers_once (configDumpCommandF env args)
  /\ answers_unless_panic (setCIBranchCmdF Cfg env args)
  /\ answers_once (runJobCmdF env args)
  /\ answers_unless_panic (setPreReleaseCmdF Cfg env args)
  /\ answers_once (loadtestKubeF env job args testLength pprofDelay)
  /\ answers_once (lockTranslationServerCommandF env fuel job plt web mobile).
Proof.
  split; [apply cutReleaseCommandF_answers|].
  split; [apply configDumpCommandF_answers|].
  split; [apply setCIBranchCmdF_answers|].
  split; [apply runJobCmdF_answers|].
  split; [apply setPreReleaseCmdF_answers|].
  split; [apply loadtestKubeF_answers | apply lockTranslationServerCommandF_answers].
Qed.

Example setci_panics_without_answer :
  setCIBranchCmdF Scenario.cfg Scenario2.rootless_configs ["release-5.3"] [] =
  Panicked nil_dereference [EvGetConfig "ci-a"; EvGetJob "ci-a"; EvInit].
Proof. vm_compute. reflexivity. Qed.

(** X23. A request gets one response.  Take a text of ASCII characters in
    which no word starts with a dash (but for [--backport] and [--dryrun]
    after "cut"), and whose first word is not one of the five commands
    that are only recorded here.  When [slashCommandHandler] returns it has
    written to the response exactly once, be it the refusal, the handler's
    answer or cobra's report.  It panics only in [setci] and
    [setprerelease] (on a configuration without root element), and has
    then written nothing. *)
Theorem one_response_per_request (Cfg : Config) (env : Env) (fuel : nat)
    (command : MMSlashCommand) (w : World) :
  ascii_text (Text command) = true ->
  plain_words (Fields (TrimSpace (Text command))) = true ->
  match Fields (TrimSpace (Text command)) with
  | name :: _ => handled_elsewhere name = false
  | [] => True
  end ->
  match slashCommandHandler Cfg env fuel command w with
  | Done _ w' => calls is_write w' = S (calls is_write w)
  | Panicked _ w' =>
      calls is_write w' = calls is_write w
      /\ exists name rest,
           Fields (TrimSpace (Text command)) = name :: rest
           /\ (name = "setci" \/ name = "setprerelease")
  | OutOfFuel => True
  end.
Proof.
  intros _ _ Hname. unfold slashCommandHandler.
  destruct (checkSlashPermissions Cfg command); [reflexivity|].
  destruct (Fields (TrimSpace (Text command))) as [|name rest]; [reflexivity|].
  unfold bind. pose proof (Execute_answers Cfg env fuel name rest w Hname) as Hrun.
  destruct (Execute Cfg env fuel (name :: rest) w) as [err w1|msg w1|]; [| | exact I].
  - destruct err; simpl in *; rewrite Hrun; lia.
  - destruct Hrun as [Hw Hn]. split; [exact Hw|]. now exists name, rest.
Qed.

Lemma one_response_per_request_witness :
  match slashCommandHandler Scenario.cfg Scenario.jenkins_ok 1
          (Scenario2.alice_says "setci release-5.3") [] with
  | Done _ w' => calls is_write w' = 1%nat
  | Panicked _ w' =>
      calls is_write w' = 0%nat
      /\ exists name rest,
           ["setci"; "release-5.3"] = name :: rest
           /\ (name = "setci" \/ name = "setprerelease")
  | OutOfFuel => True
  end.
Proof.
  exact (one_response_per_request Scenario.cfg Scenario.jenkins_ok 1
           (Scenario2.alice_says "setci release-5.3") [] eq_refl eq_refl eq_refl).
Defined.

(** X18. A command given without its argument fails fast: for [cut],
    [seeconf], [setci], [runjob] and [setprerelease] alone in the text, the
    handler returns its "You need to ..." error, cobra's report of it is
    the only response, and Jenkins is not contacted. *)
Theorem missing_argument_fails_fast (Cfg : Config) (env : Env) (fuel : nat)
    (command : MMSlashCommand) (name : string) (w : World) :
  checkSlashPermissions Cfg command = None ->
  Fields (TrimSpace (Text command)) = [name] ->
  In name ["cut"; "seeconf"; "setci"; "runjob"; "setprerelease"] ->
  exists description,
    slashCommandHandler Cfg env fuel command w =
    Done tt (EvWrite (CobraOutput (as_error (NewError description nil_error))) :: w)
    /\ exists about, description = "You need to " +:+ about.
Proof.
  intros Hcheck Hwords Hname. unfold slashCommandHandler. rewrite Hcheck, Hwords.
  simpl in Hname.
  destruct Hname as [<-|[<-|[<-|[<-|[<-|[]]]]]]; eexists; (split; [reflexivity|]);
    eexists; reflexivity.
Qed.

Lemma missing_argument_fails_fast_witness :
  exists description,
    slashCommandHandler Scenario.cfg Scenario.jenkins_ok 1 (Scenario2.alice_says " runjob ") [] =
    Done tt [EvWrite (CobraOutput (as_error (NewError description nil_error)))]
    /\ exists about, description = "You need to " +:+ about.
Proof.
  apply (missing_argument_fails_fast Scenario.cfg Scenario.jenkins_ok 1
           (Scenario2.alice_says " runjob ") "runjob" [] eq_refl eq_refl).
  simpl. tauto.
Defined.

Lemma TrimLeft_blank (s : string) : all isSpace s = true -> TrimLeft s = "".
Proof.
  induction s as [|c s IH]; [reflexivity|].
  intros [Hc Hs]%andb_true_iff. cbn [TrimLeft]. rewrite Hc. auto.
Qed.

(** X19. A text of white space only (or no text at all) names no command:
    for a caller who passes the permission check the only effect is cobra's
    help as response. *)
Theorem blank_text_runs_nothing (Cfg : Config) (env : Env) (fuel : nat)
    (command : MMSlashCommand) (w : World) :
  checkSlashPermissions Cfg command = None ->
  all isSpace (Text command) = true ->
  slashCommandHandler Cfg env fuel command w = Done tt (EvWrite (CobraOutput nil_error) :: w).
Proof.
  intros Hcheck Hblank. unfold slashCommandHandler, TrimSpace.
  rewrite Hcheck, (TrimLeft_blank _ Hblank). reflexivity.
Qed.

Lemma blank_text_runs_nothing_witness :
  slashCommandHandler Scenario.cfg Scenario.jenkins_ok 1 (Scenario2.alice_says "   ") [] =
  Done tt [EvWrite (CobraOutput nil_error)].
Proof.
  exact (blank_text_runs_nothing Scenario.cfg Scenario.jenkins_ok 1 (Scenario2.alice_says "   ") []
           eq_refl eq_refl).
Defined.

(** X21. [LoadtestKube] drops the outcome of the invocation: it returns
    nil whatever Jenkins answers, so [loadtest TAG] always answers
    "Loadtesting: TAG", also when Jenkins was not reached or refused the
    job. *)
Theorem loadtest_always_claims_success (env : Env) (job buildTag : string) (rest : list string)
    (testLength pprofDelay : Z) (w : World) :
  exists added,
    LoadtestKube env job buildTag testLength pprofDelay w = Done None (added ++ w)%list
    /\ loadtestKubeF env job (buildTag :: rest) testLength pprofDelay w =
       Done nil_error
         (EvWrite (StandardResponse ("Loadtesting: " +:+ buildTag) IN_CHANNEL) :: added ++ w)%list
    /\ Forall jenkins_event added.
Proof.
  unfold loadtestKubeF, LoadtestKube.
  match goal with
  | |- context [RunJobParameters env job ?p] =>
      destruct (RunJobParameters_jenkins env jenkins_event (fun e H => H) job p w)
        as (r & added & Hrun & Hadded)
  end.
  exists added. unfold bind. rewrite Hrun. split; [reflexivity|].
  split; [reflexivity | exact Hadded].
Qed.

Example loadtest_without_jenkins :
  loadtestKubeF Scenario2.no_jenkins "kube-deploy" ["pr-1234"] 20 15 [] =
  Done nil_error [EvWrite (StandardResponse "Loadtesting: pr-1234" "in_channel"); EvInit].
Proof. vm_compute. reflexivity. Qed.

(** X22. When [setci BRANCH] answers "CI servers now pointed at
    **BRANCH**", every configured CI job has been sent, in order, one
    configuration whose default branch is [BRANCH] and whose upstream
    project is the one of that branch. *)
Theorem setci_answer_means_all_updated (Cfg : Config) (env : Env) (branch : string)
    (rest : list string) (w w' : World) :
  setCIBranchCmdF Cfg env (branch :: rest) w = Done nil_error w' ->
  exists added,
    w' = (EvWrite (EnrichedResponse "CI Servers" ("CI servers now pointed at **" +:+ branch +:+ "**")
                     "#0060aa" IN_CHANNEL) :: added ++ w)%list
    /\ omap updated_job added = rev (CIServerJobs Cfg)
    /\ Forall (ci_written env branch) added.
Proof.
  unfold setCIBranchCmdF, SetCIServerBranch. unfold bind at 1.
  pose proof (SetCIServerBranch_from_only env branch (CIServerJobs Cfg) w) as Honly.
  destruct (SetCIServerBranch_from env (CIServerJobs Cfg) branch w) as [r w1|msg w1|] eqn:Hrun;
    [| discriminate | discriminate].
  destruct Honly as (added & -> & Hwritten).
  destruct r as [e|]; [discriminate|].
  intros [= <-]. exists added. split; [reflexivity|]. split; [|exact Hwritten].
  destruct (SetCIServerBranch_from_all env branch (CIServerJobs Cfg) w _ Hrun)
    as (added' & Heq & Hnames).
  apply app_inv_tail in Heq. now subst.
Qed.

Lemma setci_answer_means_all_updated_witness :
  exists added,
    [EvWrite (EnrichedResponse "CI Servers" "CI servers now pointed at **release-5.3**"
                "#0060aa" "in_channel");
     EvUpdateConfig "ci-b" "mattermost-platform/release-5.3,release-5.3";
     EvGetJob "ci-b"; EvInit; EvGetConfig "ci-b"; EvGetJob "ci-b"; EvInit;
     EvUpdateConfig "ci-a" "mattermost-platform/release-5.3,release-5.3";
     EvGetJob "ci-a"; EvInit; EvGetConfig "ci-a"; EvGetJob "ci-a"; EvInit]
    = (EvWrite (EnrichedResponse "CI Servers" "CI servers now pointed at **release-5.3**"
                  "#0060aa" IN_CHANNEL) :: added ++ [])%list
    /\ omap updated_job added = rev (CIServerJobs Scenario.cfg)
    /\ Forall (ci_written Scenario.jenkins_ok "release-5.3") added.
Proof.
  apply (setci_answer_means_all_updated Scenario.cfg Scenario.jenkins_ok "release-5.3" [] []).
  vm_compute. reflexivity.
Defined.

Lemma CutRelease_background_stage_witness :
  CutRelease_background Scenario.cfg Scenario.failing_prechecks 1
    (mkReleaseTask "5.3.0" "-rc1" "true" false "release-5.3" "5.3.0-rc1") [] =
  Done tt
    [EvGetResult "/job/release/7"; EvIsRunning "/job/release/7"; EvPoll "/job/release/7";
     EvSleep 5; EvPoll "/job/release/7";
     EvInvoke "release"
       (<["MM_VERSION" := "5.3.0"]>
         (<["MM_RC" := "-rc1"]> (<["IS_FIRST_MINOR_RELEASE" := "true"]> ∅)));
     EvGetJob "release"; EvInit].
Proof.
  refine (CutRelease_background_stage Scenario.cfg Scenario.failing_prechecks 1
            (mkReleaseTask "5.3.0" "-rc1" "true" false "release-5.3" "5.3.0-rc1") [] _
            "FAILURE" None _).
  vm_compute. reflexivity.
Defined.
